(** * Billing-cycle core of the ISP subscriber-management server (src/app.js)

    A shallow embedding of the voucher ledger, the income ledger, the
    subscriber status engine and the noon rollover job, followed by the
    properties of the specification that concern them and by further
    properties of the same handlers: what the jobs and the ledgers leave
    alone, the invariants they keep and how they compose.

    Modelling conventions.
    - Money is integral (rupees): a JavaScript number is a [Z].  A field that
      may be absent is an [option], and [None] is a missing field
      ([undefined]); [num] is the idiom [Number(x || 0)].  A JSON [null] is
      represented by what every read of the field makes of it: [Some 0] for
      [paidAmount] and for the conversion request's [newPackageFee] and
      [newDiscount], which the handlers test against [undefined] alone and
      pass through [Number]; [None] for every other field, which they read
      through [x || d] or test against [undefined] and [null] alike.
    - A MongoDB collection is the list of its documents in natural order:
      [findOne] and [updateOne] act on the first match.
    - The [_id] of a stored document is an ObjectId, kept as the 24
      lower-case hexadecimal digits it prints as.  An id that arrives in a
      request is any string; [ObjectId] is what the driver makes of it.
    - A stored date used for ordering is kept as the millisecond timestamp the
      handler's [parseDate] yields for it ([None] when the field is falsy).
    - The server's local zone has no daylight saving.  A [Date] built from
      local fields and read back with local getters is then its normalised
      civil date whatever the zone; the timestamp kept for such a date is
      that of a server on UTC; and where the zone's offset decides what a
      handler does (the monthly reset) it is a parameter.
    - A run of the job or of a handler reads the clock once.
    - A case-insensitive anchored regular expression built from an escaped
      name is equality of the ASCII lower-cased names.  The one the transfer
      handler builds from the unescaped name is a parameter.
    - The [refunds], [transactions] and [reminders] collections are not
      followed: no property below reads them. *)

From stdpp Require Import base option list strings numbers pretty.
From Stdlib Require Import ZArith Lia Ascii String Sorting.Sorted Sorting.Permutation.

Local Open Scope string_scope.
Local Open Scope list_scope.
Local Open Scope Z_scope.

(** ** JavaScript value idioms *)

(** [Number(x || 0)] on an optional integral amount. *)
Definition num (x : option Z) : Z := default 0 x.

(** Truthiness of an optional string: absent and empty are falsy. *)
Definition truthy_str (x : option string) : bool :=
  match x with
  | Some s => negb (String.eqb s "")
  | None => false
  end.

(** [a || b] on optional strings. *)
Definition or_str (a b : option string) : option string :=
  if truthy_str a then a else b.

(** [a || b] where a present value is always truthy (Date objects, arrays,
    non-empty date strings). *)
Definition or_else {A} (a b : option A) : option A :=
  match a with
  | Some _ => a
  | None => b
  end.

(** [x === 'lit'] on an optional string. *)
Definition str_is (x : option string) (lit : string) : bool :=
  match x with
  | Some s => String.eqb s lit
  | None => false
  end.

(** Truthiness of an optional amount: absent and zero are falsy. *)
Definition truthy_num (x : option Z) : bool :=
  match x with
  | Some z => negb (z =? 0)
  | None => false
  end.

(** ** Calendar arithmetic of the JavaScript [Date] object *)

(** A civil date [{ y, m, d }] with a zero-based month, as [toPKT_YMD]
    returns it. *)
Record ymd := YMD { ymd_y : Z; ymd_m : Z; ymd_d : Z }.

Definition is_leap (y : Z) : bool :=
  (y mod 4 =? 0) && (negb (y mod 100 =? 0) || (y mod 400 =? 0)).

(** Days of month [m] (zero-based, in 0..11) of year [y]. *)
Definition days_in_month (y m : Z) : Z :=
  if m =? 1 then (if is_leap y then 29 else 28)
  else if (m =? 3) || (m =? 5) || (m =? 8) || (m =? 10) then 30
  else 31.

Definition next_month (y m : Z) : Z * Z :=
  if m =? 11 then (y + 1, 0) else (y, m + 1).

Definition prev_month (y m : Z) : Z * Z :=
  if m =? 0 then (y - 1, 11) else (y, m - 1).

(** Day overflow and underflow roll into the neighbouring months, one month
    per step.  Every step moves the day by at least 28 towards the month's
    range, so [Z.abs d] steps are always enough. *)
Fixpoint roll_days (fuel : nat) (y m d : Z) : ymd :=
  match fuel with
  | O => YMD y m d
  | S k =>
      if d <? 1 then
        let '(y', m') := prev_month y m in
        roll_days k y' m' (d + days_in_month y' m')
      else if days_in_month y m <? d then
        let '(y', m') := next_month y m in
        roll_days k y' m' (d - days_in_month y m)
      else YMD y m d
  end.

(** [MakeDay(year, month, date)] read back as a civil date: the month index
    is reduced modulo 12 into the year, then the day is rolled. *)
Definition make_day (year month day : Z) : ymd :=
  roll_days (S (Z.to_nat (Z.abs day))) (year + month / 12) (month mod 12) day.

(** The [Date(year, month, day)] constructor and [Date.UTC] map the years
    0..99 to 1900..1999 before [MakeDay]. *)
Definition full_year (year : Z) : Z :=
  if (0 <=? year) && (year <=? 99) then 1900 + year else year.

Definition new_Date (year month day : Z) : ymd :=
  make_day (full_year year) month day.

(** [date.setMonth(date.getMonth() + 1)]: the month is advanced and the result
    normalised again; there is no year mapping here. *)
Definition setMonth_next (t : ymd) : ymd :=
  make_day (ymd_y t) (ymd_m t + 1) (ymd_d t).

(** The civil date of a millisecond timestamp in UTC. *)
Definition ymd_of_ms (ms : Z) : ymd :=
  make_day 1970 0 (1 + ms / 86400000).

(** Midnight (UTC) of a normalised civil date, in milliseconds: the day
    number is counted as ECMAScript's [DayFromYear] does. *)
Definition day_from_year (y : Z) : Z :=
  365 * (y - 1970) + (y - 1969) / 4 - (y - 1901) / 100 + (y - 1601) / 400.

Fixpoint days_before_month (y : Z) (m : nat) : Z :=
  match m with
  | O => 0
  | S k => days_before_month y k + days_in_month y (Z.of_nat k)
  end.

Definition ms_of_ymd (t : ymd) : Z :=
  (day_from_year (ymd_y t) + days_before_month (ymd_y t) (Z.to_nat (ymd_m t))
   + ymd_d t - 1) * 86400000.

Definition PKT_OFFSET_MIN : Z := 5 * 60.

(** [toPKT_YMD]: the civil date in the fixed UTC+5 zone. *)
Definition toPKT_YMD (ms : Z) : ymd :=
  ymd_of_ms (ms + PKT_OFFSET_MIN * 60000).

(** The clock reading a scheduler run or a handler starts from: the instant
    ([new Date()]) together with the PKT fields derived from it. *)
Record clock := Clock { now_ms : Z }.

Definition todayYMD (c : clock) : ymd := toPKT_YMD (now_ms c).
Definition currentHour (c : clock) : Z :=
  ((now_ms c + PKT_OFFSET_MIN * 60000) / 3600000) mod 24.

(** The stored [expiryDate] of a subscriber.
    - [ExpDashed a b c]: a string of three ['-']-separated decimal fields
      (the form [formatDate] writes, ["DD-MM-YYYY"]), already through
      [parseInt];
    - [ExpDateObj ms]: a [Date] value;
    - [ExpAbsent]: missing, empty, or a string no parser accepts.
    Strings only the engine's fallback [new Date(string)] parser accepts are
    outside the model. *)
Inductive expiry :=
  | ExpDashed (dd mm yyyy : Z)
  | ExpDateObj (ms : Z)
  | ExpAbsent.

Definition month_name (m : Z) : string :=
  match m with
  | 0 => "January" | 1 => "February" | 2 => "March" | 3 => "April"
  | 4 => "May" | 5 => "June" | 6 => "July" | 7 => "August"
  | 8 => "September" | 9 => "October" | 10 => "November" | _ => "December"
  end.

(** [toLocaleDateString('en-US', { month: 'long', year: 'numeric' })]. *)
Definition month_label (t : ymd) : string :=
  month_name (ymd_m t) +:+ " " +:+ pretty (ymd_y t).

(** [formatDate]: the date written back as ["DD-MM-YYYY"]. *)
Definition formatDate (t : ymd) : expiry :=
  ExpDashed (ymd_d t) (ymd_m t + 1) (ymd_y t).

(** [isDateLTE(ymd, refY, refM, refD)]. *)
Definition isDateLTE (t ref : ymd) : bool :=
  if ymd_y t <? ymd_y ref then true
  else if (ymd_y t =? ymd_y ref) && (ymd_m t <? ymd_m ref) then true
  else if (ymd_y t =? ymd_y ref) && (ymd_m t =? ymd_m ref)
          && (ymd_d t <=? ymd_d ref) then true
  else false.

(** ** Strings: the few library calls the handlers rely on *)

Definition is_space (c : ascii) : bool :=
  let n := nat_of_ascii c in
  ((n =? 32) || (n =? 9) || (n =? 10) || (n =? 13) || (n =? 11) || (n =? 12))%nat.

Fixpoint trim_start (s : string) : string :=
  match s with
  | String c r => if is_space c then trim_start r else s
  | EmptyString => EmptyString
  end.

(** [s.trim()] *)
Definition trim (s : string) : string :=
  String.rev (trim_start (String.rev (trim_start s))).

Definition lower_ascii (c : ascii) : ascii :=
  let n := nat_of_ascii c in
  if ((65 <=? n) && (n <=? 90))%nat then ascii_of_nat (n + 32) else c.

(** [s.toLowerCase()] on ASCII text. *)
Fixpoint toLowerCase (s : string) : string :=
  match s with
  | String c r => String (lower_ascii c) (toLowerCase r)
  | EmptyString => EmptyString
  end.

(** [s.includes(p)] *)
Fixpoint includes (p s : string) : bool :=
  String.prefix p s ||
  match s with
  | String _ r => includes p r
  | EmptyString => false
  end.

(** A document whose [name] matches [new RegExp('^' + escape(pat) + '$', 'i')]. *)
Definition name_matches_ci (pat name : string) : bool :=
  String.eqb (toLowerCase pat) (toLowerCase name).

(** ** Document ids

    [ObjectId.isValid(id)] and [new ObjectId(id)] of the driver, on a string:
    the id is taken when it is 24 hexadecimal digits, and the object built
    from it prints in lower case; for any other string [isValid] is false and
    the constructor throws.  (Drivers before version 6 also take a string of
    12 characters as twelve raw bytes; the current driver is followed.) *)

Definition is_hex_digit (c : ascii) : bool :=
  let n := nat_of_ascii c in
  (((48 <=? n) && (n <=? 57)) || ((97 <=? n) && (n <=? 102))
   || ((65 <=? n) && (n <=? 70)))%nat.

Definition ObjectId_isValid (id : string) : bool :=
  (String.length id =? 24)%nat && forallb is_hex_digit (list_ascii_of_string id).

(** [new ObjectId(id).toString()]; [None] when the constructor throws. *)
Definition ObjectId (id : string) : option string :=
  if ObjectId_isValid id then Some (toLowerCase id) else None.

(** ** Documents *)

(** One item of a month's [paymentHistory]. *)
Record payment := Payment {
  pay_amount : Z;
  pay_receivedBy : option string;
  pay_paymentMethod : option string
}.

(** A month entry of a voucher. *)
Record month_entry := MonthEntry {
  month : string;
  packageFee : option Z;
  discount : option Z;
  paidAmount : option Z;
  remainingAmount : option Z;
  status : option string;
  paymentMethod : option string;
  receivedBy : option string;
  paymentHistory : option (list payment);
  paymentType : option string;
  description : option string;
  date : option Z;
  createdAt : option Z;
  updatedAt : option Z;
  refundDate : option Z;
  refundedAmount : option Z
}.

(** A voucher document.  [months] is absent on legacy flat vouchers, whose
    own top-level charge fields are kept in [v_flat] ([v_amount] is the
    legacy [amount] field). *)
Record voucher := Voucher {
  v_id : string;
  userId : string;
  v_userName : string;
  v_rechargeDate : option string;
  v_expiryDate : expiry;
  months : option (list month_entry);
  v_flat : month_entry;
  v_amount : option Z;
  v_updatedAt : option Z
}.

(** A subscriber document. *)
Record user := User {
  u_id : string;
  userName : string;
  packageName : option string;
  u_amount : option Z;
  u_discount : option Z;
  totalAmount : option Z;
  numberOfMonths : option Z;
  rechargeDate : option string;
  expiryDate : expiry;
  u_status : option string;
  paymentStatus : option string;
  serviceStatus : option string;
  u_paidAmount : option Z;
  u_remainingAmount : option Z;
  unpaidSince : option Z;
  showInExpiringSoon : option bool
}.

(** An income record: running totals of one receiver. *)
Record income := Income {
  i_name : string;
  cashIncome : option Z;
  bankIncome : option Z
}.

(** A transfer record of the [collections] collection. *)
Record transfer := Transfer {
  t_feeCollector : string;
  t_amount : Z;
  t_message : string
}.

(** The persisted state the billing core reads and writes. *)
Record db := Db {
  users : list user;
  vouchers : list voucher;
  incomes : list income;
  collections : list transfer
}.

Inductive response := Resp (code : Z) (message : string).

Definition resp_code (r : response) : Z := let 'Resp c _ := r in c.

(** [isReversed = !!(m.refundDate || m.refundedAmount)] *)
Definition isReversed (m : month_entry) : bool :=
  bool_decide (is_Some (refundDate m)) || truthy_num (refundedAmount m).

(** An empty month entry: the fields of a document that has none of them. *)
Definition no_month : month_entry :=
  MonthEntry "" None None None None None None None None None None None None
             None None None.

(** ** Subscriber creation: [POST /api/users] *)

Record user_request := UserRequest {
  rq_userName : option string;
  rq_packageName : option string;
  rq_discount : option Z;
  rq_amount : option Z;
  rq_rechargeDate : option string;
  rq_expiryDate : expiry;
  rq_status : option string;
  rq_paymentType : option string;
  rq_numberOfMonths : option Z
}.

(** [numberOfMonths || 1] *)
Definition or_one (n : option Z) : Z :=
  match n with
  | Some z => if z =? 0 then 1 else z
  | None => 1
  end.

(** [parseExpiryDate] of the creation handler: the three dashed fields taken
    as they are, without normalisation. *)
Definition parseExpiryDate (e : expiry) : option ymd :=
  match e with
  | ExpDashed dd mm yyyy => Some (YMD yyyy (mm - 1) dd)
  | _ => None
  end.

Definition ymd_eqb (a b : ymd) : bool :=
  (ymd_y a =? ymd_y b) && (ymd_m a =? ymd_m b) && (ymd_d a =? ymd_d b).

(** The payment status with the paid and remaining amounts (lines
    3524-3547). *)
Definition determine_payment_status (rq : user_request) : string * Z * Z :=
  let packageFeePerMonth := num (rq_amount rq) in
  let discountPerMonth := num (rq_discount rq) in
  let monthlyFeeAfterDiscount := packageFeePerMonth - discountPerMonth in
  let totalAmountForAllMonths :=
    monthlyFeeAfterDiscount * or_one (rq_numberOfMonths rq) in
  if str_is (rq_status rq) "pending" then
    ("pending", 0, totalAmountForAllMonths)
  else if str_is (rq_paymentType rq) "now" then
    ((if 1 <? num (rq_numberOfMonths rq) then "partial" else "paid"),
     monthlyFeeAfterDiscount,
     totalAmountForAllMonths - monthlyFeeAfterDiscount)
  else if str_is (rq_paymentType rq) "later" then
    ("unpaid", 0, totalAmountForAllMonths)
  else ("unpaid", 0, totalAmountForAllMonths).

(** The document the handler inserts (lines 3586-3610); [newId] is the id
    the store assigns.  Without a parsable expiry date the flag expression
    [isExpiringTomorrow || (isExpiringToday && ...)] is [null]. *)
Definition newUser (c : clock) (newId : string) (name : string)
    (rq : user_request) : user :=
  let '(paymentStatus, paid, remaining) := determine_payment_status rq in
  let today := todayYMD c in
  let tomorrow := new_Date (ymd_y today) (ymd_m today) (ymd_d today + 1) in
  let expiryYMD := parseExpiryDate (rq_expiryDate rq) in
  let isExpiringToday :=
    match expiryYMD with Some e => ymd_eqb e today | None => false end in
  let isExpiringTomorrow :=
    match expiryYMD with Some e => ymd_eqb e tomorrow | None => false end in
  let shouldShowInExpiringSoon :=
    isExpiringTomorrow || (isExpiringToday && (currentHour c <? 12)) in
  {| u_id := newId;
     userName := trim name;
     packageName := Some (default "" (or_str (rq_packageName rq) None));
     u_discount := Some (num (rq_discount rq));
     u_amount := Some (num (rq_amount rq));
     totalAmount :=
       Some ((num (rq_amount rq) - num (rq_discount rq))
             * or_one (rq_numberOfMonths rq));
     numberOfMonths := Some (or_one (rq_numberOfMonths rq));
     rechargeDate := or_str (rq_rechargeDate rq) None;
     expiryDate := rq_expiryDate rq;
     u_status := Some paymentStatus;
     paymentStatus := None;
     serviceStatus := Some "active";
     u_paidAmount := Some paid;
     u_remainingAmount := Some remaining;
     unpaidSince :=
       if String.eqb paymentStatus "unpaid" then Some (now_ms c) else None;
     showInExpiringSoon :=
       match expiryYMD with
       | Some _ => Some shouldShowInExpiringSoon
       | None => None
       end |}.

(** The handler: a missing or empty name is refused, otherwise the document
    is inserted. *)
Definition post_users (c : clock) (newId : string) (rq : user_request)
    (s : db) : db * response :=
  match rq_userName rq with
  | Some name =>
      if String.eqb name "" then (s, Resp 400 "User name is required")
      else
        ({| users := users s ++ [newUser c newId name rq];
            vouchers := vouchers s;
            incomes := incomes s;
            collections := collections s |},
         Resp 201 "User added successfully")
  | None => (s, Resp 400 "User name is required")
  end.

(** ** Store access *)

(** [collection.updateOne(filter, update)]: the first matching document is
    rewritten, nothing happens when none matches. *)
Fixpoint update_first {A} (p : A -> bool) (f : A -> A) (l : list A) : list A :=
  match l with
  | [] => []
  | x :: r => if p x then f x :: r else x :: update_first p f r
  end.

(** [collection.findOne(filter)] *)
Definition find_first {A} (p : A -> bool) (l : list A) : option A :=
  List.find p l.

Definition set_users (us : list user) (s : db) : db :=
  {| users := us; vouchers := vouchers s; incomes := incomes s;
     collections := collections s |}.

Definition set_vouchers (vs : list voucher) (s : db) : db :=
  {| users := users s; vouchers := vs; incomes := incomes s;
     collections := collections s |}.

Definition set_incomes (rs : list income) (s : db) : db :=
  {| users := users s; vouchers := vouchers s; incomes := rs;
     collections := collections s |}.

Definition set_collections (ts : list transfer) (s : db) : db :=
  {| users := users s; vouchers := vouchers s; incomes := incomes s;
     collections := ts |}.

Definition has_id (id : string) (u : user) : bool := String.eqb (u_id u) id.
Definition of_user (id : string) (v : voucher) : bool := String.eqb (userId v) id.
Definition voucher_has_id (id : string) (v : voucher) : bool :=
  String.eqb (v_id v) id.

(** The subscriber stored under an id, and the voucher [findOne({ userId })]
    returns. *)
Definition user_of (id : string) (s : db) : option user :=
  find_first (has_id id) (users s).
Definition voucher_of (id : string) (s : db) : option voucher :=
  find_first (of_user id) (vouchers s).

(** ** Errors and effects

    A handler body is a computation over the store that either completes or
    throws; writes made before the throw stay in the store. *)

Inductive js_error :=
  | TypeError (msg : string)
  | ReferenceError (msg : string)
  | BSONError (msg : string).

Inductive outcome (A : Type) :=
  | Done (a : A)
  | Thrown (e : js_error).
Arguments Done {A} a.
Arguments Thrown {A} e.

Definition M (A : Type) : Type := db -> db * outcome A.

Definition ret {A} (a : A) : M A := fun s => (s, Done a).
Definition throw {A} (e : js_error) : M A := fun s => (s, Thrown e).
Definition bind {A B} (m : M A) (k : A -> M B) : M B :=
  fun s =>
    match m s with
    | (s', Done a) => k a s'
    | (s', Thrown e) => (s', Thrown e)
    end.
Definition get : M db := fun s => (s, Done s).
Definition modify (f : db -> db) : M unit := fun s => (f s, Done tt).

#[export] Instance M_ret : MRet M := @ret.
#[export] Instance M_bind : MBind M := fun A B k m => bind m k.

(** [for (const x of l) { await f(x) }] *)
Fixpoint for_each {A} (f : A -> M unit) (l : list A) : M unit :=
  match l with
  | [] => ret tt
  | x :: r => f x ;; for_each f r
  end.

(** ** The voucher ledger: smart merge *)

(** The sort key [parseDate(a.date || a.createdAt).getTime()]; a month with
    neither field sorts at the epoch. *)
Definition date_key (m : month_entry) : Z :=
  default 0 (or_else (date m) (createdAt m)).

(** [Array.prototype.sort] with the comparator [dateA - dateB]: the stable
    ascending order on [key]. *)
Fixpoint insert_sorted (key : month_entry -> Z) (x : month_entry)
    (l : list month_entry) : list month_entry :=
  match l with
  | [] => [x]
  | y :: r => if key x <=? key y then x :: y :: r
              else y :: insert_sorted key x r
  end.

Definition sort_by (key : month_entry -> Z) (l : list month_entry)
  : list month_entry :=
  foldr (insert_sorted key) [] l.

Definition sort_by_date : list month_entry -> list month_entry :=
  sort_by date_key.

Definition same_label (label : string) (m : month_entry) : bool :=
  String.eqb (month m) label.

(** [mergedMonths.findIndex(m => m.month === label)] *)
Fixpoint findIndex (label : string) (l : list month_entry) : option nat :=
  match l with
  | [] => None
  | x :: r => if same_label label x then Some O
              else S <$> findIndex label r
  end.

(** The replacement of an existing entry (lines 7913-7933 and 8338-8363):
    [packageFee] and [discount] come from the stored entry, the payment
    fields from the incoming one. *)
Definition merge_existing (now : Z) (existing incoming : month_entry)
  : month_entry :=
  let fee := num (packageFee existing) in
  let disc := num (discount existing) in
  let paid := match paidAmount incoming with
              | Some p => p
              | None => num (paidAmount existing)
              end in
  let remaining := Z.max 0 (fee - disc - paid) in
  {| month := month existing;
     packageFee := Some fee;
     discount := Some disc;
     paidAmount := Some paid;
     remainingAmount := Some remaining;
     status := or_str (status incoming) (status existing);
     paymentMethod :=
       if 0 <? paid
       then or_str (paymentMethod incoming) (paymentMethod existing)
       else paymentMethod existing;
     receivedBy :=
       if 0 <? paid
       then or_str (receivedBy incoming) (receivedBy existing)
       else receivedBy existing;
     paymentHistory := or_else (paymentHistory incoming) (paymentHistory existing);
     paymentType := paymentType existing;
     description := or_str (description incoming) (description existing);
     date := or_else (date existing) (date incoming);
     createdAt := createdAt existing;
     updatedAt := Some now;
     refundDate := refundDate existing;
     refundedAmount := refundedAmount existing |}.

(** The entry pushed for a label the voucher does not have yet (lines
    7937-7949 and 8366-8378). *)
Definition merge_new (now : Z) (incoming : month_entry) : month_entry :=
  let fee := num (packageFee incoming) in
  let disc := num (discount incoming) in
  let paid := num (paidAmount incoming) in
  let remaining := Z.max 0 (fee - disc - paid) in
  {| month := month incoming;
     packageFee := Some fee;
     discount := Some disc;
     paidAmount := Some paid;
     remainingAmount := Some remaining;
     status := status incoming;
     paymentMethod := paymentMethod incoming;
     receivedBy := receivedBy incoming;
     paymentHistory := paymentHistory incoming;
     paymentType := paymentType incoming;
     description := description incoming;
     date := date incoming;
     createdAt := or_else (createdAt incoming) (Some now);
     updatedAt := updatedAt incoming;
     refundDate := refundDate incoming;
     refundedAmount := refundedAmount incoming |}.

(** One turn of the merge loop. *)
Definition merge_step (now : Z) (mergedMonths : list month_entry)
    (incoming : month_entry) : list month_entry :=
  match findIndex (month incoming) mergedMonths with
  | Some existingIndex =>
      match mergedMonths !! existingIndex with
      | Some existing =>
          <[existingIndex := merge_existing now existing incoming]> mergedMonths
      | None => mergedMonths
      end
  | None => mergedMonths ++ [merge_new now incoming]
  end.

(** The whole loop over the sorted incoming months. *)
Definition smart_merge (now : Z) (existingMonths sortedIncoming : list month_entry)
  : list month_entry :=
  fold_left (merge_step now) sortedIncoming existingMonths.

(** The conversion of a ['superbalance'] month (lines 7976-7989).  The new
    remainder is [packageFee - (discount || 0)]; on a month without a
    [packageFee] JavaScript yields NaN, which the integral model cannot hold,
    so the remainder is left absent there. *)
Definition convert_superbalance (m : month_entry) : month_entry :=
  if str_is (status m) "superbalance" then
    {| month := month m;
       packageFee := packageFee m;
       discount := discount m;
       paidAmount := Some 0;
       remainingAmount :=
         match packageFee m with
         | Some fee => Some (fee - num (discount m))
         | None => None
         end;
       status := Some "unpaid";
       paymentMethod := paymentMethod m;
       receivedBy := receivedBy m;
       paymentHistory := Some [];
       paymentType := paymentType m;
       description := description m;
       date := date m;
       createdAt := createdAt m;
       updatedAt := updatedAt m;
       refundDate := refundDate m;
       refundedAmount := refundedAmount m |}
  else m.

Definition is_superbalance (m : month_entry) : bool :=
  str_is (status m) "superbalance".

(** ** The income ledger: credit on payment *)

Definition named (name : string) (r : income) : bool :=
  String.eqb (i_name r) name.

(** [updateOne({ name }, { $inc: { cashIncome: amount } }, { upsert: true })] *)
Definition credit_cash (name : string) (amount : Z) (l : list income)
  : list income :=
  if existsb (named name) l then
    update_first (named name)
      (fun r => {| i_name := i_name r;
                   cashIncome := Some (num (cashIncome r) + amount);
                   bankIncome := bankIncome r |}) l
  else l ++ [{| i_name := name; cashIncome := Some amount; bankIncome := None |}].

(** The credits one incoming month produces (lines 8028-8071). *)
Definition credit_month (m : month_entry) (l : list income) : list income :=
  if str_is (status m) "paid" || str_is (status m) "partial" then
    match default [] (paymentHistory m) with
    | [] =>
        if truthy_str (receivedBy m) then
          let amount := num (paidAmount m) in
          if 0 <? amount then credit_cash (default "" (receivedBy m)) amount l
          else l
        else l
    | history =>
        fold_left
          (fun acc p =>
             let receiver := default "Admin" (or_str (pay_receivedBy p) None) in
             if 0 <? pay_amount p then credit_cash receiver (pay_amount p) acc
             else acc)
          history l
    end
  else l.

Definition credit_months (ms : list month_entry) (l : list income) : list income :=
  fold_left (fun acc m => credit_month m acc) ms l.

(** ** [POST /api/vouchers] *)

Record voucher_request := VoucherRequest {
  vr_userId : string;
  vr_userName : string;
  vr_rechargeDate : option string;
  vr_expiryDate : expiry;
  vr_months : option (list month_entry);
  vr_month : option string;
  vr_packageFee : option Z;
  vr_discount : option Z;
  vr_paidAmount : option Z;
  vr_remainingAmount : option Z;
  vr_paymentMethod : option string;
  vr_receivedBy : option string;
  vr_paymentType : option string;
  vr_status : option string;
  vr_date : option Z;
  vr_description : option string
}.

(** [expiryDate || existing.expiryDate] *)
Definition or_expiry (a b : expiry) : expiry :=
  match a with
  | ExpAbsent => b
  | _ => a
  end.

Definition set_months (ms : list month_entry) (rd : option string)
    (ed : expiry) (now : Z) (v : voucher) : voucher :=
  {| v_id := v_id v; userId := userId v; v_userName := v_userName v;
     v_rechargeDate := rd; v_expiryDate := ed; months := Some ms;
     v_flat := v_flat v; v_amount := v_amount v; v_updatedAt := Some now |}.

(** The branch taken when the voucher exists (lines 7900-8077).  The write of
    the merged months comes first; the subscriber update that follows a
    superbalance conversion reads [updatedMonths], a name this handler never
    binds, so evaluating it throws.  The housekeeping of the [refunds]
    collection between the merge loop and the conversion (lines 7954-7972)
    writes nothing else. *)
Definition post_vouchers_merge (c : clock) (rq : voucher_request)
    (existingVoucher : voucher) (sortedMonths : list month_entry) : M response :=
  let mergedMonths :=
    smart_merge (now_ms c) (default [] (months existingVoucher)) sortedMonths in
  let hasSuperBalanceConverted := existsb is_superbalance mergedMonths in
  let validMonths := convert_superbalance <$> mergedMonths in
  let finalSortedMonths := sort_by_date validMonths in
  modify (fun s =>
    set_vouchers
      (update_first (of_user (vr_userId rq))
         (set_months finalSortedMonths
            (or_str (vr_rechargeDate rq) (v_rechargeDate existingVoucher))
            (or_expiry (vr_expiryDate rq) (v_expiryDate existingVoucher))
            (now_ms c))
         (vouchers s)) s) ;;
  (if hasSuperBalanceConverted
   then throw (ReferenceError "updatedMonths is not defined")
   else ret tt) ;;
  modify (fun s => set_incomes (credit_months sortedMonths (incomes s)) s) ;;
  ret (Resp 200 "Voucher updated with months array").

(** The branch that creates the voucher (lines 8078-8142); [newId] is the id
    the store assigns. *)
Definition post_vouchers_create (c : clock) (newId : string)
    (rq : voucher_request) (sortedMonths : list month_entry) : M response :=
  modify (fun s =>
    set_vouchers
      (vouchers s ++
       [{| v_id := newId; userId := vr_userId rq; v_userName := vr_userName rq;
           v_rechargeDate := or_str (vr_rechargeDate rq) None;
           v_expiryDate := vr_expiryDate rq;
           months := Some sortedMonths;
           v_flat := no_month; v_amount := None; v_updatedAt := None |}]) s) ;;
  modify (fun s => set_incomes (credit_months sortedMonths (incomes s)) s) ;;
  ret (Resp 201 "Voucher created with months array").

(** The single-month path kept for older clients (lines 8145-8223). *)
Definition post_vouchers_single (c : clock) (newId : string)
    (rq : voucher_request) : M response :=
  match vr_month rq, vr_packageFee rq with
  | Some label, Some fee =>
      if String.eqb (vr_userId rq) "" || String.eqb (vr_userName rq) ""
         || String.eqb label ""
      then ret (Resp 400 "Missing required fields: userId, userName, packageFee, month")
      else
        let monthData :=
          {| month := label;
             packageFee := Some fee;
             discount := Some (num (vr_discount rq));
             paidAmount := Some (num (vr_paidAmount rq));
             remainingAmount := Some (num (vr_remainingAmount rq));
             status := Some (default "unpaid" (or_str (vr_status rq) None));
             paymentMethod :=
               Some (default "Not Paid" (or_str (vr_paymentMethod rq) None));
             receivedBy :=
               Some (default "Myself" (or_str (vr_receivedBy rq) None));
             paymentHistory := None;
             paymentType :=
               Some (default "later" (or_str (vr_paymentType rq) None));
             description :=
               Some (default
                       (label +:+ " - " +:+
                        (if str_is (vr_status rq) "paid" then "Paid" else "Pending"))
                       (or_str (vr_description rq) None));
             date := Some (default (now_ms c) (vr_date rq));
             createdAt := Some (now_ms c);
             updatedAt := None;
             refundDate := None;
             refundedAmount := None |} in
        s ← get;
        match voucher_of (vr_userId rq) s with
        | Some existingVoucher =>
            if existsb (same_label label) (default [] (months existingVoucher))
            then ret (Resp 400 ("Voucher for " +:+ label
                                +:+ " already exists for this user."))
            else
              modify (fun s =>
                set_vouchers
                  (update_first (of_user (vr_userId rq))
                     (fun v =>
                        {| v_id := v_id v; userId := userId v;
                           v_userName := v_userName v;
                           v_rechargeDate :=
                             or_str (vr_rechargeDate rq) (v_rechargeDate v);
                           v_expiryDate :=
                             or_expiry (vr_expiryDate rq) (v_expiryDate v);
                           months := Some ((default [] (months v) ++ [monthData])%list);
                           v_flat := v_flat v; v_amount := v_amount v;
                           v_updatedAt := v_updatedAt v |})
                     (vouchers s)) s) ;;
              ret (Resp 200 ("New month (" +:+ label
                             +:+ ") added to existing voucher."))
        | None =>
            modify (fun s =>
              set_vouchers
                (vouchers s ++
                 [{| v_id := newId; userId := vr_userId rq;
                     v_userName := vr_userName rq;
                     v_rechargeDate := or_str (vr_rechargeDate rq) None;
                     v_expiryDate := vr_expiryDate rq;
                     months := Some [monthData];
                     v_flat := no_month; v_amount := None;
                     v_updatedAt := None |}]) s) ;;
            ret (Resp 201 "New voucher document created for user.")
        end
  | _, _ =>
      ret (Resp 400 "Missing required fields: userId, userName, packageFee, month")
  end.

Definition post_vouchers_body (c : clock) (newId : string)
    (rq : voucher_request) : M response :=
  match vr_months rq with
  | Some (first :: rest) =>
      let sortedMonths := sort_by_date (first :: rest) in
      s ← get;
      match voucher_of (vr_userId rq) s with
      | Some existingVoucher =>
          post_vouchers_merge c rq existingVoucher sortedMonths
      | None => post_vouchers_create c newId rq sortedMonths
      end
  | _ => post_vouchers_single c newId rq
  end.

(** [try { ... } catch (error) { res.status(500) ... }] *)
Definition catch_500 (message : string) (body : M response) (s : db)
  : db * response :=
  match body s with
  | (s', Done r) => (s', r)
  | (s', Thrown _) => (s', Resp 500 message)
  end.

Definition post_vouchers (c : clock) (newId : string) (rq : voucher_request)
  : db -> db * response :=
  catch_500 "Error creating voucher" (post_vouchers_body c newId rq).

(** ** [PUT /api/vouchers/:id] *)

Record voucher_update := VoucherUpdate {
  vu_months : option (list month_entry);
  vu_rechargeDate : option (option string);
  vu_expiryDate : option expiry;
  vu_isRefund : bool;
  vu_mode : option string
}.

Definition set_user_status (st : string) (u : user) : user :=
  {| u_id := u_id u; userName := userName u; packageName := packageName u;
     u_amount := u_amount u; u_discount := u_discount u;
     totalAmount := totalAmount u; numberOfMonths := numberOfMonths u;
     rechargeDate := rechargeDate u; expiryDate := expiryDate u;
     u_status := Some st; paymentStatus := paymentStatus u;
     serviceStatus := serviceStatus u; u_paidAmount := u_paidAmount u;
     u_remainingAmount := u_remainingAmount u; unpaidSince := unpaidSince u;
     showInExpiringSoon := showInExpiringSoon u |}.

Definition is_reversed_status (m : month_entry) : bool :=
  str_is (status m) "reversed".

(** The refund prologue (lines 8247-8281), for the voucher id [oid] the
    handler has built from the request: the owner of the voucher is looked
    up under [new ObjectId(voucher.userId)], which throws when the voucher
    was stored under a [userId] that is no ObjectId string; when every
    submitted month is reversed the subscriber becomes ['reversed'].  The
    refund record it also files lives in a collection this development does
    not follow. *)
Definition put_voucher_refund (oid : string) (upd : voucher_update) : M unit :=
  match vu_months upd with
  | Some ms =>
      if vu_isRefund upd then
        s ← get;
        match find_first (voucher_has_id oid) (vouchers s) with
        | Some v =>
            match ObjectId (userId v) with
            | Some owner =>
                if existsb is_reversed_status ms && forallb is_reversed_status ms
                then modify (fun s =>
                       set_users
                         (update_first (has_id owner)
                            (set_user_status "reversed") (users s)) s)
                else ret tt
            | None =>
                throw (BSONError "input must be a 24 character hex string")
            end
        | None => ret tt
        end
      else ret tt
  | None => ret tt
  end.

(** The key of the replace mode: [a.date ? new Date(a.date) : new Date(0)]. *)
Definition date_only_key (m : month_entry) : Z := default 0 (date m).

(** The handler past its first check (lines 8241-8412); [oid] is
    [new ObjectId(req.params.id)]. *)
Definition put_voucher_body (c : clock) (oid : string) (upd : voucher_update)
  : M response :=
  put_voucher_refund oid upd ;;
  s ← get;
  let existing := find_first (voucher_has_id oid) (vouchers s) in
  let newMonths : option (option (list month_entry)) :=
    match vu_months upd with
    | Some ms =>
        if str_is (vu_mode upd) "replace"
        then Some (Some (sort_by date_only_key ms))
        else
          match existing with
          | Some existingVoucher =>
              Some (Some (sort_by_date
                            (smart_merge (now_ms c)
                               (default [] (months existingVoucher))
                               (sort_by_date ms))))
          | None => None
          end
    | None => Some None
    end in
  match newMonths with
  | None => ret (Resp 404 "Voucher not found")
  | Some updMonths =>
      match existing with
      | None => ret (Resp 404 "Voucher not found")
      | Some _ =>
          modify (fun s =>
            set_vouchers
              (update_first (voucher_has_id oid)
                 (fun v =>
                    {| v_id := v_id v; userId := userId v;
                       v_userName := v_userName v;
                       v_rechargeDate :=
                         match vu_rechargeDate upd with
                         | Some rd => or_str rd None
                         | None => v_rechargeDate v
                         end;
                       v_expiryDate :=
                         match vu_expiryDate upd with
                         | Some ed => ed
                         | None => v_expiryDate v
                         end;
                       months :=
                         match updMonths with
                         | Some ms => Some ms
                         | None => months v
                         end;
                       v_flat := v_flat v; v_amount := v_amount v;
                       v_updatedAt := Some (now_ms c) |})
                 (vouchers s)) s) ;;
          ret (Resp 200 "Voucher updated successfully")
      end
  end.

(** The whole handler: an id that is no ObjectId string is refused first
    (line 8237). *)
Definition put_voucher (c : clock) (id : string) (upd : voucher_update)
    (s : db) : db * response :=
  match ObjectId id with
  | Some oid => catch_500 "Error updating voucher" (put_voucher_body c oid upd) s
  | None => (s, Resp 400 "Invalid voucher ID format")
  end.

(** ** The rollover job: [moveTodayExpiredToUnpaid] *)

(** [parseExpiryYMD] (lines 8709-8729).  For a dashed string the value is
    [Date.UTC(y, m, d)] shifted by five hours, which stays in the same civil
    day. *)
Definition parseExpiryYMD (e : expiry) : option ymd :=
  match e with
  | ExpAbsent => None
  | ExpDateObj ms => Some (toPKT_YMD ms)
  | ExpDashed dd mm yyyy => Some (new_Date yyyy (mm - 1) dd)
  end.

(** The store query of line 8697: the five listed statuses, service not
    inactive. *)
Definition rollover_status (u : user) : bool :=
  str_is (u_status u) "paid" || str_is (u_status u) "partial"
  || str_is (u_status u) "unpaid" || str_is (u_status u) "pending"
  || str_is (u_status u) "superbalance".

Definition is_active (u : user) : bool :=
  negb (str_is (serviceStatus u) "inactive").

Definition has_expired (today : ymd) (u : user) : bool :=
  match parseExpiryYMD (expiryDate u) with
  | Some t => isDateLTE t today
  | None => false
  end.

Definition expiredUsers (c : clock) (s : db) : list user :=
  filter (fun u => has_expired (todayYMD c) u)
    (filter (fun u => rollover_status u && is_active u) (users s)).

(** [parseDate] of the loop body (lines 8752-8761): it calls [split] on the
    stored value, which only a string has. *)
Definition parseDate (e : expiry) : M ymd :=
  match e with
  | ExpDashed dd mm yyyy => ret (new_Date yyyy (mm - 1) dd)
  | ExpDateObj _ => throw (TypeError "dateStr.split is not a function")
  | ExpAbsent => throw (TypeError "Cannot read properties of null")
  end.

(** The month appended for the cycle that just ended (lines 8803-8820). *)
Definition newMonth (c : clock) (u : user) (currentExpiryDate : ymd)
  : month_entry :=
  let monthName := month_label currentExpiryDate in
  let packageFeePerMonth := num (u_amount u) in
  let discountPerMonth := num (u_discount u) in
  let remainingAfterDiscount := Z.max 0 (packageFeePerMonth - discountPerMonth) in
  {| month := monthName;
     packageFee := Some packageFeePerMonth;
     discount := Some discountPerMonth;
     paidAmount := Some 0;
     remainingAmount := Some remainingAfterDiscount;
     status := Some "unpaid";
     paymentMethod := Some "Pending";
     receivedBy := Some "";
     paymentHistory := None;
     paymentType := Some "later";
     description := Some (monthName +:+ " - Pending Payment");
     date := Some (ms_of_ymd currentExpiryDate);
     createdAt := Some (now_ms c);
     updatedAt := None;
     refundDate := None;
     refundedAmount := None |}.

(** The subscriber after the update of lines 8788-8798. *)
Definition rolled_user (c : clock) (newExpiry : expiry) (u : user) : user :=
  {| u_id := u_id u; userName := userName u; packageName := packageName u;
     u_amount := u_amount u; u_discount := u_discount u;
     totalAmount := totalAmount u; numberOfMonths := numberOfMonths u;
     rechargeDate := rechargeDate u; expiryDate := newExpiry;
     u_status := Some "unpaid"; paymentStatus := paymentStatus u;
     serviceStatus := serviceStatus u; u_paidAmount := u_paidAmount u;
     u_remainingAmount := u_remainingAmount u;
     unpaidSince := Some (now_ms c);
     showInExpiringSoon := Some false |}.

(** [$push: { months: newMonth }, $set: { expiryDate, updatedAt }] *)
Definition push_month (c : clock) (m : month_entry) (newExpiry : expiry)
    (v : voucher) : voucher :=
  {| v_id := v_id v; userId := userId v; v_userName := v_userName v;
     v_rechargeDate := v_rechargeDate v; v_expiryDate := newExpiry;
     months := Some ((default [] (months v) ++ [m])%list);
     v_flat := v_flat v; v_amount := v_amount v;
     v_updatedAt := Some (now_ms c) |}.

(** One turn of the loop over the expired subscribers (lines 8748-8860).
    [newId] names the voucher created for a subscriber that has none. *)
Definition process_expired (c : clock) (newId : string -> string) (u : user)
  : M unit :=
  currentExpiryDate ← parseDate (expiryDate u);
  let monthName := month_label currentExpiryDate in
  let nextExpiryDate := setMonth_next currentExpiryDate in
  let newExpiryDateStr := formatDate nextExpiryDate in
  modify (fun s =>
    set_users
      (update_first (has_id (u_id u)) (rolled_user c newExpiryDateStr)
         (users s)) s) ;;
  s ← get;
  match voucher_of (u_id u) s with
  | Some userVoucher =>
      let monthExists :=
        existsb (same_label monthName) (default [] (months userVoucher)) in
      if negb monthExists then
        modify (fun s =>
          set_vouchers
            (update_first (of_user (u_id u))
               (push_month c (newMonth c u currentExpiryDate) newExpiryDateStr)
               (vouchers s)) s)
      else ret tt
  | None =>
      modify (fun s =>
        set_vouchers
          (vouchers s ++
           [{| v_id := newId (u_id u); userId := u_id u;
               v_userName := userName u;
               v_rechargeDate := rechargeDate u;
               v_expiryDate := newExpiryDateStr;
               months := Some [newMonth c u currentExpiryDate];
               v_flat := no_month; v_amount := None;
               v_updatedAt := Some (now_ms c) |}]) s)
  end.

(** The job (lines 8669-8885): gated at noon, one [try] around the whole
    loop, whose [catch] logs the error.  The result is the store together
    with the errors written to the log. *)
Definition moveTodayExpiredToUnpaid (c : clock) (newId : string -> string)
    (s : db) : db * list js_error :=
  if currentHour c <? 12 then (s, [])
  else
    match for_each (process_expired c newId) (expiredUsers c s) s with
    | (s', Done _) => (s', [])
    | (s', Thrown e) => (s', [e])
    end.

(** ** Status derivation *)

Definition set_user_totals (st : string) (ps : option string) (paid remaining : Z)
    (u : user) : user :=
  {| u_id := u_id u; userName := userName u; packageName := packageName u;
     u_amount := u_amount u; u_discount := u_discount u;
     totalAmount := totalAmount u; numberOfMonths := numberOfMonths u;
     rechargeDate := rechargeDate u; expiryDate := expiryDate u;
     u_status := Some st;
     paymentStatus := or_else ps (paymentStatus u);
     serviceStatus := serviceStatus u; u_paidAmount := Some paid;
     u_remainingAmount := Some remaining; unpaidSince := unpaidSince u;
     showInExpiringSoon := showInExpiringSoon u |}.

Definition sum_of (f : month_entry -> Z) (l : list month_entry) : Z :=
  fold_left (fun acc m => acc + f m) l 0.

Definition non_reversed (l : list month_entry) : list month_entry :=
  filter (fun m => negb (isReversed m)) l.

Definition is_unpaid (m : month_entry) : bool := str_is (status m) "unpaid".

(** *** [POST /api/users/:id/recalculate-status] *)

(** The remainder one month contributes (lines 12458-12463 and the same for
    a flat voucher, whose fee falls back to [amount]). *)
Definition monthRemaining (fee : option Z) (m : month_entry) : Z :=
  match remainingAmount m with
  | Some r => r
  | None => Z.max 0 (num fee - num (discount m) - num (paidAmount m))
  end.

(** The charges a voucher contributes: its months, or for a flat voucher its
    own top-level fields with the fee [packageFee || amount]. *)
Definition charges (v : voucher) : list (option Z * month_entry) :=
  match months v with
  | Some ms => (fun m => (packageFee m, m)) <$> ms
  | None =>
      [((if truthy_num (packageFee (v_flat v)) then packageFee (v_flat v)
         else v_amount v), v_flat v)]
  end.

Definition live_charges (vs : list voucher) : list (option Z * month_entry) :=
  filter (fun fm => negb (isReversed fm.2)) (vs ≫= charges).

Definition recalc_totalPaid (vs : list voucher) : Z :=
  fold_left (fun acc fm => acc + num (paidAmount fm.2)) (live_charges vs) 0.

Definition recalc_totalRemaining (vs : list voucher) : Z :=
  fold_left (fun acc fm => acc + monthRemaining fm.1 fm.2) (live_charges vs) 0.

Definition recalc_hasUnpaidMonth (vs : list voucher) : bool :=
  existsb (fun fm => is_unpaid fm.2) (live_charges vs).

(** Lines 12486-12496. *)
Definition calculatedStatus (vs : list voucher) : string :=
  if recalc_totalRemaining vs <=? 0 then "paid"
  else if recalc_hasUnpaidMonth vs then "unpaid"
  else if (0 <? recalc_totalPaid vs) && (0 <? recalc_totalRemaining vs)
  then "partial"
  else "unpaid".

(** The vouchers the handler reads (lines 12428-12433): those stored under
    the id as it was sent or under the subscriber's printed [_id]. *)
Definition vouchers_for (id : string) (u : user) (s : db) : list voucher :=
  filter (fun v => of_user id v || of_user (u_id u) v) (vouchers s).

(** The handler (lines 12413-12518).  [new ObjectId(userId)] throws on an id
    that is no ObjectId string, and the handler's [catch] answers 500. *)
Definition recalculate_status (id : string) (s : db) : db * response :=
  match ObjectId id with
  | None => (s, Resp 500 "Error recalculating status")
  | Some oid =>
      match user_of oid s with
      | None => (s, Resp 404 "User not found")
      | Some u =>
          match vouchers_for id u s with
          | [] =>
              (set_users
                 (update_first (has_id oid)
                    (set_user_totals "unpaid" None 0 (num (u_amount u)))
                    (users s)) s,
               Resp 200 "Status updated to unpaid (no vouchers)")
          | userVouchers =>
              (set_users
                 (update_first (has_id oid)
                    (set_user_totals (calculatedStatus userVouchers) None
                       (recalc_totalPaid userVouchers)
                       (recalc_totalRemaining userVouchers)) (users s)) s,
               Resp 200 "Status recalculated successfully")
          end
      end
  end.

(** *** The status written by [POST /api/refunds/process-payment]
    (lines 10190-10237); [hasUnpaidMonths] is computed there and not read. *)

Definition process_payment_months (vs : list voucher) : list month_entry :=
  vs ≫= (fun v => non_reversed (default [] (months v))).

Definition process_payment_status (vs : list voucher) : string :=
  let totalPaid := sum_of (fun m => num (paidAmount m)) (process_payment_months vs) in
  let totalRemaining :=
    sum_of (fun m => num (remainingAmount m)) (process_payment_months vs) in
  if (totalRemaining =? 0) && (0 <? totalPaid) then "paid"
  else if 0 <? totalPaid then "partial"
  else "unpaid".

(** ** [POST /api/vouchers/convert-to-unpaid] *)

Record convert_request := ConvertRequest {
  cr_userId : string;
  cr_month : string;
  cr_newPackageFee : option Z;
  cr_newDiscount : option Z
}.

(** The debit of lines 10313-10347: the receiver's bucket, chosen by the
    payment method, is set to [max(0, current - amount)]; without an income
    record nothing is written. *)
Definition debit_bucket (name : string) (isBankTransfer : bool) (amount : Z)
    (l : list income) : list income :=
  update_first (named name)
    (fun r =>
       if isBankTransfer then
         {| i_name := i_name r; cashIncome := cashIncome r;
            bankIncome := Some (Z.max 0 (num (bankIncome r) - amount)) |}
       else
         {| i_name := i_name r;
            cashIncome := Some (Z.max 0 (num (cashIncome r) - amount));
            bankIncome := bankIncome r |}) l.

Definition is_bank_method (paymentMethod : string) : bool :=
  includes "bank" (toLowerCase paymentMethod).

(** The month written back (lines 10351-10363). *)
Definition converted_month (now : Z) (fee disc : Z) (monthData : month_entry)
  : month_entry :=
  {| month := month monthData;
     packageFee := Some fee;
     discount := Some disc;
     paidAmount := Some 0;
     remainingAmount := Some (fee - disc);
     status := Some "unpaid";
     paymentMethod := Some "";
     receivedBy := Some "";
     paymentHistory := Some [];
     paymentType := paymentType monthData;
     description := description monthData;
     date := date monthData;
     createdAt := createdAt monthData;
     updatedAt := updatedAt monthData;
     refundDate := Some now;
     refundedAmount := Some (num (paidAmount monthData)) |}.

(** Lines 10385-10404. *)
Definition convert_newStatus (updatedMonths : list month_entry) : string :=
  let nonReversedMonths := non_reversed updatedMonths in
  let totalPaid := sum_of (fun m => num (paidAmount m)) nonReversedMonths in
  let totalRemaining := sum_of (fun m => num (remainingAmount m)) nonReversedMonths in
  if existsb is_unpaid nonReversedMonths then "unpaid"
  else if (totalRemaining =? 0) && (0 <? totalPaid) then "paid"
  else if 0 <? totalPaid then "partial"
  else "unpaid".

Definition set_voucher_months (ms : list month_entry) (v : voucher) : voucher :=
  {| v_id := v_id v; userId := userId v; v_userName := v_userName v;
     v_rechargeDate := v_rechargeDate v; v_expiryDate := v_expiryDate v;
     months := Some ms; v_flat := v_flat v; v_amount := v_amount v;
     v_updatedAt := v_updatedAt v |}.

(** The handler (lines 10260-10438).  The income and the voucher are written
    first; the subscriber is then addressed by [new ObjectId(userId)], which
    throws on an id that is no ObjectId string: the handler's [catch]
    answers 500 and the two writes stand. *)
Definition convert_to_unpaid (c : clock) (rq : convert_request) (s : db)
  : db * response :=
  if String.eqb (cr_userId rq) "" || String.eqb (cr_month rq) ""
  then (s, Resp 400 "userId and month are required")
  else
    match voucher_of (cr_userId rq) s with
    | None => (s, Resp 404 "Voucher not found for this user")
    | Some voucher =>
        match months voucher with
        | None => (s, Resp 404 "Month not found in voucher")
        | Some voucherMonths =>
            match findIndex (cr_month rq) voucherMonths with
            | None => (s, Resp 404 "Month not found in voucher")
            | Some monthIndex =>
                let monthData := default no_month (voucherMonths !! monthIndex) in
                let fee := match cr_newPackageFee rq with
                           | Some f => f
                           | None => num (packageFee monthData)
                           end in
                let disc := match cr_newDiscount rq with
                            | Some d => d
                            | None => num (discount monthData)
                            end in
                let refunded := num (paidAmount monthData) in
                let receiver := default "" (or_str (receivedBy monthData) None) in
                let method := default "Cash" (or_str (paymentMethod monthData) None) in
                let incomes1 :=
                  if (0 <? refunded) && negb (String.eqb receiver "")
                  then debit_bucket receiver (is_bank_method method) refunded
                         (incomes s)
                  else incomes s in
                let updatedMonths :=
                  <[monthIndex := converted_month (now_ms c) fee disc monthData]>
                    voucherMonths in
                let nonReversedMonths := non_reversed updatedMonths in
                let totalPaid :=
                  sum_of (fun m => num (paidAmount m)) nonReversedMonths in
                let totalRemaining :=
                  sum_of (fun m => num (remainingAmount m)) nonReversedMonths in
                let newStatus := convert_newStatus updatedMonths in
                let vouchers1 :=
                  update_first (voucher_has_id (v_id voucher))
                    (set_voucher_months updatedMonths) (vouchers s) in
                match ObjectId (cr_userId rq) with
                | Some oid =>
                    ({| users :=
                          update_first (has_id oid)
                            (set_user_totals newStatus (Some newStatus)
                               totalPaid totalRemaining) (users s);
                        vouchers := vouchers1;
                        incomes := incomes1;
                        collections := collections s |},
                     Resp 200 ("Month " +:+ cr_month rq
                               +:+ " successfully converted to unpaid"))
                | None =>
                    ({| users := users s;
                        vouchers := vouchers1;
                        incomes := incomes1;
                        collections := collections s |},
                     Resp 500 "Error converting month to unpaid")
                end
            end
        end
    end.

(** ** [DELETE /api/users/:id]: the income deductions *)

(** [incomeDeductions]: receiver, cash amount, bank amount, in insertion
    order. *)
Definition deductions := list (string * (Z * Z)).

Fixpoint add_deduction (receiver : string) (cash bank : Z) (ds : deductions)
  : deductions :=
  match ds with
  | [] => [(receiver, (cash, bank))]
  | (r, (c0, b0)) :: rest =>
      if String.eqb r receiver then (r, (c0 + cash, b0 + bank)) :: rest
      else (r, (c0, b0)) :: add_deduction receiver cash bank rest
  end.

Definition method_of (x : option string) : string :=
  toLowerCase (trim (default "" (or_str x None))).

(** The deductions of one month (lines 3945-3998). *)
Definition month_deductions (m : month_entry) (ds : deductions) : deductions :=
  if str_is (status m) "reversed" || isReversed m then ds
  else
    match default [] (paymentHistory m) with
    | [] =>
        if truthy_str (receivedBy m)
           && (str_is (status m) "paid" || str_is (status m) "partial")
        then
          let amount := num (paidAmount m) in
          if 0 <? amount then
            if String.eqb (method_of (paymentMethod m)) "bank transfer"
            then add_deduction (default "" (receivedBy m)) 0 amount ds
            else add_deduction (default "" (receivedBy m)) amount 0 ds
          else ds
        else ds
    | history =>
        fold_left
          (fun acc p =>
             let receiver := default "Admin" (or_str (pay_receivedBy p) None) in
             if 0 <? pay_amount p then
               if String.eqb (method_of (pay_paymentMethod p)) "cash"
               then add_deduction receiver (pay_amount p) 0 acc
               else if String.eqb (method_of (pay_paymentMethod p)) "bank transfer"
               then add_deduction receiver 0 (pay_amount p) acc
               else add_deduction receiver 0 0 acc
             else acc)
          history ds
    end.

Definition incomeDeductions (vs : list voucher) : deductions :=
  fold_left (fun acc m => month_deductions m acc)
    (vs ≫= (fun v => default [] (months v))) [].

(** The write of lines 4003-4036 for one receiver: both buckets are set to
    [max(0, current - deduction)] on the first record whose name matches
    case-insensitively. *)
Definition apply_deduction (l : list income) (d : string * (Z * Z))
  : list income :=
  let '(receiver, (cash, bank)) := d in
  if (0 <? cash) || (0 <? bank) then
    update_first (fun r => name_matches_ci (trim receiver) (i_name r))
      (fun r =>
         {| i_name := i_name r;
            cashIncome := Some (Z.max 0 (num (cashIncome r) - cash));
            bankIncome := Some (Z.max 0 (num (bankIncome r) - bank)) |}) l
  else l.

(** The handler (lines 3924-4065).  An id that is no ObjectId string is
    refused before anything is read.  The vouchers are selected by the
    [userId] string as it was sent, the subscriber by the ObjectId built from
    it ([_id] is unique, so [deleteOne] removes every document it
    matches). *)
Definition delete_user (id : string) (s : db) : db * response :=
  match ObjectId id with
  | None => (s, Resp 400 "Invalid user ID format")
  | Some oid =>
      let userVouchers := filter (fun v => of_user id v) (vouchers s) in
      let incomes1 :=
        fold_left apply_deduction (incomeDeductions userVouchers) (incomes s) in
      let vouchers1 := filter (fun v => negb (of_user id v)) (vouchers s) in
      match user_of oid s with
      | Some _ =>
          ({| users := filter (fun u => negb (has_id oid u)) (users s);
              vouchers := vouchers1; incomes := incomes1;
              collections := collections s |},
           Resp 200 "User, vouchers, and income adjustments completed successfully")
      | None =>
          ({| users := users s; vouchers := vouchers1; incomes := incomes1;
              collections := collections s |},
           Resp 404 "User not found")
      end
  end.

(** ** [POST /api/collections/transfer] *)

Record transfer_request := TransferRequest {
  tr_feeCollector : string;
  tr_amount : Z;
  tr_message : string
}.

(** What the vouchers attribute to a collector (lines 11155-11173). *)
Definition collected_in_month (fc : string) (m : month_entry) : Z :=
  if str_is (status m) "paid" || str_is (status m) "partial" then
    match default [] (paymentHistory m) with
    | [] =>
        if truthy_str (receivedBy m)
           && String.eqb (toLowerCase (default "" (receivedBy m)))
                (toLowerCase (trim fc))
        then num (paidAmount m) else 0
    | history =>
        fold_left
          (fun acc p =>
             if truthy_str (pay_receivedBy p)
                && String.eqb (toLowerCase (default "" (pay_receivedBy p)))
                     (toLowerCase (trim fc))
             then acc + pay_amount p else acc)
          history 0
    end
  else 0.

(** What the engine makes of [new RegExp('^' + source + '$', 'i')]: [None]
    when the constructor throws a [SyntaxError], otherwise the test the
    expression performs on a name.  The handler below calls it with a name
    it has not escaped, so the name's own characters are read as a pattern;
    the engine is not part of the sources and stays a parameter. *)
Definition regexp : Type := string -> option (string -> bool).




(** The loop over all vouchers (lines 11155-11173). *)
Definition collected_by (fc : string) (s : db) : Z :=
  fold_left (fun acc m => acc + collected_in_month fc m)
    (vouchers s ≫= (fun v => default [] (months v))) 0.

(** The earlier transfers the expression selects, added up (lines
    11176-11183). *)
Definition transferred_by (test : string -> bool) (s : db) : Z :=
  fold_left (fun acc t => acc + t_amount t)
    (filter (fun t => test (t_feeCollector t)) (collections s)) 0.

(** The collector's available income (lines 11146-11186): the stored cash
    total, or, when that is zero, the amount recomputed from the vouchers
    less the earlier transfers, which are selected by the unescaped
    expression; [None] when building the expression throws. *)
Definition available_income (re : regexp) (fc : string) (s : db) : option Z :=
  let stored :=
    match find_first (named (trim fc)) (incomes s) with
    | Some r => num (cashIncome r)
    | None => 0
    end in
  if stored =? 0 then
    match re (trim fc) with
    | Some test => Some (collected_by fc s - transferred_by test s)
    | None => None
    end
  else Some stored.

Definition inc_cash (amount : Z) (r : income) : income :=
  {| i_name := i_name r; cashIncome := Some (num (cashIncome r) + amount);
     bankIncome := bankIncome r |}.

Definition transfer_money (re : regexp) (rq : transfer_request) (s : db)
  : db * response :=
  if String.eqb (tr_feeCollector rq) "" || (tr_amount rq =? 0)
  then (s, Resp 400 "Fee collector name and amount are required")
  else if tr_amount rq <=? 0 then (s, Resp 400 "Invalid amount")
  else
  match available_income re (tr_feeCollector rq) s with
  | None => (s, Resp 500 "Error transferring money")
  | Some currentIncome =>
  if currentIncome <? tr_amount rq
  then (s, Resp 400 ("Insufficient income. Available: Rs" +:+ pretty currentIncome
                     +:+ ", Requested: Rs" +:+ pretty (tr_amount rq)))
  else
    let fc := trim (tr_feeCollector rq) in
    let collections1 :=
      (collections s ++ [{| t_feeCollector := fc; t_amount := tr_amount rq;
                            t_message := trim (tr_message rq) |}])%list in
    let incomes1 :=
      if existsb (fun r => name_matches_ci fc (i_name r)) (incomes s)
      then update_first (fun r => name_matches_ci fc (i_name r))
             (inc_cash (- tr_amount rq)) (incomes s)
      else (incomes s ++ [{| i_name := fc; cashIncome := Some (- tr_amount rq);
                             bankIncome := None |}])%list in
    let incomes2 :=
      if existsb (fun r => name_matches_ci "Admin" (i_name r)) incomes1
      then update_first (fun r => name_matches_ci "Admin" (i_name r))
             (inc_cash (tr_amount rq)) incomes1
      else (incomes1 ++ [{| i_name := "Admin"; cashIncome := Some (tr_amount rq);
                            bankIncome := None |}])%list in
    ({| users := users s; vouchers := vouchers s; incomes := incomes2;
        collections := collections1 |},
     Resp 200 "Money transferred successfully")
  end.

(** ** Auxiliary notions used to state the properties *)

(** The store after one completed turn of the rollover loop for a subscriber
    whose expiry is the dashed date [dd-mm-yyyy]. *)
Definition rollover_step (c : clock) (newId : string -> string) (u : user)
    (dd mm yyyy : Z) (s : db) : db :=
  let currentExpiryDate := new_Date yyyy (mm - 1) dd in
  let monthName := month_label currentExpiryDate in
  let newExpiryDateStr := formatDate (setMonth_next currentExpiryDate) in
  let s1 :=
    set_users
      (update_first (has_id (u_id u)) (rolled_user c newExpiryDateStr) (users s))
      s in
  match voucher_of (u_id u) s1 with
  | Some userVoucher =>
      if existsb (same_label monthName) (default [] (months userVoucher))
      then s1
      else
        set_vouchers
          (update_first (of_user (u_id u))
             (push_month c (newMonth c u currentExpiryDate) newExpiryDateStr)
             (vouchers s1)) s1
  | None =>
      set_vouchers
        (vouchers s1 ++
         [{| v_id := newId (u_id u); userId := u_id u;
             v_userName := userName u;
             v_rechargeDate := rechargeDate u;
             v_expiryDate := newExpiryDateStr;
             months := Some [newMonth c u currentExpiryDate];
             v_flat := no_month; v_amount := None;
             v_updatedAt := Some (now_ms c) |}]) s1
  end.

(** A subscriber whose stored expiry is a dashed string. *)
Definition dashed (u : user) : Prop :=
  exists dd mm yyyy, expiryDate u = ExpDashed dd mm yyyy.

(** The effect of one turn on the store: the completed step for a dashed
    expiry, nothing otherwise (the turn throws before its first write). *)
Definition turn (c : clock) (newId : string -> string) (s : db) (u : user)
  : db :=
  match expiryDate u with
  | ExpDashed dd mm yyyy => rollover_step c newId u dd mm yyyy s
  | _ => s
  end.

(** The voucher a subscriber has after its turn of the rollover loop. *)
Definition voucher_after (c : clock) (newId : string -> string) (u : user)
    (dd mm yyyy : Z) (before : option voucher) : voucher :=
  let cur := new_Date yyyy (mm - 1) dd in
  let newExp := formatDate (setMonth_next cur) in
  match before with
  | Some v =>
      if existsb (same_label (month_label cur)) (default [] (months v))
      then v
      else push_month c (newMonth c u cur) newExp v
  | None =>
      {| v_id := newId (u_id u); userId := u_id u;
         v_userName := userName u;
         v_rechargeDate := rechargeDate u;
         v_expiryDate := newExp;
         months := Some [newMonth c u cur];
         v_flat := no_month; v_amount := None;
         v_updatedAt := Some (now_ms c) |}
  end.

(** A civil date in normal form: month index 0..11 and a day the month
    has. *)
Definition in_range (t : ymd) : Prop :=
  0 <= ymd_m t <= 11 /\ 1 <= ymd_d t <= days_in_month (ymd_y t) (ymd_m t).

(** A civil date in range: a year the [Date] constructor does not remap, a
    month 1..12 and a day that exists in it. *)
Definition valid_dmy (dd mm yyyy : Z) : Prop :=
  100 <= yyyy /\ 1 <= mm <= 12 /\ 1 <= dd <= days_in_month yyyy (mm - 1).

(** The month that follows [mm] (1-based) of [yyyy], as year and 1-based
    month. *)
Definition following_month (mm yyyy : Z) : Z * Z :=
  if mm =? 12 then (yyyy + 1, 1) else (yyyy, mm + 1).

(** The remainder invariant of a month entry. *)
Definition remaining_ok (m : month_entry) : Prop :=
  remainingAmount m
  = Some (Z.max 0 (num (packageFee m) - num (discount m) - num (paidAmount m))).


(** The months a handler leaves in the subscriber's voucher. *)
Definition months_of (id : string) (s : db) : list month_entry :=
  match voucher_of id s with
  | Some v => default [] (months v)
  | None => []
  end.

(** Sample documents: noon of 3 November 2025 in Pakistan, and a subscriber
    whose cycle ends that day. *)
Definition noon_3_nov_2025 : clock := Clock 1762153200000.

Definition sample_user (id name : string) (st : string) (e : expiry) : user :=
  {| u_id := id; userName := name; packageName := Some "10 MB";
     u_amount := Some 1500; u_discount := Some 0; totalAmount := Some 1500;
     numberOfMonths := Some 1; rechargeDate := Some "03-10-2025";
     expiryDate := e; u_status := Some st; paymentStatus := None;
     serviceStatus := Some "active"; u_paidAmount := Some 1500;
     u_remainingAmount := Some 0; unpaidSince := None;
     showInExpiringSoon := Some true |}.

(** A voucher with a paid October and a superbalance November of the given
    fee and discount, and a request that pays nothing new but resubmits the
    paid month. *)
Definition sample_paid_month : month_entry :=
  {| month := "October 2025"; packageFee := Some 1500; discount := Some 0;
     paidAmount := Some 1500; remainingAmount := Some 0;
     status := Some "paid"; paymentMethod := Some "Cash";
     receivedBy := Some "Ali"; paymentHistory := None;
     paymentType := Some "now"; description := None;
     date := Some 1759449600000; createdAt := Some 1759449600000;
     updatedAt := None; refundDate := None; refundedAmount := None |}.

Definition sample_superbalance_voucher (fee disc : Z) : voucher :=
  {| v_id := "66b1b2c3d4e5f60718293a4b"; userId := "65a1b2c3d4e5f60718293a4b"; v_userName := "Aamir";
     v_rechargeDate := Some "03-10-2025"; v_expiryDate := ExpDashed 3 12 2025;
     months :=
       Some [{| month := "November 2025"; packageFee := Some fee;
                discount := Some disc; paidAmount := Some 0;
                remainingAmount := Some (Z.max 0 (fee - disc));
                status := Some "superbalance"; paymentMethod := Some "Pending";
                receivedBy := Some ""; paymentHistory := None;
                paymentType := Some "later"; description := None;
                date := Some 1762128000000; createdAt := Some 1762128000000;
                updatedAt := None; refundDate := None; refundedAmount := None |};
             sample_paid_month];
     v_flat := no_month; v_amount := None; v_updatedAt := None |}.

Definition sample_next_month_request : voucher_request :=
  {| vr_userId := "65a1b2c3d4e5f60718293a4b"; vr_userName := "Aamir"; vr_rechargeDate := None;
     vr_expiryDate := ExpAbsent;
     vr_months :=
       Some [{| month := "October 2025"; packageFee := None; discount := None;
                paidAmount := None; remainingAmount := None;
                status := None; paymentMethod := None; receivedBy := None;
                paymentHistory := None; paymentType := None;
                description := None; date := None; createdAt := None;
                updatedAt := None; refundDate := None;
                refundedAmount := None |}];
     vr_month := None; vr_packageFee := None; vr_discount := None;
     vr_paidAmount := None; vr_remainingAmount := None;
     vr_paymentMethod := None; vr_receivedBy := None; vr_paymentType := None;
     vr_status := None; vr_date := None; vr_description := None |}.

(** The order the final sort establishes. *)
Definition by_key (key : month_entry -> Z) (a b : month_entry) : Prop :=
  key a <= key b.

(** The month the rollover opens for a fee and a discount, and a voucher
    holding it after a paid October. *)
Definition sample_unpaid_month (fee disc : Z) : month_entry :=
  {| month := "November 2025"; packageFee := Some fee; discount := Some disc;
     paidAmount := Some 0; remainingAmount := Some (Z.max 0 (fee - disc));
     status := Some "unpaid"; paymentMethod := Some "Pending";
     receivedBy := Some ""; paymentHistory := None;
     paymentType := Some "later"; description := None;
     date := Some 1762128000000; createdAt := Some 1762128000000;
     updatedAt := None; refundDate := None; refundedAmount := None |}.

Definition sample_open_voucher (fee disc : Z) : voucher :=
  {| v_id := "66b1b2c3d4e5f60718293a4b"; userId := "65a1b2c3d4e5f60718293a4b"; v_userName := "Aamir";
     v_rechargeDate := Some "03-10-2025"; v_expiryDate := ExpDashed 3 12 2025;
     months := Some [sample_paid_month; sample_unpaid_month fee disc];
     v_flat := no_month; v_amount := None; v_updatedAt := None |}.

(** The re-payment request: the month resubmitted as paid in full to the
    same receiver, either in the old form (receiver on the month) or with a
    one-item payment history. *)
Definition repays (incoming m : month_entry) (p : Z) (r : string) : Prop :=
  month incoming = month m
  /\ paidAmount incoming = Some p
  /\ status incoming = Some "paid"
  /\ receivedBy incoming = Some r
  /\ (paymentHistory incoming = None
      \/ exists pm, paymentHistory incoming = Some [Payment p (Some r) pm]).

(** The paid October resubmitted as paid in full to the same receiver. *)
Definition sample_repaid_month : month_entry :=
  {| month := "October 2025"; packageFee := Some 1500; discount := Some 0;
     paidAmount := Some 1500; remainingAmount := Some 0;
     status := Some "paid"; paymentMethod := Some "Cash";
     receivedBy := Some "Ali"; paymentHistory := None;
     paymentType := Some "now"; description := None;
     date := Some 1759449600000; createdAt := None;
     updatedAt := None; refundDate := None; refundedAmount := None |}.

Definition sample_repay_request : voucher_request :=
  {| vr_userId := "65a1b2c3d4e5f60718293a4b"; vr_userName := "Aamir"; vr_rechargeDate := None;
     vr_expiryDate := ExpAbsent;
     vr_months := Some [sample_repaid_month];
     vr_month := None; vr_packageFee := None; vr_discount := None;
     vr_paidAmount := None; vr_remainingAmount := None;
     vr_paymentMethod := None; vr_receivedBy := None; vr_paymentType := None;
     vr_status := None; vr_date := None; vr_description := None |}.

(** A voucher whose October and November are both paid. *)
Definition sample_paid_voucher : voucher :=
  {| v_id := "66b1b2c3d4e5f60718293a4b"; userId := "65a1b2c3d4e5f60718293a4b";
     v_userName := "Aamir";
     v_rechargeDate := Some "03-10-2025"; v_expiryDate := ExpDashed 3 12 2025;
     months :=
       Some [sample_paid_month;
             {| month := "November 2025"; packageFee := Some 1500;
                discount := Some 0; paidAmount := Some 1500;
                remainingAmount := Some 0; status := Some "paid";
                paymentMethod := Some "Cash"; receivedBy := Some "Ali";
                paymentHistory := None; paymentType := Some "now";
                description := None; date := Some 1762128000000;
                createdAt := Some 1762128000000; updatedAt := None;
                refundDate := None; refundedAmount := None |}];
     v_flat := no_month; v_amount := None; v_updatedAt := None |}.

(** ** More of the scheduler and of the ledgers *)

(** *** [checkTomorrowExpiringUsers] (lines 8519-8614) *)

Definition set_flag (b : bool) (u : user) : user :=
  {| u_id := u_id u; userName := userName u; packageName := packageName u;
     u_amount := u_amount u; u_discount := u_discount u;
     totalAmount := totalAmount u; numberOfMonths := numberOfMonths u;
     rechargeDate := rechargeDate u; expiryDate := expiryDate u;
     u_status := u_status u; paymentStatus := paymentStatus u;
     serviceStatus := serviceStatus u; u_paidAmount := u_paidAmount u;
     u_remainingAmount := u_remainingAmount u; unpaidSince := unpaidSince u;
     showInExpiringSoon := Some b |}.

(** [new Date(Date.UTC(todayY, todayM, todayD + 1))] *)
Definition tomorrowYMD (c : clock) : ymd :=
  new_Date (ymd_y (todayYMD c)) (ymd_m (todayYMD c)) (ymd_d (todayYMD c) + 1).

Definition expires_on (day : ymd) (u : user) : bool :=
  match parseExpiryYMD (expiryDate u) with
  | Some t => ymd_eqb t day
  | None => false
  end.

Definition expiringTomorrowUsers (c : clock) (s : db) : list user :=
  filter (fun u => expires_on (tomorrowYMD c) u)
    (filter (fun u => rollover_status u && is_active u) (users s)).

(** The job: gated at noon; every selected subscriber gets the flag, nothing
    else is written. *)
Definition checkTomorrowExpiringUsers (c : clock) (s : db) : db :=
  if currentHour c <? 12 then s
  else
    fold_left
      (fun acc u =>
         set_users (update_first (has_id (u_id u)) (set_flag true) (users acc)) acc)
      (expiringTomorrowUsers c s) s.

(** [handleExpiryProcessing] (lines 8907-8925): the rollover, then the
    flagging, then the answer. *)
Definition handleExpiryProcessing (c : clock) (newId : string -> string)
    (s : db) : db * list js_error * response :=
  let '(s1, logged) := moveTodayExpiredToUnpaid c newId s in
  (checkTomorrowExpiringUsers c s1, logged,
   Resp 200 "Expiry processing executed successfully").

(** *** [POST /api/cron/reset-monthly-income] (lines 10836-10928) *)

(** [new Date(currentYear, currentMonth + 1, 0).getDate()] *)
Definition lastDayOfMonth (today : ymd) : Z :=
  ymd_d (new_Date (ymd_y today) (ymd_m today + 1) 0).

Definition reset_income (r : income) : income :=
  {| i_name := i_name r; cashIncome := Some 0; bankIncome := Some 0 |}.

(** The date the handler reads (lines 10840-10847): the instant is shifted
    by five hours and then read with the local getters [getDate],
    [getMonth] and [getFullYear], which add the offset of the server's own
    zone; [zone] is that offset in minutes east of UTC. *)
Definition reset_date (zone : Z) (c : clock) : ymd :=
  ymd_of_ms (now_ms c + PKT_OFFSET_MIN * 60000 + zone * 60000).

Definition reset_monthly_income (zone : Z) (c : clock) (s : db)
  : db * response :=
  if ymd_d (reset_date zone c) =? lastDayOfMonth (reset_date zone c)
  then (set_incomes (reset_income <$> incomes s) s,
        Resp 200 "Monthly income reset completed successfully")
  else (s, Resp 200 "Not the last day of month - reset skipped").

(** *** [POST /api/incomes] (lines 11768-11845) *)

Record income_request := IncomeRequest {
  ir_receivedBy : string;
  ir_amount : Z;
  ir_paymentMethod : option string
}.

Definition inc_bank (amount : Z) (r : income) : income :=
  {| i_name := i_name r; cashIncome := cashIncome r;
     bankIncome := Some (num (bankIncome r) + amount) |}.

(** The bucket the handler picks: the bank total only for Admin (or
    ['myself']) and a method other than cash. *)
Definition income_to_bank (rq : income_request) : bool :=
  let name := toLowerCase (trim (ir_receivedBy rq)) in
  let isAdmin := String.eqb name "admin" || String.eqb name "myself" in
  let isCash :=
    negb (truthy_str (ir_paymentMethod rq))
    || str_is (ir_paymentMethod rq) "Cash" || str_is (ir_paymentMethod rq) "cash" in
  isAdmin && negb isCash.

Definition add_income (rq : income_request) (s : db) : db * response :=
  if String.eqb (ir_receivedBy rq) "" || (ir_amount rq <=? 0)
  then (s, Resp 400 "receivedBy and valid amount are required")
  else
    let receivedByTrimmed := trim (ir_receivedBy rq) in
    let matches := fun r => name_matches_ci receivedByTrimmed (i_name r) in
    let toBank := income_to_bank rq in
    (set_incomes
       (if existsb matches (incomes s)
        then update_first matches
               (if toBank then inc_bank (ir_amount rq) else inc_cash (ir_amount rq))
               (incomes s)
        else incomes s ++
             [{| i_name := receivedByTrimmed;
                 cashIncome := Some (if toBank then 0 else ir_amount rq);
                 bankIncome := Some (if toBank then ir_amount rq else 0) |}]) s,
     Resp 200 "Income updated successfully").

(** *** [POST /api/incomes/update] (lines 11848-11905) *)

Definition update_income (name : string) (cash : option Z) (s : db)
  : db * response :=
  if String.eqb name "" then (s, Resp 400 "Name is required")
  else
    let incomeValue := num cash in
    (set_incomes
       (if existsb (named name) (incomes s)
        then update_first (named name)
               (fun r => {| i_name := i_name r; cashIncome := Some incomeValue;
                            bankIncome := bankIncome r |}) (incomes s)
        else incomes s ++
             [{| i_name := name; cashIncome := Some incomeValue;
                 bankIncome := Some 0 |}]) s,
     Resp 200 ("Income updated to Rs " +:+ pretty incomeValue +:+ " for " +:+ name)).

(** *** [POST /api/incomes/sync] (lines 11908-12028) *)

(** [incomeMap]: receiver and accumulated amount, in insertion order (the
    order of [Object.entries] for receiver names that are not array
    indices). *)
Fixpoint add_to_map (receiver : string) (amount : Z) (m : list (string * Z))
  : list (string * Z) :=
  match m with
  | [] => [(receiver, amount)]
  | (r, a) :: rest =>
      if String.eqb r receiver then (r, a + amount) :: rest
      else (r, a) :: add_to_map receiver amount rest
  end.

Definition sync_month (m : month_entry) (acc : list (string * Z))
  : list (string * Z) :=
  if str_is (status m) "paid" || str_is (status m) "partial" then
    match default [] (paymentHistory m) with
    | [] =>
        if truthy_str (receivedBy m) then
          if 0 <? num (paidAmount m)
          then add_to_map (default "" (receivedBy m)) (num (paidAmount m)) acc
          else acc
        else acc
    | history =>
        fold_left
          (fun acc p =>
             if 0 <? pay_amount p
             then add_to_map (default "Admin" (or_str (pay_receivedBy p) None))
                    (pay_amount p) acc
             else acc)
          history acc
    end
  else acc.

Definition incomeMap (vs : list voucher) : list (string * Z) :=
  fold_left (fun acc m => sync_month m acc)
    (vs ≫= (fun v => default [] (months v))) [].

Definition incomeRecords (vs : list voucher) : list income :=
  (fun e : string * Z =>
     {| i_name := e.1; cashIncome := Some e.2; bankIncome := None |})
  <$> incomeMap vs.

(** The replay of one transfer (lines 11979-12004): the collector's record is
    debited when there is one, Admin's is credited or created. *)
Definition sync_transfer (l : list income) (t : transfer) : list income :=
  let feeCollector := trim (t_feeCollector t) in
  if negb (String.eqb feeCollector "") && (0 <? t_amount t) then
    credit_cash "Admin" (t_amount t)
      (update_first (named feeCollector) (inc_cash (- t_amount t)) l)
  else l.

Definition sync_incomes (s : db) : db * response :=
  (set_incomes (fold_left sync_transfer (collections s) (incomeRecords (vouchers s))) s,
   Resp 200 "Income sync completed successfully").

(** Totals over the income ledger. *)
Definition total_cash (l : list income) : Z :=
  fold_right (fun r acc => num (cashIncome r) + acc) 0 l.

Definition total_bank (l : list income) : Z :=
  fold_right (fun r acc => num (bankIncome r) + acc) 0 l.

(** What one posted month brings in (the amounts [credit_month] books). *)
Definition month_credit (m : month_entry) : Z :=
  if str_is (status m) "paid" || str_is (status m) "partial" then
    match default [] (paymentHistory m) with
    | [] =>
        if truthy_str (receivedBy m) then Z.max 0 (num (paidAmount m)) else 0
    | history =>
        fold_right (fun p acc => Z.max 0 (pay_amount p) + acc) 0 history
    end
  else 0.

(** A list of vouchers that only grew: every voucher is still at its place,
    with its id and owner, and its months are a prefix of what it holds
    now. *)
Definition grows (vs vs' : list voucher) : Prop :=
  forall i v,
    vs !! i = Some v ->
    exists v',
      vs' !! i = Some v'
      /\ v_id v' = v_id v /\ userId v' = userId v
      /\ default [] (months v) `prefix_of` default [] (months v').

(** The month after the (zero-based) month [m] of [y], twice. *)
Definition month_after_next (y m : Z) : Z * Z :=
  next_month (next_month y m).1 (next_month y m).2.


(** What the flagging job does to one subscriber. *)
Definition flag_if_due (c : clock) (u : user) : user :=
  if (12 <=? currentHour c) && rollover_status u && is_active u
     && expires_on (tomorrowYMD c) u
  then set_flag true u else u.


(** The record [insertMany] writes for one entry of [incomeMap]. *)
Definition income_record (e : string * Z) : income :=
  {| i_name := e.1; cashIncome := Some e.2; bankIncome := None |}.

(** Every month of every voucher, in store order. *)
Definition all_months (vs : list voucher) : list month_entry :=
  vs ≫= (fun v => default [] (months v)).

(** The labels of a list of months, in order. *)
Definition labels (ms : list month_entry) : list string := month <$> ms.
(** * Properties *)

(** ** Lists as collections *)

Section collections.
Context {A : Type}.
Implicit Types (p q : A -> bool) (f : A -> A) (l : list A).

Lemma find_update_first_same p f l :
  (forall x, p x = true -> p (f x) = true) ->
  find_first p (update_first p f l) = f <$> find_first p l.
Proof.
  intros Hp. unfold find_first.
  induction l as [|x r IH]; simpl; [done|].
  destruct (p x) eqn:E; simpl.
  - by rewrite (Hp x E).
  - by rewrite E.
Qed.

Lemma find_update_first_other p q f l :
  (forall x, q x = true -> p x = false) ->
  (forall x, q x = true -> p (f x) = false) ->
  find_first p (update_first q f l) = find_first p l.
Proof.
  intros Hq Hf. unfold find_first.
  induction l as [|x r IH]; simpl; [done|].
  destruct (q x) eqn:E; simpl.
  - by rewrite (Hq x E), (Hf x E).
  - by rewrite IH.
Qed.

Lemma find_first_app_none p l x :
  p x = false -> find_first p (l ++ [x]) = find_first p l.
Proof.
  intros Hx. unfold find_first.
  induction l as [|y r IH]; simpl; [by rewrite Hx|].
  by destruct (p y).
Qed.

Lemma find_first_app_new p l x :
  find_first p l = None -> p x = true -> find_first p (l ++ [x]) = Some x.
Proof.
  unfold find_first. intros Hn Hx.
  induction l as [|y r IH]; simpl in *; [by rewrite Hx|].
  destruct (p y); [done|auto].
Qed.

Lemma update_first_none p f l :
  find_first p l = None -> update_first p f l = l.
Proof.
  unfold find_first.
  induction l as [|x r IH]; simpl; [done|].
  destruct (p x); [done|]. intros H. by rewrite IH.
Qed.

Lemma update_first_fmap {B} (g : A -> B) p f l :
  (forall x, g (f x) = g x) -> g <$> update_first p f l = g <$> l.
Proof.
  intros Hg. induction l as [|x r IH]; [done|].
  cbn [update_first].
  destruct (p x); rewrite !fmap_cons; [by rewrite Hg|by rewrite IH].
Qed.

Lemma update_first_Forall (P : A -> Prop) p f l :
  (forall x, P x -> P (f x)) -> Forall P l -> Forall P (update_first p f l).
Proof.
  intros Hf. induction 1 as [|x r Hx Hr IH]; simpl; [constructor|].
  destruct (p x); constructor; auto.
Qed.

Lemma find_first_elem p l x :
  find_first p l = Some x -> x ∈ l /\ p x = true.
Proof.
  unfold find_first. intros H. apply find_some in H as [H1 H2].
  split; [by apply list_elem_of_In|done].
Qed.
End collections.

Lemma has_id_true id u : has_id id u = true <-> u_id u = id.
Proof. unfold has_id. apply String.eqb_eq. Qed.

Lemma has_id_false id u : has_id id u = false <-> u_id u <> id.
Proof. unfold has_id. apply String.eqb_neq. Qed.

Lemma of_user_true id v : of_user id v = true <-> userId v = id.
Proof. unfold of_user. apply String.eqb_eq. Qed.

Lemma of_user_false id v : of_user id v = false <-> userId v <> id.
Proof. unfold of_user. apply String.eqb_neq. Qed.

(** A stored subscriber is the one [findOne] returns for its id when ids
    are unique. *)
Lemma user_of_unique (us : list user) (u : user) :
  NoDup (u_id <$> us) -> u ∈ us -> find_first (has_id (u_id u)) us = Some u.
Proof.
  unfold find_first.
  induction us as [|x r IH]; intros Hnd Hin; [by apply elem_of_nil in Hin|].
  simpl in *. apply NoDup_cons in Hnd as [Hx Hr].
  apply elem_of_cons in Hin as [->|Hin].
  - assert (has_id (u_id x) x = true) as -> by by apply has_id_true.
    done.
  - assert (has_id (u_id u) x = false) as ->.
    { apply has_id_false. intros E. apply Hx. rewrite E.
      apply list_elem_of_fmap. eauto. }
    auto.
Qed.

(** ** Subscriber creation *)

(** C6.  A creation request that carries a name inserts exactly one
    subscriber.  Its status is ['pending'] when pending is requested
    explicitly; otherwise, for payment type ['now'], it is ['paid'] for one
    month and ['partial'] for more than one, with a paid amount of one month's
    fee after discount; otherwise, for payment type ['later'], it is
    ['unpaid'], whatever the expiry date and the clock are. *)
Theorem creation_status (c : clock) (newId name : string) (rq : user_request)
    (s : db) :
  rq_userName rq = Some name -> name <> "" ->
  exists u,
    post_users c newId rq s
    = (set_users (users s ++ [u]) s, Resp 201 "User added successfully")
    /\ (rq_status rq = Some "pending" -> u_status u = Some "pending")
    /\ (rq_status rq <> Some "pending" -> rq_paymentType rq = Some "now" ->
        (rq_numberOfMonths rq = Some 1 -> u_status u = Some "paid")
        /\ (forall n, rq_numberOfMonths rq = Some n -> 1 < n ->
            u_status u = Some "partial")
        /\ u_paidAmount u = Some (num (rq_amount rq) - num (rq_discount rq)))
    /\ (rq_status rq <> Some "pending" -> rq_paymentType rq = Some "later" ->
        u_status u = Some "unpaid").
Proof.
  intros Hname Hne.
  exists (newUser c newId name rq). split.
  - unfold post_users. rewrite Hname.
    apply String.eqb_neq in Hne. by rewrite Hne.
  - assert (forall st, st <> Some "pending" -> str_is st "pending" = false)
      as Hnp.
    { intros [st|] Hst; simpl; [|done].
      apply String.eqb_neq. congruence. }
    unfold newUser, determine_payment_status.
    split; [|split].
    + intros ->. done.
    + intros Hst Hpt. rewrite (Hnp _ Hst), Hpt. simpl.
      split; [|split].
      * intros ->. done.
      * intros n -> Hn. simpl.
        destruct (Z.ltb_spec 1 n); [done|lia].
      * by destruct (1 <? num (rq_numberOfMonths rq)).
    + intros Hst Hpt. rewrite (Hnp _ Hst), Hpt. done.
Qed.

Lemma creation_status_witness :
  exists u,
    post_users (Clock 1762153200000) "65a2b2c3d4e5f60718293a4b"
      (UserRequest (Some "Aamir") (Some "10MB") (Some 0) (Some 1500) None
         (ExpDashed 3 12 2030) None (Some "later") (Some 1))
      (Db [] [] [] [])
    = (set_users ([] ++ [u]) (Db [] [] [] []),
       Resp 201 "User added successfully")
    /\ u_status u = Some "unpaid".
Proof.
  destruct (creation_status (Clock 1762153200000) "65a2b2c3d4e5f60718293a4b" "Aamir"
              (UserRequest (Some "Aamir") (Some "10MB") (Some 0) (Some 1500)
                 None (ExpDashed 3 12 2030) None (Some "later") (Some 1))
              (Db [] [] [] []) eq_refl ltac:(discriminate))
    as (u & Hpost & _ & _ & Hlater).
  exists u. split; [exact Hpost|].
  apply Hlater; [discriminate|reflexivity].
Defined.

(** ** Calendar facts *)

Lemma days_in_month_bounds y m : 28 <= days_in_month y m <= 31.
Proof.
  unfold days_in_month.
  destruct (m =? 1); [destruct (is_leap y); lia|].
  destruct ((m =? 3) || (m =? 5) || (m =? 8) || (m =? 10)); lia.
Qed.

Lemma roll_days_in_range fuel y m d :
  1 <= d <= days_in_month y m -> roll_days (S fuel) y m d = YMD y m d.
Proof.
  intros [Hlo Hhi]. simpl.
  destruct (Z.ltb_spec d 1); [lia|].
  destruct (Z.ltb_spec (days_in_month y m) d); [lia|done].
Qed.

Lemma next_month_range y m :
  0 <= m <= 11 -> 0 <= (next_month y m).2 <= 11.
Proof.
  intros Hm. unfold next_month. destruct (Z.eqb_spec m 11); simpl; lia.
Qed.

Lemma prev_month_range y m :
  0 <= m <= 11 -> 0 <= (prev_month y m).2 <= 11.
Proof.
  intros Hm. unfold prev_month. destruct (Z.eqb_spec m 0); simpl; lia.
Qed.

Lemma roll_days_normal fuel : forall y m d,
  0 <= m <= 11 ->
  1 - 28 * Z.of_nat fuel <= d <= days_in_month y m + 28 * Z.of_nat fuel ->
  in_range (roll_days fuel y m d).
Proof.
  induction fuel as [|k IH]; intros y m d Hm Hd.
  - simpl. unfold in_range. simpl. lia.
  - cbn [roll_days].
    destruct (Z.ltb_spec d 1) as [Hlow|Hlow].
    + pose proof (prev_month_range y m Hm) as Hp.
      destruct (prev_month y m) as [y' m'] eqn:E. simpl in Hp.
      pose proof (days_in_month_bounds y' m').
      apply IH; [done|]. lia.
    + destruct (Z.ltb_spec (days_in_month y m) d) as [Hhigh|Hhigh].
      * pose proof (next_month_range y m Hm) as Hn.
        destruct (next_month y m) as [y' m'] eqn:E. simpl in Hn.
        pose proof (days_in_month_bounds y' m').
        pose proof (days_in_month_bounds y m).
        apply IH; [done|]. lia.
      * unfold in_range. simpl. lia.
Qed.

(** Normalisation always ends in a civil date that exists: the fuel
    [make_day] hands to [roll_days] is enough for every input. *)
Lemma make_day_normal year month day : in_range (make_day year month day).
Proof.
  unfold make_day. apply roll_days_normal.
  - pose proof (Z.mod_pos_bound month 12). lia.
  - pose proof (days_in_month_bounds (year + month / 12) (month mod 12)).
    lia.
Qed.

(** A date in range is its own normal form. *)
Lemma new_Date_valid dd mm yyyy :
  valid_dmy dd mm yyyy -> new_Date yyyy (mm - 1) dd = YMD yyyy (mm - 1) dd.
Proof.
  intros (Hy & Hm & Hd). unfold new_Date, make_day, full_year.
  destruct (Z.leb_spec yyyy 99); [lia|].
  rewrite andb_false_r.
  rewrite (Z.div_small (mm - 1) 12), (Z.mod_small (mm - 1) 12) by lia.
  rewrite Z.add_0_r. by apply roll_days_in_range.
Qed.

(** Advancing the month keeps the day when the following month has it. *)
Lemma setMonth_next_same_day dd mm yyyy :
  1 <= mm <= 12 ->
  1 <= dd <= days_in_month (following_month mm yyyy).1
                           ((following_month mm yyyy).2 - 1) ->
  setMonth_next (YMD yyyy (mm - 1) dd)
  = YMD (following_month mm yyyy).1 ((following_month mm yyyy).2 - 1) dd.
Proof.
  intros Hm Hd. unfold setMonth_next, make_day, following_month in *.
  cbn [ymd_y ymd_m ymd_d].
  replace (mm - 1 + 1) with mm by lia.
  destruct (Z.eqb_spec mm 12) as [->|Hne]; cbn [fst snd] in *.
  - change (12 / 12) with 1. change (12 mod 12) with 0.
    change (1 - 1) with 0 in *.
    by apply roll_days_in_range.
  - rewrite (Z.div_small mm 12), (Z.mod_small mm 12) by lia.
    rewrite Z.add_0_r.
    replace (mm + 1 - 1) with mm in * by lia.
    by apply roll_days_in_range.
Qed.

(** ** The rollover loop *)

Lemma process_expired_dashed c newId u dd mm yyyy s :
  expiryDate u = ExpDashed dd mm yyyy ->
  process_expired c newId u s = (rollover_step c newId u dd mm yyyy s, Done tt).
Proof.
  intros He. unfold process_expired, rollover_step. rewrite He.
  unfold mbind, M_bind, bind, parseDate, ret, modify, get. simpl.
  match goal with |- context [voucher_of ?i ?st] =>
    destruct (voucher_of i st) as [v|] eqn:Hv end; simpl; [|done].
  match goal with |- context [existsb ?p ?l] => destruct (existsb p l) end;
    done.
Qed.

Lemma process_expired_not_dashed c newId u s :
  ~ dashed u -> exists e, process_expired c newId u s = (s, Thrown e).
Proof.
  intros Hn. unfold process_expired.
  destruct (expiryDate u) as [dd mm yyyy| |] eqn:He.
  - exfalso. apply Hn. by exists dd, mm, yyyy.
  - by eexists.
  - by eexists.
Qed.

Lemma dashed_dec (u : user) : {dashed u} + {~ dashed u}.
Proof.
  unfold dashed. destruct (expiryDate u) as [dd mm yyyy| |].
  - left. by exists dd, mm, yyyy.
  - right. intros (? & ? & ? & ?). discriminate.
  - right. intros (? & ? & ? & ?). discriminate.
Qed.

Lemma turn_dashed c newId u s dd mm yyyy :
  expiryDate u = ExpDashed dd mm yyyy ->
  turn c newId s u = rollover_step c newId u dd mm yyyy s.
Proof. intros He. unfold turn. by rewrite He. Qed.

(** A loop over dashed subscribers completes and is the fold of its
    turns. *)
Lemma for_each_all_dashed c newId l s :
  Forall dashed l ->
  for_each (process_expired c newId) l s
  = (fold_left (turn c newId) l s, Done tt).
Proof.
  intros Hl. revert s. induction Hl as [|u r (dd & mm & yyyy & He) Hr IH];
    intros s; simpl; [done|].
  unfold mbind, M_bind, bind.
  rewrite (process_expired_dashed _ _ _ _ _ _ _ He), IH.
  by rewrite (turn_dashed _ _ _ _ _ _ _ He).
Qed.

(** The first subscriber that is not dashed stops the loop: the store is the
    fold over those before it. *)
Lemma for_each_first_failure c newId l1 bad l2 s :
  Forall dashed l1 -> ~ dashed bad ->
  exists e,
    for_each (process_expired c newId) (l1 ++ bad :: l2) s
    = (fold_left (turn c newId) l1 s, Thrown e).
Proof.
  intros Hl Hbad. revert s.
  induction Hl as [|u r (dd & mm & yyyy & He) Hr IH]; intros s; simpl.
  - destruct (process_expired_not_dashed c newId bad s Hbad) as [e He].
    exists e. unfold mbind, M_bind, bind. by rewrite He.
  - unfold mbind, M_bind, bind.
    rewrite (process_expired_dashed _ _ _ _ _ _ _ He).
    rewrite (turn_dashed _ _ _ _ _ _ _ He). apply IH.
Qed.

(** Every list splits at its first subscriber that is not dashed. *)
Lemma split_at_first_failure (l : list user) :
  Forall dashed l \/
  exists l1 bad l2, l = l1 ++ bad :: l2 /\ Forall dashed l1 /\ ~ dashed bad.
Proof.
  induction l as [|u r IH]; [left; constructor|].
  destruct (dashed_dec u) as [Hu|Hu].
  - destruct IH as [Hr|(l1 & bad & l2 & -> & Hl1 & Hbad)].
    + left. by constructor.
    + right. exists (u :: l1), bad, l2. split; [done|]. split; [|done].
      by constructor.
  - right. exists [], u, r. split; [done|]. split; [constructor|done].
Qed.

(** *** What one turn does to the documents *)

Section one_turn.
Variables (c : clock) (newId : string -> string).

Lemma rolled_user_id e u : u_id (rolled_user c e u) = u_id u.
Proof. done. Qed.

Lemma step_ids u dd mm yyyy s :
  u_id <$> users (rollover_step c newId u dd mm yyyy s) = u_id <$> users s.
Proof.
  unfold rollover_step.
  set (s1 := set_users _ s).
  assert (u_id <$> users s1 = u_id <$> users s) as H1.
  { subst s1. simpl. by apply update_first_fmap. }
  destruct (voucher_of (u_id u) s1) as [v|]; [|done].
  by destruct (existsb _ _).
Qed.

Lemma step_user_other id u dd mm yyyy s :
  id <> u_id u ->
  user_of id (rollover_step c newId u dd mm yyyy s) = user_of id s.
Proof.
  intros Hne. unfold rollover_step.
  set (s1 := set_users _ s).
  assert (user_of id s1 = user_of id s) as H1.
  { subst s1. unfold user_of. simpl.
    apply find_update_first_other.
    - intros x Hx. apply has_id_true in Hx. apply has_id_false. congruence.
    - intros x Hx. apply has_id_true in Hx. apply has_id_false.
      rewrite rolled_user_id. congruence. }
  destruct (voucher_of (u_id u) s1) as [v|]; [|done].
  by destruct (existsb _ _).
Qed.

Lemma step_user_self u dd mm yyyy s :
  user_of (u_id u) (rollover_step c newId u dd mm yyyy s)
  = rolled_user c (formatDate (setMonth_next (new_Date yyyy (mm - 1) dd)))
      <$> user_of (u_id u) s.
Proof.
  unfold rollover_step.
  set (s1 := set_users _ s).
  assert (user_of (u_id u) s1
          = rolled_user c (formatDate (setMonth_next (new_Date yyyy (mm - 1) dd)))
              <$> user_of (u_id u) s) as H1.
  { subst s1. unfold user_of. simpl.
    apply find_update_first_same. by intros x Hx. }
  destruct (voucher_of (u_id u) s1) as [v|]; [|done].
  by destruct (existsb _ _).
Qed.

Lemma step_voucher_other id u dd mm yyyy s :
  id <> u_id u ->
  voucher_of id (rollover_step c newId u dd mm yyyy s) = voucher_of id s.
Proof.
  intros Hne. unfold rollover_step.
  set (s1 := set_users _ s).
  change (voucher_of (u_id u) s1) with (voucher_of (u_id u) s).
  destruct (voucher_of (u_id u) s) as [v|].
  - destruct (existsb _ _); [done|].
    unfold voucher_of. simpl.
    apply find_update_first_other.
    + intros x Hx. apply of_user_true in Hx. apply of_user_false. congruence.
    + intros x Hx. apply of_user_true in Hx. apply of_user_false.
      simpl. congruence.
  - unfold voucher_of. simpl. apply find_first_app_none.
    apply of_user_false. simpl. congruence.
Qed.

Lemma step_voucher_self u dd mm yyyy s :
  voucher_of (u_id u) (rollover_step c newId u dd mm yyyy s)
  = Some (voucher_after c newId u dd mm yyyy (voucher_of (u_id u) s)).
Proof.
  unfold rollover_step, voucher_after.
  set (s1 := set_users _ s).
  change (voucher_of (u_id u) s1) with (voucher_of (u_id u) s).
  destruct (voucher_of (u_id u) s) as [v|] eqn:Hv.
  - destruct (existsb _ _); [done|].
    unfold voucher_of in *. simpl.
    rewrite find_update_first_same by (by intros x Hx).
    by rewrite Hv.
  - unfold voucher_of in *. simpl.
    apply find_first_app_new; [done|].
    by apply of_user_true.
Qed.

Lemma turn_ids s u : u_id <$> users (turn c newId s u) = u_id <$> users s.
Proof.
  unfold turn. destruct (expiryDate u); [apply step_ids|done|done].
Qed.

Lemma turn_other id s u :
  id <> u_id u ->
  user_of id (turn c newId s u) = user_of id s
  /\ voucher_of id (turn c newId s u) = voucher_of id s.
Proof.
  intros Hne. unfold turn. destruct (expiryDate u); [|done|done].
  split; [by apply step_user_other|by apply step_voucher_other].
Qed.

(** Turns for other subscribers leave a subscriber's documents alone. *)
Lemma fold_turn_other id l s :
  Forall (fun x => u_id x <> id) l ->
  user_of id (fold_left (turn c newId) l s) = user_of id s
  /\ voucher_of id (fold_left (turn c newId) l s) = voucher_of id s.
Proof.
  intros Hl. revert s. induction Hl as [|x r Hx Hr IH]; intros s; [done|].
  simpl. destruct (IH (turn c newId s x)) as [-> ->].
  apply turn_other. congruence.
Qed.

Lemma fold_turn_ids l s :
  u_id <$> users (fold_left (turn c newId) l s) = u_id <$> users s.
Proof.
  revert s. induction l as [|x r IH]; intros s; [done|].
  simpl. by rewrite IH, turn_ids.
Qed.

(** In a batch with distinct ids the subscriber's own turn decides its
    documents. *)
Lemma fold_turn_self u dd mm yyyy l s :
  NoDup (u_id <$> l) -> u ∈ l -> expiryDate u = ExpDashed dd mm yyyy ->
  user_of (u_id u) (fold_left (turn c newId) l s)
  = rolled_user c (formatDate (setMonth_next (new_Date yyyy (mm - 1) dd)))
      <$> user_of (u_id u) s
  /\ voucher_of (u_id u) (fold_left (turn c newId) l s)
     = Some (voucher_after c newId u dd mm yyyy (voucher_of (u_id u) s)).
Proof.
  intros Hnd Hin He. revert s.
  induction l as [|x r IH]; intros s; [by apply elem_of_nil in Hin|].
  rewrite fmap_cons in Hnd. apply NoDup_cons in Hnd as [Hx Hr].
  simpl. apply elem_of_cons in Hin as [<-|Hin].
  - assert (Forall (fun y => u_id y <> u_id u) r) as Hothers.
    { apply Forall_forall. intros y Hy E. apply Hx. rewrite <- E.
      apply list_elem_of_fmap. eauto. }
    destruct (fold_turn_other (u_id u) r (turn c newId s u) Hothers)
      as [-> ->].
    rewrite (turn_dashed _ _ _ _ _ _ _ He).
    split; [apply step_user_self|apply step_voucher_self].
  - assert (u_id u <> u_id x) as Hne.
    { intros E. apply Hx. rewrite <- E. apply list_elem_of_fmap. eauto. }
    destruct (IH Hr Hin (turn c newId s x)) as [-> ->].
    by destruct (turn_other (u_id u) s x Hne) as [-> ->].
Qed.
End one_turn.

(** *** The job as a whole *)

Lemma job_at_noon c newId s :
  12 <= currentHour c ->
  moveTodayExpiredToUnpaid c newId s
  = match for_each (process_expired c newId) (expiredUsers c s) s with
    | (s', Done _) => (s', [])
    | (s', Thrown e) => (s', [e])
    end.
Proof.
  intros Hh. unfold moveTodayExpiredToUnpaid.
  destruct (Z.ltb_spec (currentHour c) 12); [lia|done].
Qed.

(** A run that logs nothing has completed every turn. *)
Lemma job_without_error c newId s :
  12 <= currentHour c ->
  (moveTodayExpiredToUnpaid c newId s).2 = [] ->
  (moveTodayExpiredToUnpaid c newId s).1
  = fold_left (turn c newId) (expiredUsers c s) s.
Proof.
  intros Hh. rewrite (job_at_noon _ _ _ Hh).
  destruct (split_at_first_failure (expiredUsers c s))
    as [Hall|(l1 & bad & l2 & -> & Hl1 & Hbad)].
  - by rewrite (for_each_all_dashed _ _ _ _ Hall).
  - destruct (for_each_first_failure c newId l1 bad l2 s Hl1 Hbad) as [e ->].
    simpl. discriminate.
Qed.

(** A batch of dashed subscribers is processed to the end and logs
    nothing. *)
Lemma job_completes c newId s :
  Forall dashed (expiredUsers c s) ->
  (moveTodayExpiredToUnpaid c newId s).2 = [].
Proof.
  intros Hall. unfold moveTodayExpiredToUnpaid.
  destruct (currentHour c <? 12); [done|].
  by rewrite (for_each_all_dashed _ _ _ _ Hall).
Qed.

(** Whatever happens, the store a run leaves is the fold of the turns of a
    prefix of its batch. *)
Lemma job_runs_a_prefix c newId s :
  exists l1,
    l1 `prefix_of` expiredUsers c s
    /\ (moveTodayExpiredToUnpaid c newId s).1 = fold_left (turn c newId) l1 s.
Proof.
  unfold moveTodayExpiredToUnpaid.
  destruct (currentHour c <? 12).
  { exists []. split; [apply prefix_nil|done]. }
  destruct (split_at_first_failure (expiredUsers c s))
    as [Hall|(l1 & bad & l2 & -> & Hl1 & Hbad)].
  - exists (expiredUsers c s). split; [done|].
    by rewrite (for_each_all_dashed _ _ _ _ Hall).
  - exists l1. split; [by apply prefix_app_r|].
    by destruct (for_each_first_failure c newId l1 bad l2 s Hl1 Hbad) as [e ->].
Qed.

Lemma expiredUsers_elem c s u :
  u ∈ expiredUsers c s
  <-> u ∈ users s /\ rollover_status u = true /\ is_active u = true
      /\ has_expired (todayYMD c) u = true.
Proof.
  unfold expiredUsers. rewrite !list_elem_of_filter.
  rewrite !Is_true_true, andb_true_iff. tauto.
Qed.

Lemma expiredUsers_NoDup c s :
  NoDup (u_id <$> users s) -> NoDup (u_id <$> expiredUsers c s).
Proof.
  intros Hnd. eapply sublist_NoDup; [exact Hnd|].
  apply fmap_sublist. unfold expiredUsers.
  etrans; apply sublist_filter.
Qed.

(** The subscriber's documents after a run that completes. *)
Lemma job_processes c newId s u dd mm yyyy :
  NoDup (u_id <$> users s) -> u ∈ users s ->
  rollover_status u = true -> is_active u = true ->
  expiryDate u = ExpDashed dd mm yyyy ->
  has_expired (todayYMD c) u = true ->
  12 <= currentHour c ->
  (moveTodayExpiredToUnpaid c newId s).2 = [] ->
  user_of (u_id u) (moveTodayExpiredToUnpaid c newId s).1
  = Some (rolled_user c
            (formatDate (setMonth_next (new_Date yyyy (mm - 1) dd))) u)
  /\ voucher_of (u_id u) (moveTodayExpiredToUnpaid c newId s).1
     = Some (voucher_after c newId u dd mm yyyy (voucher_of (u_id u) s)).
Proof.
  intros Hnd Hin Hst Hact He Hexp Hh Hlog.
  rewrite (job_without_error _ _ _ Hh Hlog).
  destruct (fold_turn_self c newId u dd mm yyyy (expiredUsers c s) s)
    as [Hu Hv].
  - by apply expiredUsers_NoDup.
  - by apply expiredUsers_elem.
  - done.
  - rewrite Hu, Hv. split; [|done].
    unfold user_of. by rewrite (user_of_unique _ _ Hnd Hin).
Qed.

Lemma months_of_after c newId u dd mm yyyy s s' :
  voucher_of (u_id u) s'
  = Some (voucher_after c newId u dd mm yyyy (voucher_of (u_id u) s)) ->
  months_of (u_id u) s'
  = if existsb (same_label (month_label (new_Date yyyy (mm - 1) dd)))
         (months_of (u_id u) s)
    then months_of (u_id u) s
    else months_of (u_id u) s ++ [newMonth c u (new_Date yyyy (mm - 1) dd)].
Proof.
  intros Hv. unfold months_of. rewrite Hv. unfold voucher_after.
  destruct (voucher_of (u_id u) s) as [v|]; [|done].
  by destruct (existsb _ _).
Qed.

Lemma roll_days_later fuel : forall y m d,
  1 <= d -> 0 <= m <= 11 ->
  y < ymd_y (roll_days fuel y m d)
  \/ (y = ymd_y (roll_days fuel y m d) /\ m <= ymd_m (roll_days fuel y m d)).
Proof.
  induction fuel as [|k IH]; intros y m d Hd Hm; cbn [roll_days].
  { right. cbn. lia. }
  destruct (Z.ltb_spec d 1); [lia|].
  destruct (Z.ltb_spec (days_in_month y m) d); [|right; cbn; lia].
  destruct (next_month y m) as [y' m'] eqn:En.
  unfold next_month in En.
  destruct (Z.eqb_spec m 11); injection En as <- <-.
  - destruct (IH (y + 1) 0 (d - days_in_month y m)) as [?|[? ?]]; lia.
  - destruct (IH y (m + 1) (d - days_in_month y m)) as [?|[? ?]]; lia.
Qed.

(** Advancing the month of a date in range gives a later month. *)
Lemma setMonth_next_later t :
  in_range t ->
  ymd_y t < ymd_y (setMonth_next t)
  \/ (ymd_y t = ymd_y (setMonth_next t) /\ ymd_m t < ymd_m (setMonth_next t)).
Proof.
  intros [Hm Hd]. unfold setMonth_next, make_day.
  destruct (Z.eqb_spec (ymd_m t) 11) as [E|E].
  - rewrite E. change ((11 + 1) / 12) with 1. change ((11 + 1) mod 12) with 0.
    destruct (roll_days_later (S (Z.to_nat (Z.abs (ymd_d t)))) (ymd_y t + 1) 0
                (ymd_d t)) as [?|[? ?]]; lia.
  - rewrite (Z.div_small (ymd_m t + 1) 12), (Z.mod_small (ymd_m t + 1) 12) by lia.
    rewrite Z.add_0_r.
    destruct (roll_days_later (S (Z.to_nat (Z.abs (ymd_d t)))) (ymd_y t)
                (ymd_m t + 1) (ymd_d t)) as [?|[? ?]]; lia.
Qed.

Lemma isDateLTE_later t ref :
  ymd_y ref < ymd_y t \/ (ymd_y ref = ymd_y t /\ ymd_m ref < ymd_m t) ->
  isDateLTE t ref = false.
Proof.
  intros H. unfold isDateLTE.
  destruct (Z.ltb_spec (ymd_y t) (ymd_y ref)); [lia|].
  destruct (Z.eqb_spec (ymd_y t) (ymd_y ref)); cbn [andb]; [|done].
  destruct (Z.ltb_spec (ymd_m t) (ymd_m ref)); [lia|].
  destruct (Z.eqb_spec (ymd_m t) (ymd_m ref)); cbn [andb]; [lia|done].
Qed.

(** A date the job has written reads back as itself. *)
Lemma parse_formatDate t :
  in_range t -> 100 <= ymd_y t ->
  parseExpiryYMD (formatDate t) = Some t.
Proof.
  intros [Hm Hd] Hy. unfold formatDate, parseExpiryYMD.
  rewrite new_Date_valid.
  - f_equal. destruct t as [y m d]. cbn. f_equal. lia.
  - unfold valid_dmy. replace (ymd_m t + 1 - 1) with (ymd_m t) by lia. lia.
Qed.

Lemma cycle_ended_today c u dd mm yyyy :
  valid_dmy dd mm yyyy ->
  todayYMD c = YMD yyyy (mm - 1) dd ->
  has_expired (todayYMD c)
    (rolled_user c (formatDate (setMonth_next (new_Date yyyy (mm - 1) dd))) u)
  = false.
Proof.
  intros Hvalid Htoday. rewrite (new_Date_valid _ _ _ Hvalid).
  pose proof Hvalid as (Hy & Hm & Hd).
  assert (in_range (YMD yyyy (mm - 1) dd)) as Hin.
  { unfold in_range. cbn. lia. }
  pose proof (setMonth_next_later _ Hin) as Hlater. cbn [ymd_y ymd_m] in Hlater.
  unfold has_expired. cbn [expiryDate rolled_user].
  rewrite parse_formatDate.
  - rewrite Htoday. by apply isDateLTE_later.
  - apply make_day_normal.
  - lia.
Qed.

(** C4 (amended).  A run of the rollover job at or after noon that completes
    without an error moves every active subscriber of a listed status
    (paid, partial, unpaid, pending, superbalance) whose dashed expiry date
    is on or before today to ['unpaid'], clears [showInExpiringSoon], stamps
    [unpaidSince] and sets the expiry date to what [setMonth] makes of the
    old one a month later: for a date the calendar has, the same day of the
    following month when the following month has that day.  A voucher that
    has no entry labelled with the month of the old expiry date gains
    exactly one, unpaid, with the subscriber's fee and discount and the
    remainder clamped at zero; a voucher that has one is left as it is. *)
Theorem rollover_moves_expired (c : clock) (newId : string -> string)
    (s : db) (u : user) (dd mm yyyy : Z) :
  NoDup (u_id <$> users s) -> u ∈ users s ->
  rollover_status u = true -> is_active u = true ->
  expiryDate u = ExpDashed dd mm yyyy ->
  has_expired (todayYMD c) u = true ->
  12 <= currentHour c ->
  (moveTodayExpiredToUnpaid c newId s).2 = [] ->
  let s' := (moveTodayExpiredToUnpaid c newId s).1 in
  let cur := new_Date yyyy (mm - 1) dd in
  let label := month_label cur in
  (exists u',
     user_of (u_id u) s' = Some u'
     /\ u_status u' = Some "unpaid"
     /\ showInExpiringSoon u' = Some false
     /\ unpaidSince u' = Some (now_ms c)
     /\ expiryDate u' = formatDate (setMonth_next cur)
     /\ (valid_dmy dd mm yyyy ->
         dd <= days_in_month (following_month mm yyyy).1
                             ((following_month mm yyyy).2 - 1) ->
         expiryDate u'
         = ExpDashed dd (following_month mm yyyy).2 (following_month mm yyyy).1))
  /\ (valid_dmy dd mm yyyy -> cur = YMD yyyy (mm - 1) dd)
  /\ (existsb (same_label label) (months_of (u_id u) s) = false ->
      exists m,
        months_of (u_id u) s' = months_of (u_id u) s ++ [m]
        /\ month m = label
        /\ packageFee m = Some (num (u_amount u))
        /\ discount m = Some (num (u_discount u))
        /\ paidAmount m = Some 0
        /\ remainingAmount m
           = Some (Z.max 0 (num (u_amount u) - num (u_discount u)))
        /\ status m = Some "unpaid")
  /\ (existsb (same_label label) (months_of (u_id u) s) = true ->
      months_of (u_id u) s' = months_of (u_id u) s).
Proof.
  intros Hnd Hin Hst Hact He Hexp Hh Hlog s' cur label.
  destruct (job_processes c newId s u dd mm yyyy Hnd Hin Hst Hact He Hexp
              Hh Hlog) as [Hu Hv].
  fold s' cur in Hu, Hv.
  pose proof (months_of_after _ _ _ _ _ _ _ _ Hv) as Hms.
  fold cur label in Hms.
  split; [|split; [|split]].
  - eexists. split; [exact Hu|]. cbn [u_status showInExpiringSoon unpaidSince
      expiryDate rolled_user].
    split; [done|]. split; [done|]. split; [done|]. split; [done|].
    intros Hvalid Hnext. subst cur.
    rewrite (new_Date_valid _ _ _ Hvalid).
    destruct Hvalid as (Hy & Hm & Hd).
    rewrite setMonth_next_same_day by lia.
    unfold formatDate. cbn [ymd_y ymd_m ymd_d]. f_equal. lia.
  - intros Hvalid. by apply new_Date_valid.
  - intros Hno. rewrite Hno in Hms. eexists. split; [exact Hms|]. done.
  - intros Hyes. by rewrite Hyes in Hms.
Qed.

Lemma rollover_moves_expired_witness :
  exists u',
    user_of "65a1b2c3d4e5f60718293a4b"
      (moveTodayExpiredToUnpaid noon_3_nov_2025 id
         (Db [sample_user "65a1b2c3d4e5f60718293a4b" "Aamir" "paid" (ExpDashed 3 11 2025)] [] [] [])).1
    = Some u'
    /\ u_status u' = Some "unpaid"
    /\ expiryDate u' = ExpDashed 3 12 2025.
Proof.
  destruct (rollover_moves_expired noon_3_nov_2025 id
              (Db [sample_user "65a1b2c3d4e5f60718293a4b" "Aamir" "paid" (ExpDashed 3 11 2025)]
                 [] [] [])
              (sample_user "65a1b2c3d4e5f60718293a4b" "Aamir" "paid" (ExpDashed 3 11 2025))
              3 11 2025)
    as [(u' & Hu & Hst & _ & _ & He & _) _].
  - apply NoDup_singleton.
  - apply list_elem_of_here.
  - reflexivity.
  - reflexivity.
  - reflexivity.
  - vm_compute. reflexivity.
  - vm_compute. discriminate.
  - vm_compute. reflexivity.
  - exists u'. split; [exact Hu|]. split; [exact Hst|]. rewrite He.
    vm_compute. reflexivity.
Defined.


(** C4, as stated, fails: an active subscriber whose status is ['reversed']
    is not among the statuses the job selects, so an expiry date that has
    passed leaves the record as it was. *)
Lemma rollover_skips_reversed_status :
  ~ (forall (c : clock) (newId : string -> string) (s : db) (u : user),
       NoDup (u_id <$> users s) -> u ∈ users s ->
       is_active u = true -> has_expired (todayYMD c) u = true ->
       12 <= currentHour c ->
       (moveTodayExpiredToUnpaid c newId s).2 = [] ->
       exists u',
         user_of (u_id u) (moveTodayExpiredToUnpaid c newId s).1 = Some u'
         /\ u_status u' = Some "unpaid").
Proof.
  intros H.
  destruct (H noon_3_nov_2025 id
              (Db [sample_user "65a1b2c3d4e5f60718293a4b" "Aamir" "reversed" (ExpDashed 3 11 2025)]
                 [] [] [])
              (sample_user "65a1b2c3d4e5f60718293a4b" "Aamir" "reversed" (ExpDashed 3 11 2025)))
    as (u' & Hu & Hst).
  - apply NoDup_singleton.
  - apply list_elem_of_here.
  - reflexivity.
  - vm_compute. reflexivity.
  - vm_compute. discriminate.
  - vm_compute. reflexivity.
  - vm_compute in Hu. injection Hu as <-. discriminate.
Qed.

(** C5 (amended).  Take a subscriber a first run at or after noon, which
    completes without an error, has moved.  When the expiry date that run
    wrote is after today (as it is for a subscriber whose cycle ended
    today), a second run on the same civil day changes neither the
    subscriber record nor the voucher, whether or not that run completes;
    after both runs a voucher that had no entry for the ended month holds
    exactly one more entry, the one with that month's label.  When the
    written date is still on or before today, a second run at or after noon
    that completes moves the subscriber again: the expiry date goes one
    more month ahead, and the voucher gains an entry for the month of the
    date the first run wrote unless it has one. *)
Theorem rollover_second_run_noop (c1 c2 : clock)
    (newId1 newId2 : string -> string) (s : db) (u : user) (dd mm yyyy : Z) :
  NoDup (u_id <$> users s) -> u ∈ users s ->
  rollover_status u = true -> is_active u = true ->
  expiryDate u = ExpDashed dd mm yyyy ->
  has_expired (todayYMD c1) u = true ->
  12 <= currentHour c1 ->
  todayYMD c2 = todayYMD c1 ->
  (moveTodayExpiredToUnpaid c1 newId1 s).2 = [] ->
  let s1 := (moveTodayExpiredToUnpaid c1 newId1 s).1 in
  let s2 := (moveTodayExpiredToUnpaid c2 newId2 s1).1 in
  let cur := new_Date yyyy (mm - 1) dd in
  let label := month_label cur in
  let u1 := rolled_user c1 (formatDate (setMonth_next cur)) u in
  user_of (u_id u) s1 = Some u1
  /\ (has_expired (todayYMD c1) u1 = false ->
      user_of (u_id u) s2 = user_of (u_id u) s1
      /\ voucher_of (u_id u) s2 = voucher_of (u_id u) s1
      /\ (existsb (same_label label) (months_of (u_id u) s) = false ->
          exists m,
            months_of (u_id u) s2 = months_of (u_id u) s ++ [m]
            /\ month m = label)
      /\ (existsb (same_label label) (months_of (u_id u) s) = true ->
          months_of (u_id u) s2 = months_of (u_id u) s))
  /\ (has_expired (todayYMD c1) u1 = true ->
      12 <= currentHour c2 ->
      (moveTodayExpiredToUnpaid c2 newId2 s1).2 = [] ->
      exists cur1,
        parseExpiryYMD (expiryDate u1) = Some cur1
        /\ (100 <= ymd_y (setMonth_next cur) -> cur1 = setMonth_next cur)
        /\ user_of (u_id u) s2
           = Some (rolled_user c2 (formatDate (setMonth_next cur1)) u1)
        /\ months_of (u_id u) s2
           = (if existsb (same_label (month_label cur1)) (months_of (u_id u) s1)
              then months_of (u_id u) s1
              else months_of (u_id u) s1 ++ [newMonth c2 u1 cur1]))
  /\ (valid_dmy dd mm yyyy -> todayYMD c1 = YMD yyyy (mm - 1) dd ->
      has_expired (todayYMD c1) u1 = false).
Proof.
  intros Hnd Hin Hst Hact He Hexp Hh Hday Hlog s1 s2 cur label u1.
  destruct (job_processes c1 newId1 s u dd mm yyyy Hnd Hin Hst Hact He Hexp
              Hh Hlog) as [Hu Hv].
  fold s1 cur u1 in Hu, Hv.
  pose proof (months_of_after _ _ _ _ _ _ _ _ Hv) as Hms.
  fold cur label in Hms.
  (* the ids of the first run's store are those of the start *)
  assert (NoDup (u_id <$> users s1)) as Hnd1.
  { subst s1. rewrite (job_without_error _ _ _ Hh Hlog).
    by rewrite fold_turn_ids. }
  assert (u1 ∈ users s1) as Hin1.
  { by apply find_first_elem in Hu as [? _]. }
  split; [exact Hu|]. split; [|split].
  - intros Hgt.
    (* the second run only takes turns for other subscribers *)
    destruct (job_runs_a_prefix c2 newId2 s1) as (l1 & Hpre & Hs2).
    fold s2 in Hs2.
    assert (Forall (fun x => u_id x <> u_id u) l1) as Hothers.
    { apply Forall_forall. intros x Hx Eid.
      assert (x ∈ expiredUsers c2 s1) as Hx2.
      { destruct Hpre as [k ->]. apply elem_of_app. by left. }
      apply expiredUsers_elem in Hx2 as (Hxin & _ & _ & Hxexp).
      pose proof (user_of_unique _ _ Hnd1 Hxin) as Hfind.
      rewrite Eid in Hfind. unfold user_of in Hu. rewrite Hu in Hfind.
      injection Hfind as <-. rewrite Hday in Hxexp. congruence. }
    destruct (fold_turn_other c2 newId2 (u_id u) l1 s1 Hothers) as [Hu2 Hv2].
    rewrite <- Hs2 in Hu2, Hv2.
    split; [exact Hu2|]. split; [exact Hv2|].
    assert (months_of (u_id u) s2 = months_of (u_id u) s1) as ->.
    { unfold months_of. by rewrite Hv2. }
    split.
    + intros Hno. rewrite Hno in Hms. eexists. split; [exact Hms|done].
    + intros Hyes. by rewrite Hyes in Hms.
  - intros Hle Hh2 Hlog2.
    set (t1 := setMonth_next cur) in *.
    destruct (job_processes c2 newId2 s1 u1 (ymd_d t1) (ymd_m t1 + 1) (ymd_y t1))
      as [Hu2 Hv2]; try done.
    { by rewrite Hday. }
    fold s2 in Hu2, Hv2. change (u_id u1) with (u_id u) in Hu2, Hv2.
    pose proof (months_of_after c2 newId2 u1 _ _ _ s1 s2 Hv2) as Hms2.
    change (u_id u1) with (u_id u) in Hms2.
    exists (new_Date (ymd_y t1) (ymd_m t1 + 1 - 1) (ymd_d t1)).
    split; [done|]. split; [|split; [exact Hu2|exact Hms2]].
    intros Hy.
    assert (parseExpiryYMD (formatDate t1) = Some t1) as Hp.
    { apply parse_formatDate; [apply make_day_normal|done]. }
    by injection Hp.
  - intros Hvalid Htoday. by apply cycle_ended_today.
Qed.

Lemma rollover_second_run_noop_witness :
  let s := Db [sample_user "65a1b2c3d4e5f60718293a4b" "Aamir" "paid" (ExpDashed 3 11 2025)] [] [] [] in
  let s1 := (moveTodayExpiredToUnpaid noon_3_nov_2025 id s).1 in
  let s2 := (moveTodayExpiredToUnpaid (Clock 1762156800000) id s1).1 in
  user_of "65a1b2c3d4e5f60718293a4b" s2 = user_of "65a1b2c3d4e5f60718293a4b" s1
  /\ exists m, months_of "65a1b2c3d4e5f60718293a4b" s2 = [] ++ [m] /\ month m = "November 2025".
Proof.
  destruct (rollover_second_run_noop noon_3_nov_2025 (Clock 1762156800000)
              id id
              (Db [sample_user "65a1b2c3d4e5f60718293a4b" "Aamir" "paid" (ExpDashed 3 11 2025)]
                 [] [] [])
              (sample_user "65a1b2c3d4e5f60718293a4b" "Aamir" "paid" (ExpDashed 3 11 2025))
              3 11 2025)
    as (_ & Hnoop & _ & _).
  - apply NoDup_singleton.
  - apply list_elem_of_here.
  - reflexivity.
  - reflexivity.
  - reflexivity.
  - vm_compute. reflexivity.
  - vm_compute. discriminate.
  - vm_compute. reflexivity.
  - vm_compute. reflexivity.
  - destruct Hnoop as (Hu & _ & Hnew & _); [vm_compute; reflexivity|].
    split; [exact Hu|]. apply Hnew. reflexivity.
Defined.

(** C5, as stated, fails: the job also picks up expiry dates that lie in the
    past, one month per run, so for a subscriber whose cycle ended two
    months ago the second run of the day moves the expiry date again. *)
Lemma rollover_second_run_advances_again :
  ~ (forall (c1 c2 : clock) (newId : string -> string) (s : db) (u : user),
       NoDup (u_id <$> users s) -> u ∈ users s ->
       rollover_status u = true -> is_active u = true ->
       has_expired (todayYMD c1) u = true ->
       12 <= currentHour c1 -> 12 <= currentHour c2 ->
       todayYMD c2 = todayYMD c1 ->
       (moveTodayExpiredToUnpaid c1 newId s).2 = [] ->
       let s1 := (moveTodayExpiredToUnpaid c1 newId s).1 in
       let s2 := (moveTodayExpiredToUnpaid c2 newId s1).1 in
       user_of (u_id u) s2 = user_of (u_id u) s1
       /\ months_of (u_id u) s2 = months_of (u_id u) s1).
Proof.
  intros H.
  destruct (H noon_3_nov_2025 (Clock 1762156800000) id
              (Db [sample_user "65a1b2c3d4e5f60718293a4b" "Aamir" "paid" (ExpDashed 3 8 2025)]
                 [] [] [])
              (sample_user "65a1b2c3d4e5f60718293a4b" "Aamir" "paid" (ExpDashed 3 8 2025)))
    as [Hu _].
  - apply NoDup_singleton.
  - apply list_elem_of_here.
  - reflexivity.
  - reflexivity.
  - vm_compute. reflexivity.
  - vm_compute. discriminate.
  - vm_compute. discriminate.
  - vm_compute. reflexivity.
  - vm_compute. reflexivity.
  - vm_compute in Hu. discriminate.
Qed.




(** ** The smart merge *)

Lemma findIndex_Some label l i :
  findIndex label l = Some i ->
  exists e, l !! i = Some e /\ month e = label
            /\ forall j e', (j < i)%nat -> l !! j = Some e' -> month e' <> label.
Proof.
  revert i. induction l as [|x r IH]; intros i; simpl; [done|].
  unfold same_label. destruct (String.eqb_spec (month x) label) as [E|E].
  - intros [= <-]. exists x. split; [done|]. split; [done|]. lia.
  - destruct (findIndex label r) as [k|]; simpl; [|done].
    intros [= <-]. destruct (IH k eq_refl) as (e & He & Hl & Hfirst).
    exists e. split; [done|]. split; [done|].
    intros [|j] e' Hj He'; simpl in He'.
    + by injection He' as <-.
    + apply (Hfirst j e'); [lia|done].
Qed.

Lemma findIndex_None label l :
  findIndex label l = None -> Forall (fun e => month e <> label) l.
Proof.
  induction l as [|x r IH]; simpl; [constructor|].
  unfold same_label. destruct (String.eqb_spec (month x) label) as [E|E];
    [done|].
  destruct (findIndex label r); simpl; [done|].
  intros _. constructor; auto.
Qed.

(** One turn of the loop keeps the label, fee and discount of every stored
    entry. *)
Lemma merge_step_keeps_charge now merged incoming i e :
  merged !! i = Some e ->
  exists e',
    merge_step now merged incoming !! i = Some e'
    /\ month e' = month e
    /\ num (packageFee e') = num (packageFee e)
    /\ num (discount e') = num (discount e).
Proof.
  intros Hi. unfold merge_step.
  destruct (findIndex (month incoming) merged) as [j|] eqn:Hj.
  - destruct (findIndex_Some _ _ _ Hj) as (x & Hx & _).
    rewrite Hx. destruct (decide (i = j)) as [->|Hne].
    + rewrite list_lookup_insert_eq by (by eapply lookup_lt_Some).
      eexists. split; [done|]. rewrite Hx in Hi. by injection Hi as <-.
    + rewrite list_lookup_insert_ne by done. by exists e.
  - exists e. split; [|done]. by apply lookup_app_l_Some.
Qed.

Lemma smart_merge_keeps_charge now incoming : forall existing i e,
  existing !! i = Some e ->
  exists e',
    smart_merge now existing incoming !! i = Some e'
    /\ month e' = month e
    /\ num (packageFee e') = num (packageFee e)
    /\ num (discount e') = num (discount e).
Proof.
  unfold smart_merge.
  induction incoming as [|inc r IH]; intros existing i e Hi; simpl.
  - by exists e.
  - destruct (merge_step_keeps_charge now existing inc i e Hi)
      as (e1 & H1 & Hm1 & Hf1 & Hd1).
    destruct (IH _ _ _ H1) as (e2 & H2 & Hm2 & Hf2 & Hd2).
    exists e2. split; [done|]. repeat split; congruence.
Qed.

(** *** The final sort *)

Lemma insert_sorted_perm key x l : insert_sorted key x l ≡ₚ x :: l.
Proof.
  induction l as [|y r IH]; simpl; [done|].
  destruct (key x <=? key y); [done|].
  rewrite IH. apply Permutation_swap.
Qed.

Lemma sort_by_perm key l : sort_by key l ≡ₚ l.
Proof.
  unfold sort_by. induction l as [|x r IH]; simpl; [done|].
  by rewrite insert_sorted_perm, IH.
Qed.

Lemma insert_sorted_sorted key x l :
  StronglySorted (by_key key) l ->
  StronglySorted (by_key key) (insert_sorted key x l).
Proof.
  induction 1 as [|y r Hr IH Hy]; simpl.
  - repeat constructor.
  - destruct (Z.leb_spec (key x) (key y)) as [Hle|Hgt].
    + constructor; [by constructor|].
      constructor; [done|].
      eapply Forall_impl; [exact Hy|].
      unfold by_key. intros z Hz. simpl in Hz. lia.
    + constructor; [done|].
      rewrite insert_sorted_perm. constructor; [|done].
      unfold by_key. lia.
Qed.

Lemma sort_by_sorted key l : StronglySorted (by_key key) (sort_by key l).
Proof.
  unfold sort_by. induction l as [|x r IH]; simpl; [constructor|].
  by apply insert_sorted_sorted.
Qed.

(** *** The merge as a whole *)

Lemma findIndex_app_l label l k i :
  findIndex label l = Some i -> findIndex label (l ++ k) = Some i.
Proof.
  revert i. induction l as [|x r IH]; intros i; cbn [findIndex app]; [done|].
  destruct (same_label label x); [done|].
  destruct (findIndex label r) as [j|]; [|done].
  intros [= <-]. by rewrite (IH j).
Qed.

Lemma findIndex_app_none label l x :
  findIndex label l = None -> month x <> label ->
  findIndex label (l ++ [x]) = None.
Proof.
  intros Hl Hx. induction l as [|y r IH]; cbn [findIndex app] in *.
  - unfold same_label. apply String.eqb_neq in Hx. by rewrite Hx.
  - destruct (same_label label y); [done|].
    destruct (findIndex label r); [done|]. by rewrite IH.
Qed.

(** Replacing an entry by one with its label moves no label. *)
Lemma findIndex_insert_label label l j x e :
  l !! j = Some e -> month x = month e ->
  findIndex label (<[j := x]> l) = findIndex label l.
Proof.
  revert j. induction l as [|y r IH]; intros j Hj Hx; [done|].
  destruct j as [|j].
  - injection Hj as ->.
    change (<[0%nat := x]> (e :: r)) with (x :: r).
    cbn [findIndex]. unfold same_label. by rewrite Hx.
  - change (<[S j := x]> (y :: r)) with (y :: <[j := x]> r).
    cbn [findIndex]. destruct (same_label label y); [done|].
    by rewrite (IH j).
Qed.

Lemma merge_step_lookup_found now l m i e :
  findIndex (month m) l = Some i -> l !! i = Some e ->
  merge_step now l m !! i = Some (merge_existing now e m).
Proof.
  intros Hi He. unfold merge_step. rewrite Hi, He.
  apply list_lookup_insert_eq. by eapply lookup_lt_Some.
Qed.

Lemma merge_step_lookup_other now l x i e :
  l !! i = Some e -> month e <> month x -> merge_step now l x !! i = Some e.
Proof.
  intros He Hne. unfold merge_step.
  destruct (findIndex (month x) l) as [j|] eqn:Hj.
  - destruct (findIndex_Some _ _ _ Hj) as (y & Hy & Hl & _). rewrite Hy.
    rewrite list_lookup_insert_ne; [done|].
    intros ->. rewrite Hy in He. injection He as ->. done.
  - by apply lookup_app_l_Some.
Qed.

Lemma merge_step_findIndex_found now l x label i :
  findIndex label l = Some i -> findIndex label (merge_step now l x) = Some i.
Proof.
  intros Hi. unfold merge_step.
  destruct (findIndex (month x) l) as [j|] eqn:Hj.
  - destruct (findIndex_Some _ _ _ Hj) as (y & Hy & _). rewrite Hy.
    by rewrite (findIndex_insert_label _ _ _ _ y).
  - by apply findIndex_app_l.
Qed.

Lemma merge_step_findIndex_other now l x label :
  month x <> label ->
  findIndex label (merge_step now l x) = findIndex label l.
Proof.
  intros Hne. unfold merge_step.
  destruct (findIndex (month x) l) as [j|] eqn:Hj.
  - destruct (findIndex_Some _ _ _ Hj) as (y & Hy & _). rewrite Hy.
    by rewrite (findIndex_insert_label _ _ _ _ y).
  - destruct (findIndex label l) as [i|] eqn:Hi.
    + by apply findIndex_app_l.
    + by apply findIndex_app_none.
Qed.

Lemma merge_step_length now l x :
  (List.length l <= List.length (merge_step now l x))%nat.
Proof.
  unfold merge_step. destruct (findIndex (month x) l) as [j|].
  - destruct (l !! j); [|done]. by rewrite length_insert.
  - rewrite length_app. lia.
Qed.

(** An entry whose label no incoming month carries goes through the whole
    merge as it is. *)
Lemma smart_merge_untouched now incoming : forall l i e,
  l !! i = Some e -> month e ∉ labels incoming ->
  smart_merge now l incoming !! i = Some e.
Proof.
  unfold smart_merge, labels.
  induction incoming as [|x r IH]; intros l i e He Hnot; cbn [fold_left];
    [done|].
  rewrite fmap_cons in Hnot. apply not_elem_of_cons in Hnot as [Hx Hr].
  apply IH; [|done]. by apply merge_step_lookup_other.
Qed.

(** With distinct incoming labels, the entry the whole merge leaves for an
    incoming month is the one its own step on the stored list produces. *)
Lemma smart_merge_found now incoming : forall l m i,
  NoDup (labels incoming) -> m ∈ incoming ->
  findIndex (month m) l = Some i ->
  smart_merge now l incoming !! i = merge_step now l m !! i.
Proof.
  induction incoming as [|x r IH]; intros l m i Hnd Hin Hi;
    [by apply elem_of_nil in Hin|].
  unfold labels in Hnd. rewrite fmap_cons in Hnd.
  apply NoDup_cons in Hnd as [Hx Hr].
  destruct (findIndex_Some _ _ _ Hi) as (e & He & Hl & _).
  change (smart_merge now l (x :: r))
    with (smart_merge now (merge_step now l x) r).
  apply elem_of_cons in Hin as [->|Hin].
  - rewrite (merge_step_lookup_found _ _ _ _ _ Hi He).
    apply smart_merge_untouched.
    + by apply merge_step_lookup_found.
    + cbn. by rewrite Hl.
  - assert (month x <> month m) as Hne.
    { intros E. apply Hx. rewrite E. apply list_elem_of_fmap. by exists m. }
    rewrite (IH (merge_step now l x) m i Hr Hin)
      by by apply merge_step_findIndex_found.
    rewrite (merge_step_lookup_found _ _ _ _ _ Hi He).
    apply merge_step_lookup_found; [by apply merge_step_findIndex_found|].
    apply merge_step_lookup_other; [done|]. by rewrite Hl.
Qed.

Lemma smart_merge_appended now incoming : forall l m,
  NoDup (labels incoming) -> m ∈ incoming ->
  findIndex (month m) l = None ->
  exists j,
    (List.length l <= j)%nat
    /\ smart_merge now l incoming !! j = Some (merge_new now m).
Proof.
  induction incoming as [|x r IH]; intros l m Hnd Hin Hi;
    [by apply elem_of_nil in Hin|].
  unfold labels in Hnd. rewrite fmap_cons in Hnd.
  apply NoDup_cons in Hnd as [Hx Hr].
  change (smart_merge now l (x :: r))
    with (smart_merge now (merge_step now l x) r).
  apply elem_of_cons in Hin as [->|Hin].
  - exists (List.length l). split; [done|].
    apply smart_merge_untouched; [|done].
    unfold merge_step. rewrite Hi. apply list_lookup_middle. done.
  - assert (month x <> month m) as Hne.
    { intros E. apply Hx. rewrite E. apply list_elem_of_fmap. by exists m. }
    destruct (IH (merge_step now l x) m Hr Hin) as (j & Hj & Hlook).
    { by rewrite merge_step_findIndex_other. }
    exists j. split; [|done].
    pose proof (merge_step_length now l x). lia.
Qed.

(** *** What the two merging handlers store *)

(** The refund prologue writes no voucher, income or transfer; it completes
    unless the voucher's owner id is no ObjectId string. *)
Lemma put_voucher_refund_vouchers oid upd s :
  (forall v, find_first (voucher_has_id oid) (vouchers s) = Some v ->
             vu_isRefund upd = false \/ ObjectId_isValid (userId v) = true) ->
  exists s1,
    put_voucher_refund oid upd s = (s1, Done tt)
    /\ vouchers s1 = vouchers s /\ incomes s1 = incomes s
    /\ collections s1 = collections s.
Proof.
  intros Hok. unfold put_voucher_refund.
  destruct (vu_months upd) as [ms|]; [|by exists s].
  destruct (vu_isRefund upd) eqn:Hrefund; [|by exists s].
  unfold mbind, M_bind, bind, get. simpl.
  destruct (find_first (voucher_has_id oid) (vouchers s)) as [v|];
    [|by exists s].
  destruct (Hok v eq_refl) as [?|Hvalid]; [done|].
  unfold ObjectId. rewrite Hvalid.
  destruct (existsb is_reversed_status ms && forallb is_reversed_status ms);
    [|by exists s].
  by eexists.
Qed.

Lemma put_voucher_refund_throws oid upd s v ms :
  find_first (voucher_has_id oid) (vouchers s) = Some v ->
  vu_months upd = Some ms -> vu_isRefund upd = true ->
  ObjectId_isValid (userId v) = false ->
  exists e, put_voucher_refund oid upd s = (s, Thrown e).
Proof.
  intros Hv Hms Hrefund Hbad. unfold put_voucher_refund.
  rewrite Hms, Hrefund. unfold mbind, M_bind, bind, get. simpl.
  rewrite Hv. unfold ObjectId. rewrite Hbad. by eexists.
Qed.

(** The months a merging [PUT] leaves in the voucher. *)
Lemma put_voucher_merge_stored c id oid upd s v ms :
  ObjectId id = Some oid ->
  find_first (voucher_has_id oid) (vouchers s) = Some v ->
  vu_months upd = Some ms ->
  str_is (vu_mode upd) "replace" = false ->
  vu_isRefund upd = false \/ ObjectId_isValid (userId v) = true ->
  (put_voucher c id upd s).2 = Resp 200 "Voucher updated successfully"
  /\ exists v',
       find_first (voucher_has_id oid) (vouchers (put_voucher c id upd s).1)
       = Some v'
       /\ userId v' = userId v
       /\ months v'
          = Some (sort_by_date
                    (smart_merge (now_ms c) (default [] (months v))
                       (sort_by_date ms))).
Proof.
  intros Hid Hv Hms Hmode Hok.
  unfold put_voucher. rewrite Hid. unfold catch_500, put_voucher_body.
  destruct (put_voucher_refund_vouchers oid upd s) as (s1 & Hr & Hvs & _).
  { intros v0 Hv0. rewrite Hv in Hv0. by injection Hv0 as <-. }
  unfold mbind, M_bind, bind, get, modify, ret. rewrite Hr. simpl.
  rewrite Hvs, Hv, Hms, Hmode. simpl.
  split; [done|].
  rewrite Hvs, find_update_first_same by (by intros x Hx).
  rewrite Hv. simpl. eexists. split; [done|]. done.
Qed.

(** The months a merging [POST] leaves in the voucher, whether or not the
    handler then fails. *)
Lemma post_vouchers_merge_stored c newId rq s v first rest :
  vr_months rq = Some (first :: rest) ->
  voucher_of (vr_userId rq) s = Some v ->
  let merged :=
    smart_merge (now_ms c) (default [] (months v))
      (sort_by_date (first :: rest)) in
  let s' := (post_vouchers c newId rq s).1 in
  users s' = users s
  /\ (exists v',
        voucher_of (vr_userId rq) s' = Some v'
        /\ months v' = Some (sort_by_date (convert_superbalance <$> merged)))
  /\ (existsb is_superbalance merged = true ->
      (post_vouchers c newId rq s).2 = Resp 500 "Error creating voucher"
      /\ incomes s' = incomes s)
  /\ (existsb is_superbalance merged = false ->
      (post_vouchers c newId rq s).2
      = Resp 200 "Voucher updated with months array"
      /\ incomes s' = credit_months (sort_by_date (first :: rest)) (incomes s)).
Proof.
  intros Hms Hv merged s'. subst s'.
  unfold post_vouchers, catch_500, post_vouchers_body. rewrite Hms.
  unfold mbind, M_bind, bind, get. rewrite Hv.
  unfold post_vouchers_merge, mbind, M_bind, bind, modify, throw, ret.
  fold merged.
  assert (forall f,
            (forall x, userId (f x) = userId x) ->
            find_first (of_user (vr_userId rq))
              (update_first (of_user (vr_userId rq)) f (vouchers s))
            = Some (f v)) as Hfind.
  { intros f Hf. rewrite find_update_first_same.
    - unfold voucher_of in Hv. by rewrite Hv.
    - intros x Hx. apply of_user_true. rewrite Hf. by apply of_user_true. }
  destruct (existsb is_superbalance merged) eqn:Hsb; simpl.
  - split; [done|]. split.
    + eexists. split; [unfold voucher_of; simpl; by apply Hfind|done].
    + split; [done|discriminate].
  - split; [done|]. split.
    + eexists. split; [unfold voucher_of; simpl; by apply Hfind|done].
    + split; [discriminate|done].
Qed.

(** C3 (amended).  In both merging handlers, an incoming month whose label
    an entry already has replaces the first such entry in place: the entry
    keeps its label, [packageFee] and [discount], takes [paidAmount],
    [status] and [paymentHistory] from the incoming month (the stored value
    when the incoming month has no such field; a [null] amount counts as 0),
    takes [paymentMethod] and [receivedBy] from the incoming month only when
    the resulting paid amount is positive, and has its remainder recomputed
    as [max(0, packageFee - discount - paidAmount)].  An incoming month with
    a new label is appended, with its own remainder recomputed.  Over a
    whole merge of months with distinct labels every incoming month is
    merged in this way, each against the stored list; no stored entry
    changes its place, label, fee or discount, and an entry whose label is
    not submitted is left as it is.  The list the handlers store is the
    merged list ([POST] first turns its superbalance months into unpaid
    ones) in ascending order of charge date, a permutation of it. *)
Theorem merge_discipline :
  (forall now merged incoming i,
     findIndex (month incoming) merged = Some i ->
     exists existing e',
       merged !! i = Some existing
       /\ month existing = month incoming
       /\ merge_step now merged incoming = <[i := e']> merged
       /\ month e' = month existing
       /\ packageFee e' = Some (num (packageFee existing))
       /\ discount e' = Some (num (discount existing))
       /\ paidAmount e'
          = Some (default (num (paidAmount existing)) (paidAmount incoming))
       /\ status e' = or_str (status incoming) (status existing)
       /\ paymentHistory e'
          = or_else (paymentHistory incoming) (paymentHistory existing)
       /\ paymentMethod e'
          = (if 0 <? num (paidAmount e')
             then or_str (paymentMethod incoming) (paymentMethod existing)
             else paymentMethod existing)
       /\ receivedBy e'
          = (if 0 <? num (paidAmount e')
             then or_str (receivedBy incoming) (receivedBy existing)
             else receivedBy existing)
       /\ remaining_ok e')
  /\ (forall now merged incoming,
        findIndex (month incoming) merged = None ->
        exists e',
          merge_step now merged incoming = merged ++ [e']
          /\ month e' = month incoming
          /\ packageFee e' = Some (num (packageFee incoming))
          /\ discount e' = Some (num (discount incoming))
          /\ paidAmount e' = Some (num (paidAmount incoming))
          /\ status e' = status incoming
          /\ paymentMethod e' = paymentMethod incoming
          /\ receivedBy e' = receivedBy incoming
          /\ paymentHistory e' = paymentHistory incoming
          /\ remaining_ok e')
  /\ (forall now existing incoming m,
        NoDup (labels incoming) -> m ∈ incoming ->
        match findIndex (month m) existing with
        | Some i =>
            smart_merge now existing incoming !! i
            = merge_step now existing m !! i
        | None =>
            exists j,
              (List.length existing <= j)%nat
              /\ smart_merge now existing incoming !! j
                 = merge_step now existing m !! List.length existing
        end)
  /\ (forall now existing incoming i e,
        existing !! i = Some e ->
        (exists e',
           smart_merge now existing incoming !! i = Some e'
           /\ month e' = month e
           /\ num (packageFee e') = num (packageFee e)
           /\ num (discount e') = num (discount e))
        /\ (month e ∉ labels incoming ->
            smart_merge now existing incoming !! i = Some e))
  /\ (forall c id oid upd s v ms,
        ObjectId id = Some oid ->
        find_first (voucher_has_id oid) (vouchers s) = Some v ->
        vu_months upd = Some ms ->
        str_is (vu_mode upd) "replace" = false ->
        vu_isRefund upd = false \/ ObjectId_isValid (userId v) = true ->
        exists v',
          find_first (voucher_has_id oid) (vouchers (put_voucher c id upd s).1)
          = Some v'
          /\ months v'
             = Some (sort_by_date
                       (smart_merge (now_ms c) (default [] (months v))
                          (sort_by_date ms))))
  /\ (forall c newId rq s v first rest,
        vr_months rq = Some (first :: rest) ->
        voucher_of (vr_userId rq) s = Some v ->
        exists v',
          voucher_of (vr_userId rq) (post_vouchers c newId rq s).1 = Some v'
          /\ months v'
             = Some (sort_by_date
                       (convert_superbalance <$>
                        smart_merge (now_ms c) (default [] (months v))
                          (sort_by_date (first :: rest)))))
  /\ (forall l,
        StronglySorted (by_key date_key) (sort_by_date l)
        /\ sort_by_date l ≡ₚ l).
Proof.
  split; [|split; [|split; [|split; [|split; [|split]]]]].
  - intros now merged incoming i Hi.
    destruct (findIndex_Some _ _ _ Hi) as (existing & He & Hl & _).
    exists existing, (merge_existing now existing incoming).
    split; [done|]. split; [done|]. split.
    { unfold merge_step. by rewrite Hi, He. }
    unfold remaining_ok. simpl.
    destruct (paidAmount incoming); simpl; repeat split.
  - intros now merged incoming Hi. exists (merge_new now incoming).
    split; [unfold merge_step; by rewrite Hi|].
    unfold remaining_ok. simpl. repeat split.
  - intros now existing incoming m Hnd Hin.
    destruct (findIndex (month m) existing) as [i|] eqn:Hi.
    + by apply smart_merge_found.
    + destruct (smart_merge_appended now incoming existing m Hnd Hin Hi)
        as (j & Hj & Hlook).
      exists j. split; [done|]. rewrite Hlook.
      unfold merge_step. rewrite Hi. symmetry. by apply list_lookup_middle.
  - intros now existing incoming i e He. split.
    + by apply smart_merge_keeps_charge.
    + by apply smart_merge_untouched.
  - intros c id oid upd s v ms Hid Hv Hms Hmode Hok.
    destruct (put_voucher_merge_stored c id oid upd s v ms Hid Hv Hms Hmode Hok)
      as (_ & v' & Hv' & _ & Hm').
    by exists v'.
  - intros c newId rq s v first rest Hms Hv.
    by destruct (post_vouchers_merge_stored c newId rq s v first rest Hms Hv)
      as (_ & Hstored & _).
  - intros l. split; [apply sort_by_sorted|apply sort_by_perm].
Qed.

(** C3, as stated, fails: when the resulting paid amount is not positive
    the merge keeps the stored [paymentMethod] and ignores the incoming one.
    Here a month paid in cash is sent back as unpaid with method
    ['Not Paid']; the stored method stays ['Cash']. *)
Lemma merge_keeps_method_when_unpaid :
  ~ (forall (c : clock) (id : string) (upd : voucher_update) (s : db)
            (v : voucher) (existing incoming : month_entry),
       ObjectId id = Some id ->
       find_first (voucher_has_id id) (vouchers s) = Some v ->
       months v = Some [existing] ->
       vu_months upd = Some [incoming] ->
       str_is (vu_mode upd) "replace" = false ->
       month existing = month incoming ->
       exists v' e',
         find_first (voucher_has_id id) (vouchers (put_voucher c id upd s).1)
         = Some v'
         /\ months v' = Some [e']
         /\ paymentMethod e'
            = or_str (paymentMethod incoming) (paymentMethod existing)).
Proof.
  intros H.
  pose (existing :=
    {| month := "October 2025"; packageFee := Some 1500; discount := Some 0;
       paidAmount := Some 1500; remainingAmount := Some 0;
       status := Some "paid"; paymentMethod := Some "Cash";
       receivedBy := Some "Ali"; paymentHistory := None;
       paymentType := Some "now"; description := None;
       date := Some 1759449600000; createdAt := Some 1759449600000;
       updatedAt := None; refundDate := None; refundedAmount := None |}).
  pose (incoming :=
    {| month := "October 2025"; packageFee := Some 1500; discount := Some 0;
       paidAmount := Some 0; remainingAmount := Some 1500;
       status := Some "unpaid"; paymentMethod := Some "Not Paid";
       receivedBy := None; paymentHistory := None;
       paymentType := None; description := None;
       date := Some 1759449600000; createdAt := None;
       updatedAt := None; refundDate := None; refundedAmount := None |}).
  pose (v := Voucher "66b1b2c3d4e5f60718293a4b" "65a1b2c3d4e5f60718293a4b" "Aamir" None (ExpDashed 3 11 2025)
               (Some [existing]) no_month None None).
  destruct (H noon_3_nov_2025 "66b1b2c3d4e5f60718293a4b"
              (VoucherUpdate (Some [incoming]) None None false None)
              (Db [] [v] [] []) v existing incoming)
    as (v' & e' & Hv' & Hm' & Hpm); try reflexivity.
  vm_compute in Hv'. injection Hv' as <-.
  injection Hm' as <-. vm_compute in Hpm. discriminate.
Qed.

Lemma merge_discipline_witness :
  let existing :=
    {| month := "October 2025"; packageFee := Some 1500; discount := Some 100;
       paidAmount := Some 0; remainingAmount := Some 1400;
       status := Some "unpaid"; paymentMethod := Some "Pending";
       receivedBy := Some ""; paymentHistory := None;
       paymentType := Some "later"; description := None;
       date := Some 1759449600000; createdAt := Some 1759449600000;
       updatedAt := None; refundDate := None; refundedAmount := None |} in
  let incoming :=
    {| month := "October 2025"; packageFee := Some 2000; discount := Some 0;
       paidAmount := Some 800; remainingAmount := Some 1200;
       status := Some "partial"; paymentMethod := Some "Cash";
       receivedBy := Some "Ali"; paymentHistory := None;
       paymentType := None; description := None;
       date := None; createdAt := None;
       updatedAt := None; refundDate := None; refundedAmount := None |} in
  exists e',
    merge_step 1762153200000 [existing] incoming = [e']
    /\ packageFee e' = Some 1500 /\ discount e' = Some 100
    /\ paidAmount e' = Some 800 /\ remainingAmount e' = Some 600
    /\ paymentMethod e' = Some "Cash".
Proof.
  intros existing incoming.
  destruct merge_discipline as (Hstep & _).
  destruct (Hstep 1762153200000 [existing] incoming 0%nat eq_refl)
    as (x & e' & Hx & _ & Hm & _ & Hf & Hd & Hp & _ & _ & Hpm & _ & Hr).
  injection Hx as <-.
  exists e'. split; [exact Hm|].
  split; [exact Hf|]. split; [exact Hd|]. split; [exact Hp|].
  split.
  - unfold remaining_ok in Hr. rewrite Hr, Hf, Hd, Hp. reflexivity.
  - rewrite Hpm, Hp. reflexivity.
Defined.

(** ** The superbalance conversion *)

(** C10 (the code departs from the claim).  A [POST] merge on a voucher with
    a superbalance month stores the converted month and then fails: the
    request is answered with status 500, the subscriber keeps its old status
    and amounts, and no income is credited.  The merging [PUT] does not
    convert at all: the month stays superbalance. *)
Theorem superbalance_merge_fails :
  let s := Db [sample_user "65a1b2c3d4e5f60718293a4b" "Aamir" "superbalance" (ExpDashed 3 12 2025)]
              [sample_superbalance_voucher 1500 0] [] [] in
  let posted := post_vouchers noon_3_nov_2025 "66b2b2c3d4e5f60718293a4b" sample_next_month_request s in
  let put :=
    put_voucher noon_3_nov_2025 "66b1b2c3d4e5f60718293a4b"
      (VoucherUpdate (vr_months sample_next_month_request) None None false None)
      s in
  posted.2 = Resp 500 "Error creating voucher"
  /\ (status <$> months_of "65a1b2c3d4e5f60718293a4b" posted.1) = [Some "paid"; Some "unpaid"]
  /\ (remainingAmount <$> months_of "65a1b2c3d4e5f60718293a4b" posted.1) = [Some 0; Some 1500]
  /\ (u_status <$> user_of "65a1b2c3d4e5f60718293a4b" posted.1) = Some (Some "superbalance")
  /\ (u_remainingAmount <$> user_of "65a1b2c3d4e5f60718293a4b" posted.1) = Some (Some 0)
  /\ incomes posted.1 = []
  /\ put.2 = Resp 200 "Voucher updated successfully"
  /\ (status <$> months_of "65a1b2c3d4e5f60718293a4b" put.1) = [Some "paid"; Some "superbalance"]
  /\ (u_status <$> user_of "65a1b2c3d4e5f60718293a4b" put.1) = Some (Some "superbalance").
Proof. vm_compute. repeat split. Qed.

(** Whenever a superbalance month is part of a [POST] merge, the handler
    answers 500 and touches neither the subscribers nor the incomes. *)
Lemma superbalance_merge_always_fails c newId rq s v first rest :
  vr_months rq = Some (first :: rest) ->
  voucher_of (vr_userId rq) s = Some v ->
  existsb is_superbalance
    (smart_merge (now_ms c) (default [] (months v))
       (sort_by_date (first :: rest))) = true ->
  (post_vouchers c newId rq s).2 = Resp 500 "Error creating voucher"
  /\ users (post_vouchers c newId rq s).1 = users s
  /\ incomes (post_vouchers c newId rq s).1 = incomes s.
Proof.
  intros Hms Hv Hsb.
  destruct (post_vouchers_merge_stored c newId rq s v first rest Hms Hv)
    as (Hu & _ & Hfail & _).
  destruct (Hfail Hsb) as [Hr Hi]. done.
Qed.

(** ** The remainder invariant *)

(** C2 (the code departs from the claim).  The superbalance conversion
    writes [packageFee - discount] without the clamp the merge and the
    rollover apply.  On a voucher whose months all satisfy the invariant, a
    superbalance month with fee 500 and discount 800 comes out of a merge
    with a remainder of -300. *)
Theorem superbalance_conversion_breaks_remainder :
  let s := Db [sample_user "65a1b2c3d4e5f60718293a4b" "Aamir" "superbalance" (ExpDashed 3 12 2025)]
              [sample_superbalance_voucher 500 800] [] [] in
  let s' := (post_vouchers noon_3_nov_2025 "66b2b2c3d4e5f60718293a4b" sample_next_month_request s).1 in
  Forall remaining_ok (months_of "65a1b2c3d4e5f60718293a4b" s)
  /\ exists m,
       m ∈ months_of "65a1b2c3d4e5f60718293a4b" s'
       /\ isReversed m = false
       /\ packageFee m = Some 500 /\ discount m = Some 800
       /\ paidAmount m = Some 0
       /\ remainingAmount m = Some (-300)
       /\ ~ remaining_ok m.
Proof.
  split.
  - vm_compute. repeat constructor.
  - eexists. split.
    + vm_compute. apply list_elem_of_further, list_elem_of_here.
    + vm_compute. repeat split. discriminate.
Qed.

(** The merge loop and the rollover keep the invariant. *)
Lemma merge_step_remaining_ok now merged incoming :
  Forall remaining_ok merged ->
  Forall remaining_ok (merge_step now merged incoming).
Proof.
  intros Hm. unfold merge_step.
  destruct (findIndex (month incoming) merged) as [i|].
  - destruct (merged !! i) as [existing|]; [|done].
    apply Forall_insert; [done|]. unfold remaining_ok. done.
  - apply Forall_app. split; [done|].
    constructor; [|constructor]. unfold remaining_ok. done.
Qed.

Lemma smart_merge_remaining_ok now incoming : forall existing,
  Forall remaining_ok existing ->
  Forall remaining_ok (smart_merge now existing incoming).
Proof.
  unfold smart_merge. induction incoming as [|x r IH]; intros existing He;
    simpl; [done|].
  apply IH. by apply merge_step_remaining_ok.
Qed.

(** The month a conversion to unpaid writes carries a refund date: it counts
    as reversed, so its unclamped remainder is outside the invariant. *)
Lemma converted_month_reversed now fee disc m :
  isReversed (converted_month now fee disc m) = true.
Proof. done. Qed.

Lemma newMonth_remaining_ok c u cur : remaining_ok (newMonth c u cur).
Proof. unfold remaining_ok. simpl. f_equal. lia. Qed.

(** ** Status derivation *)

Lemma voucher_has_id_true id v : voucher_has_id id v = true <-> v_id v = id.
Proof. unfold voucher_has_id. apply String.eqb_eq. Qed.

Lemma voucher_has_id_false id v : voucher_has_id id v = false <-> v_id v <> id.
Proof. unfold voucher_has_id. apply String.eqb_neq. Qed.

(** With unique voucher ids, the update by [_id] of the voucher found for a
    subscriber rewrites that very voucher. *)
Lemma voucher_update_by_id (vs : list voucher) (v : voucher) (id : string)
    (f : voucher -> voucher) :
  NoDup (v_id <$> vs) ->
  find_first (of_user id) vs = Some v ->
  (forall x, userId (f x) = userId x) ->
  find_first (of_user id) (update_first (voucher_has_id (v_id v)) f vs)
  = Some (f v).
Proof.
  intros Hnd Hv Hf. unfold find_first in *.
  induction vs as [|x r IH]; [done|].
  rewrite fmap_cons in Hnd. apply NoDup_cons in Hnd as [Hx Hr].
  cbn [find update_first] in *.
  destruct (of_user id x) eqn:Hox.
  - injection Hv as <-.
    assert (voucher_has_id (v_id x) x = true) as ->
      by by apply voucher_has_id_true.
    cbn [find].
    assert (of_user id (f x) = true) as ->; [|done].
    apply of_user_true. rewrite Hf. by apply of_user_true.
  - assert (voucher_has_id (v_id v) x = false) as ->.
    { apply voucher_has_id_false. intros E. apply Hx. rewrite E.
      apply find_some in Hv as [Hin _].
      apply list_elem_of_fmap. exists v. split; [done|].
      by apply list_elem_of_In. }
    cbn [find]. rewrite Hox. by apply IH.
Qed.

Lemma existsb_elem {A} (p : A -> bool) (l : list A) (x : A) :
  x ∈ l -> p x = true -> existsb p l = true.
Proof.
  intros Hin Hp. apply existsb_exists. exists x.
  split; [by apply list_elem_of_In|done].
Qed.

(** What a conversion that finds its month writes: the voucher and the
    income record first, the subscriber only when the request's [userId]
    is the text of an ObjectId. *)
Lemma convert_to_unpaid_ok c rq s v ms i :
  cr_userId rq <> "" -> cr_month rq <> "" ->
  voucher_of (cr_userId rq) s = Some v ->
  months v = Some ms ->
  findIndex (cr_month rq) ms = Some i ->
  let monthData := default no_month (ms !! i) in
  let fee := default (num (packageFee monthData)) (cr_newPackageFee rq) in
  let disc := default (num (discount monthData)) (cr_newDiscount rq) in
  let updatedMonths := <[i := converted_month (now_ms c) fee disc monthData]> ms in
  let s' := (convert_to_unpaid c rq s).1 in
  (convert_to_unpaid c rq s).2
  = (if ObjectId_isValid (cr_userId rq)
     then Resp 200 ("Month " +:+ cr_month rq
                    +:+ " successfully converted to unpaid")
     else Resp 500 "Error converting month to unpaid")
  /\ users s'
     = match ObjectId (cr_userId rq) with
       | Some oid =>
           update_first (has_id oid)
             (set_user_totals (convert_newStatus updatedMonths)
                (Some (convert_newStatus updatedMonths))
                (sum_of (fun m => num (paidAmount m)) (non_reversed updatedMonths))
                (sum_of (fun m => num (remainingAmount m))
                   (non_reversed updatedMonths)))
             (users s)
       | None => users s
       end
  /\ vouchers s'
     = update_first (voucher_has_id (v_id v))
         (set_voucher_months updatedMonths) (vouchers s)
  /\ incomes s'
     = (if (0 <? num (paidAmount monthData))
           && negb (String.eqb (default "" (or_str (receivedBy monthData) None)) "")
        then debit_bucket (default "" (or_str (receivedBy monthData) None))
               (is_bank_method
                  (default "Cash" (or_str (paymentMethod monthData) None)))
               (num (paidAmount monthData)) (incomes s)
        else incomes s).
Proof.
  intros Hu Hm Hv Hms Hi. unfold convert_to_unpaid.
  apply String.eqb_neq in Hu, Hm. rewrite Hu, Hm, Hv, Hms, Hi.
  cbn [orb]. unfold ObjectId.
  destruct (ObjectId_isValid (cr_userId rq));
    destruct (cr_newPackageFee rq), (cr_newDiscount rq); done.
Qed.

(** C1 (amended).  After a status recalculation of a subscriber, the stored
    status is ['unpaid'] whenever some non-reversed charge of the
    subscriber's vouchers is unpaid and the remainders of the non-reversed
    charges add up to more than zero. *)
Theorem unpaid_month_dominates (id oid : string) (s : db) (u : user)
    (v : voucher) (fee : option Z) (m : month_entry) :
  ObjectId id = Some oid ->
  user_of oid s = Some u ->
  v ∈ vouchers_for id u s ->
  (fee, m) ∈ charges v ->
  isReversed m = false -> status m = Some "unpaid" ->
  0 < recalc_totalRemaining (vouchers_for id u s) ->
  exists u',
    user_of oid (recalculate_status id s).1 = Some u'
    /\ u_status u' = Some "unpaid".
Proof.
  intros Hid Hu Hvs Hm Hrev Hst Hpos.
  unfold recalculate_status. rewrite Hid, Hu.
  set (vs := vouchers_for id u s) in *.
  assert (recalc_hasUnpaidMonth vs = true) as Hun.
  { unfold recalc_hasUnpaidMonth, live_charges.
    apply (existsb_elem _ _ (fee, m)).
    - apply list_elem_of_filter. split.
      + apply Is_true_true. simpl. by rewrite Hrev.
      + apply list_elem_of_bind. by exists v.
    - unfold is_unpaid. simpl. by rewrite Hst. }
  assert (calculatedStatus vs = "unpaid") as Hcalc.
  { unfold calculatedStatus.
    destruct (Z.leb_spec (recalc_totalRemaining vs) 0); [lia|].
    by rewrite Hun. }
  destruct vs as [|v0 r] eqn:Evs; [by apply elem_of_nil in Hvs|].
  cbn [fst]. unfold user_of in *. cbn [users set_users].
  rewrite find_update_first_same, Hu by (by intros x Hx).
  eexists. split; [done|]. simpl. by rewrite Hcalc.
Qed.

Lemma unpaid_month_dominates_witness :
  exists u',
    user_of "65a1b2c3d4e5f60718293a4b"
      (recalculate_status "65a1b2c3d4e5f60718293a4b"
         (Db [sample_user "65a1b2c3d4e5f60718293a4b" "Aamir" "paid" (ExpDashed 3 12 2025)]
             [sample_open_voucher 1500 0] [] [])).1 = Some u'
    /\ u_status u' = Some "unpaid".
Proof.
  eapply (unpaid_month_dominates "65a1b2c3d4e5f60718293a4b" _ _
            (sample_user "65a1b2c3d4e5f60718293a4b" "Aamir" "paid"
               (ExpDashed 3 12 2025))
            (sample_open_voucher 1500 0) (Some 1500)
            (sample_unpaid_month 1500 0)).
  - reflexivity.
  - reflexivity.
  - vm_compute. apply list_elem_of_here.
  - apply list_elem_of_further, list_elem_of_here.
  - reflexivity.
  - reflexivity.
  - vm_compute. reflexivity.
Defined.

(** C1, as stated, fails: the recalculation tests the total remainder first.
    A subscriber whose discount covers the whole fee gets, at rollover, an
    unpaid month with nothing left to pay; with that month open the
    recalculated status is ['paid']. *)
Lemma recalculation_prefers_paid :
  ~ (forall (id : string) (s : db) (u : user) (v : voucher)
            (ms : list month_entry) (m : month_entry),
       ObjectId id = Some id ->
       user_of id s = Some u ->
       v ∈ vouchers s -> userId v = id ->
       months v = Some ms -> m ∈ ms ->
       isReversed m = false -> status m = Some "unpaid" ->
       exists u',
         user_of id (recalculate_status id s).1 = Some u'
         /\ u_status u' = Some "unpaid").
Proof.
  intros H.
  destruct (H "65a1b2c3d4e5f60718293a4b"
              (Db [sample_user "65a1b2c3d4e5f60718293a4b" "Aamir" "paid" (ExpDashed 3 12 2025)]
                  [sample_open_voucher 1000 1000] [] [])
              (sample_user "65a1b2c3d4e5f60718293a4b" "Aamir" "paid" (ExpDashed 3 12 2025))
              (sample_open_voucher 1000 1000)
              [sample_paid_month; sample_unpaid_month 1000 1000]
              (sample_unpaid_month 1000 1000))
    as (u' & Hu & Hst); try reflexivity.
  - apply list_elem_of_here.
  - apply list_elem_of_further, list_elem_of_here.
  - vm_compute in Hu. injection Hu as <-. discriminate.
Qed.

(** The conversion to unpaid stamps [refundDate] on the month it converts,
    and the status it then writes looks at months without that stamp only:
    converting November of a voucher whose October and November are paid
    leaves the subscriber ['paid'] with an open unpaid November. *)
Lemma convert_to_unpaid_hides_converted_month :
  let s := Db [sample_user "65a1b2c3d4e5f60718293a4b" "Aamir" "paid"
                 (ExpDashed 3 12 2025)]
              [sample_paid_voucher] [Income "Ali" (Some 5000) (Some 0)] [] in
  let s' := (convert_to_unpaid noon_3_nov_2025
               (ConvertRequest "65a1b2c3d4e5f60718293a4b" "November 2025"
                  None None) s).1 in
  (status <$> months_of "65a1b2c3d4e5f60718293a4b" s')
  = [Some "paid"; Some "unpaid"]
  /\ (u_status <$> user_of "65a1b2c3d4e5f60718293a4b" s') = Some (Some "paid").
Proof. vm_compute. split; reflexivity. Qed.

(** The status written after reversed payments are processed does not read
    the unpaid flag it computes: an open unpaid month next to a paid one
    gives ['partial']. *)
Lemma process_payment_ignores_unpaid :
  process_payment_status [sample_open_voucher 1500 0] = "partial".
Proof. reflexivity. Qed.

(** ** The income ledger *)





Lemma find_first_existsb {A} (p : A -> bool) (l : list A) :
  existsb p l = match find_first p l with Some _ => true | None => false end.
Proof.
  unfold find_first. induction l as [|y r IH]; simpl; [done|].
  by destruct (p y).
Qed.


Lemma or_str_nonempty (r : string) (b : option string) :
  r <> "" -> or_str (Some r) b = Some r.
Proof.
  intros Hne. unfold or_str, truthy_str.
  apply String.eqb_neq in Hne. by rewrite Hne.
Qed.







(** ** Reversal and re-payment *)

Lemma findIndex_insert_same label l i x :
  findIndex label l = Some i -> month x = label ->
  findIndex label (<[i := x]> l) = Some i.
Proof.
  revert i. induction l as [|y r IH]; intros i; simpl; [done|].
  unfold same_label. destruct (String.eqb_spec (month y) label) as [E|E].
  - intros [= <-] Hx. simpl. unfold same_label.
    by rewrite Hx, String.eqb_refl.
  - destruct (findIndex label r) as [k|] eqn:Hk; simpl; [|done].
    intros [= <-] Hx. simpl. unfold same_label.
    destruct (String.eqb_spec (month y) label); [done|].
    by rewrite (IH k eq_refl Hx).
Qed.

Lemma convert_superbalance_none l :
  existsb is_superbalance l = false -> convert_superbalance <$> l = l.
Proof.
  induction l as [|x r IH]; [done|].
  cbn [existsb]. intros H. apply orb_false_iff in H as [Hx Hr].
  rewrite fmap_cons, (IH Hr). f_equal.
  unfold convert_superbalance. unfold is_superbalance in Hx. by rewrite Hx.
Qed.

Lemma existsb_insert_false {A} (p : A -> bool) (l : list A) (i : nat) (x : A) :
  existsb p l = false -> p x = false -> existsb p (<[i := x]> l) = false.
Proof.
  revert i. induction l as [|y r IH]; intros i; [done|].
  cbn [existsb]. intros H Hx. apply orb_false_iff in H as [Hy Hr].
  destruct i as [|i]; simpl.
  - by rewrite Hx, Hr.
  - by rewrite Hy, (IH i Hr Hx).
Qed.

Lemma credit_cash_existing name amount l r :
  find_first (named name) l = Some r ->
  find_first (named name) (credit_cash name amount l)
  = Some {| i_name := i_name r;
            cashIncome := Some (num (cashIncome r) + amount);
            bankIncome := bankIncome r |}.
Proof.
  intros Hr. unfold credit_cash. rewrite find_first_existsb, Hr.
  rewrite find_update_first_same by (by intros x Hx). by rewrite Hr.
Qed.

Lemma credit_repayment incoming m p r l :
  repays incoming m p r -> 0 < p -> r <> "" ->
  credit_months [incoming] l = credit_cash r p l.
Proof.
  intros (_ & Hp & Hst & Hr & Hh) Hpos Hne.
  unfold credit_months, credit_month. simpl. rewrite Hst. simpl.
  apply String.eqb_neq in Hne.
  destruct (Z.ltb_spec 0 p); [|lia].
  destruct Hh as [->|[pm ->]]; simpl.
  - unfold truthy_str. rewrite Hr, Hp, Hne. simpl.
    by destruct (Z.ltb_spec 0 p); [|lia].
  - unfold or_str, truthy_str. rewrite Hne. simpl.
    by destruct (Z.ltb_spec 0 p); [|lia].
Qed.

(** C7 (amended).  Take a fully paid month of a voucher without
    superbalance months, whose receiver has an income record holding at
    least the paid amount in the bucket of the payment method.  Converting
    the month to unpaid and paying it again in full to the same receiver
    leaves the month paid with its remainder back at the value before the
    conversion, and leaves the sum of the receiver's cash and bank totals
    as it was; for a cash payment each of the two totals is back at its
    value, for a bank payment the amount has moved from the bank total to
    the cash total. *)
Theorem reversal_repayment_roundtrip (c1 c2 : clock) (newId : string)
    (s : db) (v : voucher) (ms : list month_entry) (i : nat)
    (m incoming : month_entry) (p : Z) (r : string) (rec : income)
    (rq : voucher_request) :
  NoDup (v_id <$> vouchers s) ->
  userId v <> "" -> month m <> "" ->
  voucher_of (userId v) s = Some v ->
  months v = Some ms ->
  findIndex (month m) ms = Some i -> ms !! i = Some m ->
  existsb is_superbalance ms = false ->
  paidAmount m = Some p -> 0 < p ->
  num (packageFee m) - num (discount m) = p ->
  remainingAmount m = Some 0 ->
  receivedBy m = Some r -> r <> "" ->
  find_first (named r) (incomes s) = Some rec ->
  let isBank :=
    is_bank_method (default "Cash" (or_str (paymentMethod m) None)) in
  p <= num (if isBank then bankIncome rec else cashIncome rec) ->
  vr_userId rq = userId v -> vr_months rq = Some [incoming] ->
  repays incoming m p r ->
  let s1 :=
    (convert_to_unpaid c1 (ConvertRequest (userId v) (month m) None None) s).1 in
  let s2 := (post_vouchers c2 newId rq s1).1 in
  (exists e,
     months_of (userId v) s2 = sort_by_date (<[i := e]> ms)
     /\ month e = month m
     /\ status e = Some "paid"
     /\ paidAmount e = paidAmount m
     /\ remainingAmount e = remainingAmount m)
  /\ (exists rec2,
        find_first (named r) (incomes s2) = Some rec2
        /\ num (cashIncome rec2) + num (bankIncome rec2)
           = num (cashIncome rec) + num (bankIncome rec)
        /\ (isBank = false ->
            num (cashIncome rec2) = num (cashIncome rec)
            /\ bankIncome rec2 = bankIncome rec)
        /\ (isBank = true ->
            num (bankIncome rec2) = num (bankIncome rec) - p
            /\ num (cashIncome rec2) = num (cashIncome rec) + p)).
Proof.
  intros Hnd Huid Hlabel Hv Hms Hi Hm Hnosb Hp Hpos Hfull Hrem Hr Hrne Hrec
         isBank Hcover Hrqid Hrqms Hrepay s1 s2.
  (* the conversion *)
  destruct (convert_to_unpaid_ok c1
              (ConvertRequest (userId v) (month m) None None) s v ms i
              Huid Hlabel Hv Hms Hi) as (_ & _ & Hvs1 & Hin1).
  cbn [cr_userId cr_month cr_newPackageFee cr_newDiscount default] in Hvs1, Hin1.
  rewrite Hm in Hvs1, Hin1. cbn [default] in Hvs1, Hin1.
  unfold id in Hvs1, Hin1. fold s1 in Hvs1, Hin1.
  set (converted :=
         converted_month (now_ms c1) (num (packageFee m)) (num (discount m)) m)
    in *.
  assert (voucher_of (userId v) s1
          = Some (set_voucher_months (<[i := converted]> ms) v)) as Hv1.
  { unfold voucher_of. rewrite Hvs1. by apply voucher_update_by_id. }
  assert (incomes s1 = debit_bucket r isBank p (incomes s)) as Hin1'.
  { rewrite Hin1, Hp, Hr, !(or_str_nonempty _ _ Hrne).
    cbn [num default from_option]. apply String.eqb_neq in Hrne.
    rewrite Hrne. unfold id. destruct (Z.ltb_spec 0 p); [done|lia]. }
  (* the merge of the re-payment *)
  pose proof Hrepay as (Hil & Hip & Hist & Hir & _).
  assert (findIndex (month incoming) (<[i := converted]> ms) = Some i) as Hi1.
  { rewrite Hil. by apply findIndex_insert_same. }
  set (e := merge_existing (now_ms c2) converted incoming).
  assert (smart_merge (now_ms c2) (<[i := converted]> ms) (sort_by_date [incoming])
          = <[i := e]> ms) as Hmerged.
  { cbn. unfold merge_step. rewrite Hi1.
    rewrite list_lookup_insert_eq by (by eapply lookup_lt_Some).
    by rewrite list_insert_insert_eq. }
  assert (status e = Some "paid") as Hste.
  { subst e. simpl. by rewrite Hist. }
  assert (existsb is_superbalance (<[i := e]> ms) = false) as Hnosb'.
  { apply existsb_insert_false; [done|].
    unfold is_superbalance. by rewrite Hste. }
  rewrite <- Hrqid in Hv1.
  destruct (post_vouchers_merge_stored c2 newId rq s1 _ incoming [] Hrqms Hv1)
    as (_ & (v2 & Hv2 & Hms2) & _ & Hcredit).
  assert (default [] (months (set_voucher_months (<[i := converted]> ms) v))
          = <[i := converted]> ms) as Hdef by done.
  rewrite Hdef, Hmerged in Hms2, Hcredit.
  destruct (Hcredit Hnosb') as [_ Hin2].
  fold s2 in Hv2, Hin2. rewrite Hrqid in Hv2.
  split.
  - exists e. split.
    { unfold months_of. rewrite Hv2, Hms2. simpl.
      by rewrite (convert_superbalance_none _ Hnosb'). }
    split; [done|]. split; [done|].
    subst e. simpl. rewrite Hip, Hp, Hrem. split; [done|].
    f_equal. lia.
  - change (sort_by_date [incoming]) with [incoming] in Hin2.
    rewrite (credit_repayment _ _ _ _ _ Hrepay Hpos Hrne), Hin1' in Hin2.
    assert (find_first (named r) (debit_bucket r isBank p (incomes s))
            = Some (if isBank
                    then {| i_name := i_name rec; cashIncome := cashIncome rec;
                            bankIncome := Some (Z.max 0 (num (bankIncome rec) - p)) |}
                    else {| i_name := i_name rec;
                            cashIncome := Some (Z.max 0 (num (cashIncome rec) - p));
                            bankIncome := bankIncome rec |})) as Hdeb.
    { unfold debit_bucket.
      rewrite find_update_first_same.
      - rewrite Hrec. simpl. by destruct isBank.
      - intros x Hx. by destruct isBank. }
    rewrite Hin2, (credit_cash_existing _ _ _ _ Hdeb).
    eexists. split; [done|].
    destruct isBank; simpl in *; repeat split; try discriminate; try lia.
Qed.

Lemma reversal_repayment_roundtrip_witness :
  let s := Db [sample_user "65a1b2c3d4e5f60718293a4b" "Aamir" "paid" (ExpDashed 3 12 2025)]
              [sample_open_voucher 1500 0]
              [Income "Ali" (Some 2000) (Some 300)] [] in
  let s1 :=
    (convert_to_unpaid noon_3_nov_2025
       (ConvertRequest "65a1b2c3d4e5f60718293a4b" "October 2025" None None) s).1 in
  let s2 := (post_vouchers noon_3_nov_2025 "66b2b2c3d4e5f60718293a4b" sample_repay_request s1).1 in
  find_first (named "Ali") (incomes s1) = Some (Income "Ali" (Some 500) (Some 300))
  /\ exists rec2,
       find_first (named "Ali") (incomes s2) = Some rec2
       /\ num (cashIncome rec2) + num (bankIncome rec2) = 2000 + 300.
Proof.
  intros s s1 s2. split; [reflexivity|].
  destruct (reversal_repayment_roundtrip noon_3_nov_2025 noon_3_nov_2025 "66b2b2c3d4e5f60718293a4b"
              s (sample_open_voucher 1500 0)
              [sample_paid_month; sample_unpaid_month 1500 0] 0%nat
              sample_paid_month sample_repaid_month 1500 "Ali"
              (Income "Ali" (Some 2000) (Some 300)) sample_repay_request)
    as (_ & rec2 & Hrec2 & Hsum & _);
    try reflexivity; try discriminate.
  - apply NoDup_singleton.
  - repeat split. by left.
  - exists rec2. split; [exact Hrec2|exact Hsum].
Defined.

(** C7, as stated, fails: the debit of the conversion is clamped at zero
    while the credit of the re-payment is not.  A receiver whose cash total
    stands at 1000 loses 1000 when a payment of 1500 is converted to unpaid
    and gains 1500 when it is paid again. *)
Lemma roundtrip_gains_when_clamped :
  ~ (forall (c1 c2 : clock) (newId : string) (s : db) (v : voucher)
            (ms : list month_entry) (i : nat) (m incoming : month_entry)
            (p : Z) (r : string) (rec : income) (rq : voucher_request),
       NoDup (v_id <$> vouchers s) ->
       userId v <> "" -> month m <> "" ->
       voucher_of (userId v) s = Some v ->
       months v = Some ms ->
       findIndex (month m) ms = Some i -> ms !! i = Some m ->
       existsb is_superbalance ms = false ->
       paidAmount m = Some p -> 0 < p ->
       num (packageFee m) - num (discount m) = p ->
       remainingAmount m = Some 0 ->
       receivedBy m = Some r -> r <> "" ->
       find_first (named r) (incomes s) = Some rec ->
       vr_userId rq = userId v -> vr_months rq = Some [incoming] ->
       repays incoming m p r ->
       let s1 :=
         (convert_to_unpaid c1
            (ConvertRequest (userId v) (month m) None None) s).1 in
       let s2 := (post_vouchers c2 newId rq s1).1 in
       exists rec2,
         find_first (named r) (incomes s2) = Some rec2
         /\ num (cashIncome rec2) + num (bankIncome rec2)
            = num (cashIncome rec) + num (bankIncome rec)).
Proof.
  intros H.
  destruct (H noon_3_nov_2025 noon_3_nov_2025 "66b2b2c3d4e5f60718293a4b"
              (Db [sample_user "65a1b2c3d4e5f60718293a4b" "Aamir" "paid" (ExpDashed 3 12 2025)]
                  [sample_open_voucher 1500 0]
                  [Income "Ali" (Some 1000) (Some 0)] [])
              (sample_open_voucher 1500 0)
              [sample_paid_month; sample_unpaid_month 1500 0] 0%nat
              sample_paid_month sample_repaid_month 1500 "Ali"
              (Income "Ali" (Some 1000) (Some 0)) sample_repay_request)
    as (rec2 & Hrec2 & Hsum);
    try reflexivity; try discriminate.
  - apply NoDup_singleton.
  - repeat split. by left.
  - vm_compute in Hrec2. injection Hrec2 as <-. vm_compute in Hsum.
    discriminate.
Qed.
(** * Further properties *)

(** ** The expiry date the rollover writes *)

Lemma make_day_next_month y m d :
  0 <= m <= 11 ->
  make_day y (m + 1) d
  = roll_days (S (Z.to_nat (Z.abs d))) (next_month y m).1 (next_month y m).2 d.
Proof.
  intros Hm. unfold make_day, next_month.
  destruct (Z.eqb_spec m 11) as [->|Hne]; cbn [fst snd].
  - done.
  - by rewrite (Z.div_small (m + 1) 12), (Z.mod_small (m + 1) 12), Z.add_0_r
      by lia.
Qed.

Lemma roll_days_over k y m d :
  1 <= d -> days_in_month y m < d ->
  roll_days (S k) y m d
  = roll_days k (next_month y m).1 (next_month y m).2 (d - days_in_month y m).
Proof.
  intros Hlo Hhi. cbn [roll_days].
  destruct (Z.ltb_spec d 1); [lia|].
  destruct (Z.ltb_spec (days_in_month y m) d); [|lia].
  by destruct (next_month y m).
Qed.

(** A day the following month does not have rolls over into the month after
    it: the expiry date skips a whole month. *)
Theorem rollover_day_overflow (dd mm yyyy : Z) :
  valid_dmy dd mm yyyy ->
  days_in_month (next_month yyyy (mm - 1)).1 (next_month yyyy (mm - 1)).2 < dd ->
  formatDate (setMonth_next (new_Date yyyy (mm - 1) dd))
  = ExpDashed
      (dd - days_in_month (next_month yyyy (mm - 1)).1 (next_month yyyy (mm - 1)).2)
      ((month_after_next yyyy (mm - 1)).2 + 1)
      (month_after_next yyyy (mm - 1)).1.
Proof.
  intros Hvalid Hover. rewrite (new_Date_valid _ _ _ Hvalid).
  destruct Hvalid as (Hy & Hm & Hd).
  unfold setMonth_next. cbn [ymd_y ymd_m ymd_d].
  rewrite make_day_next_month by lia.
  destruct (next_month yyyy (mm - 1)) as [y1 m1] eqn:E1. cbn [fst snd] in *.
  unfold month_after_next. rewrite E1. cbn [fst snd].
  pose proof (days_in_month_bounds yyyy (mm - 1)).
  pose proof (days_in_month_bounds y1 m1).
  destruct (Z.to_nat (Z.abs dd)) as [|fuel] eqn:Ef; [lia|].
  rewrite roll_days_over by lia.
  destruct (next_month y1 m1) as [y2 m2] eqn:E2. cbn [fst snd].
  pose proof (days_in_month_bounds y2 m2).
  rewrite roll_days_in_range by lia. done.
Qed.

Lemma rollover_day_overflow_witness :
  formatDate (setMonth_next (new_Date 2025 (1 - 1) 31)) = ExpDashed 3 3 2025.
Proof.
  apply (rollover_day_overflow 31 1 2025).
  - unfold valid_dmy. vm_compute. intuition discriminate.
  - vm_compute. reflexivity.
Defined.

Lemma next_month_later y m :
  0 <= m <= 11 ->
  (y < (next_month y m).1
   \/ (y = (next_month y m).1 /\ m < (next_month y m).2))
  /\ 0 <= (next_month y m).2 <= 11.
Proof.
  intros Hm. unfold next_month.
  destruct (Z.eqb_spec m 11); cbn [fst snd]; lia.
Qed.

(** The expiry date the rollover writes is a real calendar date strictly
    after the one it replaces, whatever the day of the month. *)
Theorem rollover_advances_expiry (dd mm yyyy : Z) :
  valid_dmy dd mm yyyy ->
  let old := new_Date yyyy (mm - 1) dd in
  in_range (setMonth_next old)
  /\ isDateLTE (setMonth_next old) old = false.
Proof.
  intros Hvalid old. split; [apply make_day_normal|].
  subst old. rewrite (new_Date_valid _ _ _ Hvalid).
  pose proof Hvalid as (Hy & Hm & Hd).
  destruct (next_month_later yyyy (mm - 1) ltac:(lia)) as [Hl1 Hr1].
  destruct (Z.le_gt_cases dd
              (days_in_month (next_month yyyy (mm - 1)).1
                             (next_month yyyy (mm - 1)).2)) as [Hfit|Hover].
  - unfold setMonth_next. cbn [ymd_y ymd_m ymd_d].
    rewrite make_day_next_month, roll_days_in_range by lia.
    apply isDateLTE_later. cbn [ymd_y ymd_m]. lia.
  - pose proof (rollover_day_overflow dd mm yyyy Hvalid Hover) as Hfmt.
    rewrite (new_Date_valid _ _ _ Hvalid) in Hfmt.
    unfold formatDate in Hfmt.
    destruct (setMonth_next (YMD yyyy (mm - 1) dd)) as [y2 m2 d2].
    cbn [ymd_y ymd_m ymd_d] in Hfmt. injection Hfmt as Hd2 Hm2 Hy2.
    destruct (next_month_later (next_month yyyy (mm - 1)).1
                (next_month yyyy (mm - 1)).2 Hr1) as [Hl2 _].
    apply isDateLTE_later. cbn [ymd_y ymd_m].
    unfold month_after_next in *. lia.
Qed.

Lemma rollover_advances_expiry_witness :
  isDateLTE (setMonth_next (new_Date 2024 (2 - 1) 29)) (new_Date 2024 (2 - 1) 29)
  = false.
Proof.
  apply (rollover_advances_expiry 29 2 2024).
  unfold valid_dmy. vm_compute. intuition discriminate.
Defined.

(** ** What the rollover keeps and leaves alone *)

Lemma update_first_Forall_found {A} (P : A -> Prop) (p : A -> bool)
    (f : A -> A) (l : list A) (v : A) :
  find_first p l = Some v -> (P v -> P (f v)) ->
  Forall P l -> Forall P (update_first p f l).
Proof.
  unfold find_first. intros Hv Hf Hl.
  induction Hl as [|x r Hx Hr IH]; cbn [update_first find] in *; [constructor|].
  destruct (p x).
  - injection Hv as ->. constructor; auto.
  - constructor; auto.
Qed.

Lemma update_first_lookup {A} (p : A -> bool) (f : A -> A) (l : list A)
    (i : nat) (x : A) :
  l !! i = Some x ->
  update_first p f l !! i = Some x \/ update_first p f l !! i = Some (f x).
Proof.
  revert i. induction l as [|y r IH]; intros i Hi; [done|].
  cbn [update_first]. destruct (p y).
  - destruct i as [|i]; simpl in *; [|by left].
    injection Hi as ->. by right.
  - destruct i as [|i]; simpl in *; [by left|]. by apply IH.
Qed.

(** What a turn does to the store besides the subscriber's record. *)
Lemma turn_effect c newId s u :
  incomes (turn c newId s u) = incomes s
  /\ collections (turn c newId s u) = collections s
  /\ (vouchers (turn c newId s u) = vouchers s
      \/ (exists v cur e,
            voucher_of (u_id u) s = Some v
            /\ existsb (same_label (month_label cur)) (default [] (months v))
               = false
            /\ vouchers (turn c newId s u)
               = update_first (of_user (u_id u))
                   (push_month c (newMonth c u cur) e) (vouchers s))
      \/ (exists vnew cur,
            voucher_of (u_id u) s = None
            /\ v_id vnew = newId (u_id u) /\ userId vnew = u_id u
            /\ months vnew = Some [newMonth c u cur]
            /\ vouchers (turn c newId s u) = vouchers s ++ [vnew])).
Proof.
  unfold turn. destruct (expiryDate u) as [dd mm yyyy| |];
    [|by repeat split; left|by repeat split; left].
  unfold rollover_step.
  set (s1 := set_users _ s).
  change (voucher_of (u_id u) s1) with (voucher_of (u_id u) s).
  destruct (voucher_of (u_id u) s) as [v|] eqn:Hv.
  - destruct (existsb _ _) eqn:Hex; [by repeat split; left|].
    repeat split. right. left.
    exists v, (new_Date yyyy (mm - 1) dd),
      (formatDate (setMonth_next (new_Date yyyy (mm - 1) dd))).
    by repeat split.
  - repeat split. right. right.
    eexists _, (new_Date yyyy (mm - 1) dd). by repeat split.
Qed.

(** A property of vouchers that survives the push of a rollover month onto
    a voucher without that label, and that a fresh one-month voucher has,
    survives the job. *)
Lemma job_keeps_vouchers (P : voucher -> Prop) c newId s :
  (forall v u cur e,
     P v ->
     existsb (same_label (month_label cur)) (default [] (months v)) = false ->
     P (push_month c (newMonth c u cur) e v)) ->
  (forall vnew u cur, months vnew = Some [newMonth c u cur] -> P vnew) ->
  Forall P (vouchers s) ->
  Forall P (vouchers (moveTodayExpiredToUnpaid c newId s).1).
Proof.
  intros Hpush Hnew Hs.
  destruct (job_runs_a_prefix c newId s) as (l & _ & ->).
  revert s Hs. induction l as [|u r IH]; intros s Hs; [done|].
  cbn [fold_left]. apply IH.
  destruct (turn_effect c newId s u)
    as (_ & _ & [->|[(v & cur & e & Hv & Hex & ->)|(vnew & cur & _ & _ & _ & Hm & ->)]]).
  - done.
  - eapply update_first_Forall_found; [exact Hv| |done].
    intros Pv. by apply Hpush.
  - apply Forall_app. split; [done|]. constructor; [|constructor].
    by eapply Hnew.
Qed.

Lemma existsb_same_label_false label (l : list month_entry) :
  existsb (same_label label) l = false -> label ∉ month <$> l.
Proof.
  induction l as [|x r IH]; [intros _; apply not_elem_of_nil|].
  cbn [existsb]. intros H. apply orb_false_iff in H as [Hx Hr].
  rewrite fmap_cons. apply not_elem_of_cons. split; [|by apply IH].
  unfold same_label in Hx. apply String.eqb_neq in Hx. congruence.
Qed.

(** The job never gives a voucher two entries with the same label: vouchers
    whose labels are distinct keep distinct labels. *)
Theorem rollover_keeps_labels_distinct (c : clock) (newId : string -> string)
    (s : db) :
  Forall (fun v => NoDup (month <$> default [] (months v))) (vouchers s) ->
  Forall (fun v => NoDup (month <$> default [] (months v)))
    (vouchers (moveTodayExpiredToUnpaid c newId s).1).
Proof.
  apply job_keeps_vouchers.
  - intros v u cur e Hv Hex. cbn [push_month months default from_option id].
    rewrite fmap_app. apply NoDup_app. split; [done|]. split.
    + intros x Hx Hx'. cbn in Hx'. apply list_elem_of_singleton in Hx'.
      subst x. by apply existsb_same_label_false in Hex.
    + cbn. apply NoDup_singleton.
  - intros vnew u cur ->. cbn. apply NoDup_singleton.
Qed.

(** The job keeps the remainder invariant of every month of every
    voucher. *)
Theorem rollover_keeps_remainders (c : clock) (newId : string -> string)
    (s : db) :
  Forall (fun v => Forall remaining_ok (default [] (months v))) (vouchers s) ->
  Forall (fun v => Forall remaining_ok (default [] (months v)))
    (vouchers (moveTodayExpiredToUnpaid c newId s).1).
Proof.
  apply job_keeps_vouchers.
  - intros v u cur e Hv _. cbn [push_month months default from_option id].
    apply Forall_app. split; [done|].
    constructor; [apply newMonth_remaining_ok|constructor].
  - intros vnew u cur ->. cbn.
    constructor; [apply newMonth_remaining_ok|constructor].
Qed.

Lemma grows_refl vs : grows vs vs.
Proof. intros i v Hi. exists v. repeat split; done. Qed.

Lemma grows_trans vs1 vs2 vs3 : grows vs1 vs2 -> grows vs2 vs3 -> grows vs1 vs3.
Proof.
  intros H12 H23 i v Hi.
  destruct (H12 i v Hi) as (v2 & Hi2 & Hid2 & Hu2 & Hp2).
  destruct (H23 i v2 Hi2) as (v3 & Hi3 & Hid3 & Hu3 & Hp3).
  exists v3. split; [done|]. split; [congruence|]. split; [congruence|].
  by etrans.
Qed.

Lemma turn_grows c newId s u : grows (vouchers s) (vouchers (turn c newId s u)).
Proof.
  destruct (turn_effect c newId s u)
    as (_ & _ & [->|[(v & cur & e & _ & _ & ->)|(vnew & cur & _ & _ & _ & _ & ->)]]).
  - apply grows_refl.
  - intros i x Hi.
    destruct (update_first_lookup (of_user (u_id u))
                (push_month c (newMonth c u cur) e) _ i x Hi) as [H|H].
    + exists x. by repeat split.
    + eexists. split; [exact H|]. repeat split.
      cbn [push_month months default from_option id]. by apply prefix_app_r.
  - intros i x Hi. exists x. split; [by apply lookup_app_l_Some|done].
Qed.

Lemma job_frame (c : clock) (newId : string -> string) (s : db) :
  let s' := (moveTodayExpiredToUnpaid c newId s).1 in
  incomes s' = incomes s
  /\ collections s' = collections s
  /\ u_id <$> users s' = u_id <$> users s
  /\ grows (vouchers s) (vouchers s').
Proof.
  intros s'. subst s'.
  destruct (job_runs_a_prefix c newId s) as (l & _ & ->).
  revert s. induction l as [|u r IH]; intros s.
  - repeat split. apply grows_refl.
  - cbn [fold_left]. destruct (IH (turn c newId s u)) as (Hi & Hc & Hu & Hg).
    destruct (turn_effect c newId s u) as (Hi1 & Hc1 & _).
    split; [congruence|]. split; [congruence|]. split.
    + by rewrite Hu, turn_ids.
    + eapply grows_trans; [apply turn_grows|exact Hg].
Qed.

(** Whether or not it completes, the job writes neither incomes nor
    transfers, neither adds nor removes a subscriber, and never removes or
    rewrites a voucher or a month: every voucher stays at its place with its
    id and owner, and what it held is a prefix of what it holds. *)
Theorem rollover_frame (c : clock) (newId : string -> string) (s : db) :
  let s' := (moveTodayExpiredToUnpaid c newId s).1 in
  incomes s' = incomes s
  /\ collections s' = collections s
  /\ u_id <$> users s' = u_id <$> users s
  /\ grows (vouchers s) (vouchers s').
Proof. apply job_frame. Qed.

(** A subscriber the job does not select (before noon nobody is; after noon
    one that is inactive, of an unlisted status, without an expiry date or
    with one after today) keeps its record and its voucher. *)
Theorem rollover_leaves_others (c : clock) (newId : string -> string)
    (s : db) (u : user) :
  NoDup (u_id <$> users s) -> u ∈ users s ->
  rollover_status u && is_active u && has_expired (todayYMD c) u = false ->
  user_of (u_id u) (moveTodayExpiredToUnpaid c newId s).1 = Some u
  /\ voucher_of (u_id u) (moveTodayExpiredToUnpaid c newId s).1
     = voucher_of (u_id u) s.
Proof.
  intros Hnd Hin Hsel.
  destruct (job_runs_a_prefix c newId s) as (l & Hpre & ->).
  assert (Forall (fun x => u_id x <> u_id u) l) as Hothers.
  { apply Forall_forall. intros x Hx Eid.
    assert (x ∈ expiredUsers c s) as Hxb.
    { destruct Hpre as [k ->]. apply elem_of_app. by left. }
    apply expiredUsers_elem in Hxb as (Hxin & Hst & Hact & Hexp).
    pose proof (user_of_unique _ _ Hnd Hxin) as Hfx.
    pose proof (user_of_unique _ _ Hnd Hin) as Hfu.
    rewrite Eid, Hfu in Hfx. injection Hfx as ->.
    by rewrite Hst, Hact, Hexp in Hsel. }
  destruct (fold_turn_other c newId (u_id u) l s Hothers) as [-> ->].
  split; [|done]. by apply user_of_unique.
Qed.

Lemma rollover_leaves_others_witness :
  let u := sample_user "65a1b2c3d4e5f60718293a4b" "Aamir" "paid" (ExpDashed 3 12 2025) in
  user_of "65a1b2c3d4e5f60718293a4b" (moveTodayExpiredToUnpaid noon_3_nov_2025 id (Db [u] [] [] [])).1
  = Some u.
Proof.
  intros u.
  apply (rollover_leaves_others noon_3_nov_2025 id (Db [u] [] [] []) u).
  - apply NoDup_singleton.
  - apply list_elem_of_here.
  - vm_compute. reflexivity.
Defined.

Lemma rollover_keeps_labels_distinct_witness :
  Forall (fun v => NoDup (month <$> default [] (months v)))
    (vouchers
       (moveTodayExpiredToUnpaid noon_3_nov_2025 id
          (Db [sample_user "65a1b2c3d4e5f60718293a4b" "Aamir" "paid" (ExpDashed 3 11 2025)]
              [sample_open_voucher 1500 0] [] [])).1).
Proof.
  apply rollover_keeps_labels_distinct.
  constructor; [|constructor].
  apply (bool_decide_unpack _). vm_compute. reflexivity.
Defined.

Lemma rollover_keeps_remainders_witness :
  Forall (fun v => Forall remaining_ok (default [] (months v)))
    (vouchers
       (moveTodayExpiredToUnpaid noon_3_nov_2025 id
          (Db [sample_user "65a1b2c3d4e5f60718293a4b" "Aamir" "paid" (ExpDashed 3 10 2025)]
              [sample_open_voucher 1500 0] [] [])).1).
Proof.
  apply rollover_keeps_remainders.
  constructor; [|constructor].
  repeat constructor.
Defined.

(** ** Flags: the flagging job *)

Lemma update_by_id_fmap (us : list user) (i : string) (f : user -> user) :
  NoDup (u_id <$> us) -> (forall u, u_id (f u) = u_id u) ->
  update_first (has_id i) f us
  = (fun u => if has_id i u then f u else u) <$> us.
Proof.
  intros Hnd Hf. induction us as [|x r IH]; [done|].
  rewrite fmap_cons in Hnd. apply NoDup_cons in Hnd as [Hx Hr].
  cbn [update_first]. rewrite fmap_cons.
  destruct (has_id i x) eqn:E.
  - f_equal. apply has_id_true in E. subst i.
    rewrite <- (list_fmap_id r) at 1. apply list_fmap_ext.
    intros k y Hy. unfold id.
    assert (has_id (u_id x) y = false) as ->; [|done].
    apply has_id_false. intros Eid. apply Hx. rewrite <- Eid.
    apply list_elem_of_fmap. exists y. split; [done|].
    by eapply list_elem_of_lookup_2.
  - f_equal. by apply IH.
Qed.

Lemma existsb_pointwise {A} (f g : A -> bool) (l : list A) :
  (forall x, f x = g x) -> existsb f l = existsb g l.
Proof. intros H. induction l as [|x r IH]; cbn; [done|]. by rewrite H, IH. Qed.

Lemma fold_update_by_id (f : user -> user) (L us : list user) :
  NoDup (u_id <$> us) ->
  (forall u, u_id (f u) = u_id u) -> (forall u, f (f u) = f u) ->
  fold_left (fun acc x => update_first (has_id (u_id x)) f acc) L us
  = (fun u => if existsb (fun x => has_id (u_id x) u) L then f u else u) <$> us.
Proof.
  intros Hnd Hid Hidem. revert us Hnd.
  induction L as [|x r IH]; intros us Hnd; cbn [fold_left existsb].
  - by rewrite list_fmap_id.
  - rewrite (update_by_id_fmap _ _ _ Hnd Hid).
    rewrite IH.
    + rewrite <- list_fmap_compose. apply list_fmap_ext. intros k u _.
      unfold compose.
      assert (forall y, has_id (u_id y) (f u) = has_id (u_id y) u) as Hh
        by (intros y; unfold has_id; by rewrite Hid).
      destruct (has_id (u_id x) u) eqn:E; cbn [orb]; [|done].
      rewrite (existsb_pointwise _ _ r Hh).
      destruct (existsb _ r); by rewrite ?Hidem.
    + rewrite <- list_fmap_compose.
      erewrite list_fmap_ext; [exact Hnd|].
      intros k u _. cbn. by destruct (has_id (u_id x) u); rewrite ?Hid.
Qed.

Lemma fold_set_users (f : user -> user) (L : list user) (s : db) :
  fold_left
    (fun acc u =>
       set_users (update_first (has_id (u_id u)) f (users acc)) acc) L s
  = set_users
      (fold_left (fun acc x => update_first (has_id (u_id x)) f acc) L (users s))
      s.
Proof.
  revert s. induction L as [|x r IH]; intros s; cbn [fold_left].
  - by destruct s.
  - by rewrite IH.
Qed.

(** In a list with distinct ids, the selected subscribers are found by
    id. *)
Lemma selected_by_id (sel : user -> bool) (L us : list user) (u : user) :
  NoDup (u_id <$> us) -> u ∈ us ->
  (forall x, x ∈ L <-> x ∈ us /\ sel x = true) ->
  existsb (fun x => has_id (u_id x) u) L = sel u.
Proof.
  intros Hnd Hin HL. destruct (sel u) eqn:Hsel.
  - apply existsb_exists. exists u. split.
    + apply list_elem_of_In, HL. done.
    + by apply has_id_true.
  - apply not_true_iff_false. intros Hex.
    apply existsb_exists in Hex as (x & Hx & Hid).
    apply list_elem_of_In, HL in Hx as [Hxin Hxsel].
    apply has_id_true in Hid.
    pose proof (user_of_unique _ _ Hnd Hxin) as Hfx.
    pose proof (user_of_unique _ _ Hnd Hin) as Hfu.
    rewrite Hid, Hfx in Hfu. injection Hfu as ->. congruence.
Qed.

Lemma update_selected (f : user -> user) (sel : user -> bool)
    (L : list user) (s : db) :
  NoDup (u_id <$> users s) ->
  (forall u, u_id (f u) = u_id u) -> (forall u, f (f u) = f u) ->
  (forall x, x ∈ L <-> x ∈ users s /\ sel x = true) ->
  fold_left
    (fun acc u =>
       set_users (update_first (has_id (u_id u)) f (users acc)) acc) L s
  = set_users ((fun u => if sel u then f u else u) <$> users s) s.
Proof.
  intros Hnd Hid Hidem HL.
  rewrite fold_set_users, (fold_update_by_id _ _ _ Hnd Hid Hidem).
  f_equal. apply list_fmap_ext. intros k u Hu.
  rewrite (selected_by_id sel L (users s) u); [done|done| |done].
  by eapply list_elem_of_lookup_2.
Qed.

(** The subscribers the flagging job selects. *)
Lemma expiringTomorrowUsers_elem c s x :
  x ∈ expiringTomorrowUsers c s
  <-> x ∈ users s
      /\ rollover_status x && is_active x && expires_on (tomorrowYMD c) x = true.
Proof.
  unfold expiringTomorrowUsers. rewrite !list_elem_of_filter.
  rewrite !Is_true_true, !andb_true_iff. tauto.
Qed.

Lemma flag_if_due_id c u : u_id (flag_if_due c u) = u_id u.
Proof. unfold flag_if_due. by destruct (_ && _). Qed.

Lemma flag_if_due_idem c u : flag_if_due c (flag_if_due c u) = flag_if_due c u.
Proof.
  unfold flag_if_due.
  destruct ((12 <=? currentHour c) && rollover_status u && is_active u
            && expires_on (tomorrowYMD c) u) eqn:E; [|by rewrite E].
  change (rollover_status (set_flag true u)) with (rollover_status u).
  change (is_active (set_flag true u)) with (is_active u).
  change (expires_on (tomorrowYMD c) (set_flag true u))
    with (expires_on (tomorrowYMD c) u).
  by rewrite E.
Qed.

Lemma tomorrow_job_users (c : clock) (s : db) :
  NoDup (u_id <$> users s) ->
  checkTomorrowExpiringUsers c s
  = set_users (flag_if_due c <$> users s) s.
Proof.
  intros Hnd. unfold checkTomorrowExpiringUsers, flag_if_due.
  destruct (Z.ltb_spec (currentHour c) 12) as [Hlt|Hge].
  - destruct (Z.leb_spec 12 (currentHour c)); [lia|]. cbn [andb].
    rewrite list_fmap_id. by destruct s.
  - destruct (Z.leb_spec 12 (currentHour c)); [|lia]. cbn [andb].
    apply update_selected; [done|done|done|].
    apply expiringTomorrowUsers_elem.
Qed.

(** The flagging job writes the flag and nothing else: at or after noon every
    active subscriber of a listed status whose expiry date is tomorrow gets
    [showInExpiringSoon = true]; every other subscriber and every other
    field, the status and the expiry date among them, stays as it is, and so
    do the vouchers, the incomes and the transfers.  Before noon nothing is
    written. *)
Theorem tomorrow_job_only_flags (c : clock) (s : db) :
  NoDup (u_id <$> users s) ->
  checkTomorrowExpiringUsers c s
  = set_users
      ((fun u =>
          if (12 <=? currentHour c) && rollover_status u && is_active u
             && expires_on (tomorrowYMD c) u
          then set_flag true u else u) <$> users s) s
  /\ u_status <$> users (checkTomorrowExpiringUsers c s) = u_status <$> users s
  /\ expiryDate <$> users (checkTomorrowExpiringUsers c s)
     = expiryDate <$> users s.
Proof.
  intros Hnd. pose proof (tomorrow_job_users c s Hnd) as Heq.
  split; [exact Heq|]. rewrite Heq. cbn [users set_users].
  split; rewrite <- list_fmap_compose; apply list_fmap_ext; intros k u _;
    unfold compose, flag_if_due; by destruct (_ && _).
Qed.

Lemma tomorrow_job_only_flags_witness :
  let u := set_flag false (sample_user "65a1b2c3d4e5f60718293a4b" "Aamir" "paid" (ExpDashed 4 11 2025)) in
  checkTomorrowExpiringUsers noon_3_nov_2025 (Db [u] [] [] [])
  = Db [set_flag true u] [] [] [].
Proof.
  intros u.
  destruct (tomorrow_job_only_flags noon_3_nov_2025 (Db [u] [] [] []))
    as [-> _]; [apply NoDup_singleton|].
  vm_compute. reflexivity.
Defined.

(** Running the flagging job again changes nothing. *)
Theorem tomorrow_job_idempotent (c : clock) (s : db) :
  NoDup (u_id <$> users s) ->
  checkTomorrowExpiringUsers c (checkTomorrowExpiringUsers c s)
  = checkTomorrowExpiringUsers c s.
Proof.
  intros Hnd. rewrite (tomorrow_job_users c s Hnd).
  rewrite tomorrow_job_users.
  - destruct s. unfold set_users. cbn. f_equal.
    rewrite <- list_fmap_compose. apply list_fmap_ext. intros k u _.
    apply flag_if_due_idem.
  - cbn [users set_users]. rewrite <- list_fmap_compose.
    erewrite list_fmap_ext; [exact Hnd|]. intros k u _.
    apply flag_if_due_id.
Qed.

Lemma tomorrow_job_idempotent_witness :
  let s := Db [sample_user "65a1b2c3d4e5f60718293a4b" "Aamir" "paid" (ExpDashed 4 11 2025)] [] [] [] in
  checkTomorrowExpiringUsers noon_3_nov_2025
    (checkTomorrowExpiringUsers noon_3_nov_2025 s)
  = checkTomorrowExpiringUsers noon_3_nov_2025 s.
Proof.
  intros s. apply tomorrow_job_idempotent. apply NoDup_singleton.
Defined.

(** ** The income ledger: totals *)

Lemma total_cash_app l r :
  total_cash (l ++ [r]) = total_cash l + num (cashIncome r).
Proof.
  unfold total_cash, total_bank.
  induction l as [|x l IH]; cbn [app fold_right] in *; lia.
Qed.

Lemma total_bank_app l r :
  total_bank (l ++ [r]) = total_bank l + num (bankIncome r).
Proof.
  unfold total_cash, total_bank.
  induction l as [|x l IH]; cbn [app fold_right] in *; lia.
Qed.

Lemma total_cash_cons x l :
  total_cash (x :: l) = num (cashIncome x) + total_cash l.
Proof. reflexivity. Qed.

Lemma total_bank_cons x l :
  total_bank (x :: l) = num (bankIncome x) + total_bank l.
Proof. reflexivity. Qed.

Lemma total_cash_update (p : income -> bool) (f : income -> income) l a :
  (forall r, num (cashIncome (f r)) = num (cashIncome r) + a) ->
  total_cash (update_first p f l)
  = total_cash l + (if existsb p l then a else 0).
Proof.
  intros Hf. induction l as [|x l IH]; [done|].
  cbn [update_first existsb]. destruct (p x); cbn [orb].
  - rewrite !total_cash_cons, Hf. lia.
  - rewrite !total_cash_cons, IH. lia.
Qed.

Lemma total_bank_update (p : income -> bool) (f : income -> income) l a :
  (forall r, num (bankIncome (f r)) = num (bankIncome r) + a) ->
  total_bank (update_first p f l)
  = total_bank l + (if existsb p l then a else 0).
Proof.
  intros Hf. induction l as [|x l IH]; [done|].
  cbn [update_first existsb]. destruct (p x); cbn [orb].
  - rewrite !total_bank_cons, Hf. lia.
  - rewrite !total_bank_cons, IH. lia.
Qed.

Ltac ledger_app :=
  rewrite ?total_cash_app, ?total_bank_app; cbn [cashIncome bankIncome];
  unfold num; cbn [default from_option id].

Lemma credit_cash_total name a l :
  total_cash (credit_cash name a l) = total_cash l + a
  /\ total_bank (credit_cash name a l) = total_bank l.
Proof.
  unfold credit_cash. destruct (existsb (named name) l) eqn:E.
  - rewrite (total_cash_update _ _ _ a), (total_bank_update _ _ _ 0), E by (intros; cbn; unfold num; lia).
    lia.
  - ledger_app. lia.
Qed.

Lemma sum_of_cons f x l : sum_of f (x :: l) = f x + sum_of f l.
Proof.
  unfold sum_of. cbn [fold_left].
  assert (forall a, fold_left (fun acc m => acc + f m) l a
                    = a + fold_left (fun acc m => acc + f m) l 0) as H.
  { induction l as [|y l IH]; intros a; cbn [fold_left]; [lia|].
    rewrite (IH (a + f y)), (IH (0 + f y)). lia. }
  rewrite H. lia.
Qed.

Lemma credit_history_total (h : list payment) l :
  let step := fun acc p =>
    if 0 <? pay_amount p
    then credit_cash (default "Admin" (or_str (pay_receivedBy p) None))
           (pay_amount p) acc
    else acc in
  total_cash (fold_left step h l)
  = total_cash l + fold_right (fun p acc => Z.max 0 (pay_amount p) + acc) 0 h
  /\ total_bank (fold_left step h l) = total_bank l.
Proof.
  intros step. revert l. induction h as [|p h IH]; intros l; cbn [fold_left fold_right].
  - split; lia.
  - destruct (IH (step l p)) as [-> ->]. unfold step.
    destruct (Z.ltb_spec 0 (pay_amount p)).
    + destruct (credit_cash_total
                  (default "Admin" (or_str (pay_receivedBy p) None))
                  (pay_amount p) l) as [-> ->]. lia.
    + lia.
Qed.

Lemma credit_month_total m l :
  total_cash (credit_month m l) = total_cash l + month_credit m
  /\ total_bank (credit_month m l) = total_bank l.
Proof.
  unfold credit_month, month_credit.
  destruct (str_is (status m) "paid" || str_is (status m) "partial"); [|lia].
  destruct (default [] (paymentHistory m)) as [|p h] eqn:Eh.
  - destruct (truthy_str (receivedBy m)); [|lia].
    destruct (Z.ltb_spec 0 (num (paidAmount m))).
    + destruct (credit_cash_total (default "" (receivedBy m))
                  (num (paidAmount m)) l) as [-> ->]. lia.
    + lia.
  - apply (credit_history_total (p :: h) l).
Qed.

(** Posting months books every payment as cash: the ledger's cash total rises
    by exactly the positive payments of the paid and partial months, and the
    bank total stays as it is, whatever the payment method. *)
Theorem credit_months_total (ms : list month_entry) (l : list income) :
  total_cash (credit_months ms l) = total_cash l + sum_of month_credit ms
  /\ total_bank (credit_months ms l) = total_bank l.
Proof.
  unfold credit_months. revert l.
  induction ms as [|m ms IH]; intros l; cbn [fold_left].
  - unfold sum_of. cbn. lia.
  - destruct (IH (credit_month m l)) as [-> ->].
    destruct (credit_month_total m l) as [-> ->].
    rewrite sum_of_cons. lia.
Qed.

(** A transfer moves money inside the ledger and never changes what the
    ledger holds: cash and bank totals, the subscribers and the vouchers are
    the same after any request, accepted or rejected, and at most one
    transfer record is appended. *)
Theorem transfer_conserves_cash (re : regexp) (rq : transfer_request) (s : db) :
  let s' := (transfer_money re rq s).1 in
  total_cash (incomes s') = total_cash (incomes s)
  /\ total_bank (incomes s') = total_bank (incomes s)
  /\ users s' = users s /\ vouchers s' = vouchers s
  /\ (s' = s
      \/ collections s'
         = collections s
           ++ [{| t_feeCollector := trim (tr_feeCollector rq);
                  t_amount := tr_amount rq;
                  t_message := trim (tr_message rq) |}]).
Proof.
  unfold transfer_money.
  destruct (_ || _); [cbn; auto 10|].
  destruct (_ <=? _); [cbn; auto 10|].
  destruct (available_income re (tr_feeCollector rq) s); [|cbn; auto 10].
  destruct (_ <? _); [cbn; auto 10|].
  cbn [fst users vouchers incomes collections].
  set (fc := trim (tr_feeCollector rq)).
  set (incomes1 := if existsb _ (incomes s) then _ else _).
  assert (total_cash incomes1 = total_cash (incomes s) - tr_amount rq
          /\ total_bank incomes1 = total_bank (incomes s)) as [H1 H2].
  { unfold incomes1.
    destruct (existsb _ (incomes s)) eqn:E.
    - rewrite (total_cash_update _ _ _ (- tr_amount rq)), (total_bank_update _ _ _ 0), E
        by (intros; cbn; unfold num; lia). lia.
    - ledger_app. lia. }
  repeat split; [| |by right].
  - destruct (existsb _ incomes1) eqn:E.
    + rewrite (total_cash_update _ _ _ (tr_amount rq)), E by (intros; cbn; unfold num; lia). lia.
    + ledger_app. lia.
  - destruct (existsb _ incomes1) eqn:E.
    + rewrite (total_bank_update _ _ _ 0), E by (intros; cbn; unfold num; lia). lia.
    + ledger_app. lia.
Qed.

(** An accepted income entry raises what the ledger holds by exactly the
    amount, which is positive; the bank total moves only for Admin (or
    [myself]) with a method other than cash, every other entry is booked as
    cash. *)
Theorem add_income_books_amount (rq : income_request) (s : db) :
  (add_income rq s).2 = Resp 200 "Income updated successfully" ->
  let s' := (add_income rq s).1 in
  0 < ir_amount rq
  /\ total_cash (incomes s') + total_bank (incomes s')
     = total_cash (incomes s) + total_bank (incomes s) + ir_amount rq
  /\ (income_to_bank rq = false -> total_bank (incomes s') = total_bank (incomes s))
  /\ users s' = users s /\ vouchers s' = vouchers s
  /\ collections s' = collections s.
Proof.
  unfold add_income.
  destruct (String.eqb (ir_receivedBy rq) "" || (ir_amount rq <=? 0)) eqn:E;
    [discriminate|].
  intros _. apply orb_false_iff in E as [_ Ea]. apply Z.leb_gt in Ea.
  cbn [fst incomes set_incomes users vouchers collections].
  split; [done|].
  destruct (existsb _ (incomes s)) eqn:Ex.
  - destruct (income_to_bank rq).
    + rewrite (total_cash_update _ _ _ 0), (total_bank_update _ _ _ (ir_amount rq)),
        Ex by (intros; cbn; unfold num; lia).
      repeat split; try done; lia.
    + rewrite (total_cash_update _ _ _ (ir_amount rq)), (total_bank_update _ _ _ 0),
        Ex by (intros; cbn; unfold num; lia).
      repeat split; try done; lia.
  - destruct (income_to_bank rq); ledger_app; repeat split; try done; lia.
Qed.

Lemma add_income_books_amount_witness :
  let rq := IncomeRequest "Bilal" 500 (Some "Bank Transfer") in
  let s := Db [] [] [Income "bilal" (Some 100) None] [] in
  total_bank (incomes (add_income rq s).1) = total_bank (incomes s).
Proof.
  intros rq s.
  apply (add_income_books_amount rq s); vm_compute; reflexivity.
Defined.

(** Setting a collector's cash income and reading it back: the record found
    under the name carries the new value ([0] for a missing one), and the
    record found under any other name is the one found before. *)
Theorem update_income_roundtrip (name : string) (cash : option Z) (s : db) :
  name <> "" ->
  let l' := incomes (update_income name cash s).1 in
  (exists r, find_first (named name) l' = Some r
             /\ cashIncome r = Some (num cash) /\ i_name r = name)
  /\ (forall other, other <> name ->
        find_first (named other) l' = find_first (named other) (incomes s)).
Proof.
  intros Hn. unfold update_income.
  assert (String.eqb name "" = false) as -> by by apply String.eqb_neq.
  cbn [fst incomes set_incomes]. rewrite find_first_existsb.
  destruct (find_first (named name) (incomes s)) as [r|] eqn:Ef.
  - split.
    + rewrite find_update_first_same by done. rewrite Ef. cbn.
      eexists. split; [done|]. split; [done|].
      apply find_first_elem in Ef as [_ Hr]. by apply String.eqb_eq in Hr.
    + intros other Ho. apply find_update_first_other.
      * intros x Hx. unfold named in *. apply String.eqb_eq in Hx.
        apply String.eqb_neq. congruence.
      * intros x Hx. unfold named in *. cbn. apply String.eqb_eq in Hx.
        apply String.eqb_neq. congruence.
  - split.
    + rewrite find_first_app_new; [|done|by apply String.eqb_eq].
      eexists. by split.
    + intros other Ho. apply find_first_app_none.
      unfold named. cbn. apply String.eqb_neq. congruence.
Qed.

Lemma update_income_roundtrip_witness :
  exists r,
    find_first (named "Ali")
      (incomes (update_income "Ali" (Some 700)
                  (Db [] [] [Income "Ali" (Some 100) (Some 40)] [])).1)
    = Some r
    /\ cashIncome r = Some (num (Some 700)) /\ i_name r = "Ali".
Proof.
  apply (update_income_roundtrip "Ali" (Some 700)
           (Db [] [] [Income "Ali" (Some 100) (Some 40)] [])).
  discriminate.
Defined.

(** ** The ledger rebuilt from the vouchers *)

Lemma credit_cash_skip name a x l :
  named name x = false ->
  credit_cash name a (x :: l) = x :: credit_cash name a l.
Proof.
  intros Hx. unfold credit_cash. cbn [existsb update_first]. rewrite Hx.
  cbn [orb]. by destruct (existsb (named name) l).
Qed.

Lemma credit_cash_hit name a x l :
  named name x = true ->
  credit_cash name a (x :: l)
  = {| i_name := i_name x; cashIncome := Some (num (cashIncome x) + a);
       bankIncome := bankIncome x |} :: l.
Proof.
  intros Hx. unfold credit_cash. cbn [existsb update_first]. by rewrite Hx.
Qed.

Lemma credit_cash_records name a (m : list (string * Z)) :
  credit_cash name a (income_record <$> m)
  = income_record <$> add_to_map name a m.
Proof.
  induction m as [|[r a0] m IH]; [done|].
  rewrite fmap_cons. cbn [add_to_map].
  destruct (String.eqb r name) eqn:E.
  - by rewrite credit_cash_hit.
  - rewrite credit_cash_skip by done. by rewrite IH.
Qed.

Lemma credit_month_records mo (m : list (string * Z)) :
  credit_month mo (income_record <$> m) = income_record <$> sync_month mo m.
Proof.
  unfold credit_month, sync_month.
  destruct (str_is (status mo) "paid" || str_is (status mo) "partial"); [|done].
  destruct (default [] (paymentHistory mo)) as [|p h].
  - destruct (truthy_str (receivedBy mo)); [|done].
    destruct (0 <? num (paidAmount mo)); [|done].
    apply credit_cash_records.
  - generalize (p :: h). intros hist. revert m.
    induction hist as [|q hist IH]; intros m; [done|].
    cbn [fold_left]. destruct (0 <? pay_amount q).
    + rewrite credit_cash_records. apply IH.
    + apply IH.
Qed.

Lemma add_to_map_keys name a (m : list (string * Z)) :
  NoDup (m.*1) -> NoDup ((add_to_map name a m).*1).
Proof.
  intros Hnd.
  assert ((add_to_map name a m).*1 = m.*1
          \/ ((add_to_map name a m).*1 = m.*1 ++ [name] /\ name ∉ m.*1)) as H.
  { clear Hnd. induction m as [|[r a0] m IH]; [right; split; [done|]|].
    - apply not_elem_of_nil.
    - cbn [add_to_map]. destruct (String.eqb r name) eqn:E; [by left|].
      apply String.eqb_neq in E. rewrite !fmap_cons. cbn [fst].
      destruct IH as [->|[-> Hn]]; [by left|right]. split; [done|].
      rewrite not_elem_of_cons. split; [congruence|done]. }
  destruct H as [->|[-> Hn]]; [done|].
  apply NoDup_app. split; [done|]. split; [|apply NoDup_singleton].
  intros x Hx Hx'. apply list_elem_of_singleton in Hx'. by subst.
Qed.

Lemma sync_month_keys mo (m : list (string * Z)) :
  NoDup (m.*1) -> NoDup ((sync_month mo m).*1).
Proof.
  unfold sync_month.
  destruct (str_is (status mo) "paid" || str_is (status mo) "partial"); [|done].
  destruct (default [] (paymentHistory mo)) as [|p h].
  - destruct (truthy_str (receivedBy mo)); [|done].
    destruct (0 <? num (paidAmount mo)); [|done].
    apply add_to_map_keys.
  - generalize (p :: h). intros hist. revert m.
    induction hist as [|q hist IH]; intros m Hm; [done|].
    cbn [fold_left]. destruct (0 <? pay_amount q); [|by apply IH].
    by apply IH, add_to_map_keys.
Qed.

(** The sync rebuilds, from the vouchers alone, the ledger that posting every
    stored month into an empty ledger would have produced, with one record
    per receiver. *)
Theorem sync_replays_postings (vs : list voucher) :
  incomeRecords vs = credit_months (all_months vs) []
  /\ NoDup (i_name <$> incomeRecords vs).
Proof.
  unfold incomeRecords, incomeMap, credit_months. fold (all_months vs).
  fold income_record.
  assert (forall ms (m : list (string * Z)),
            income_record <$> fold_left (fun acc mo => sync_month mo acc) ms m
            = fold_left (fun acc mo => credit_month mo acc) ms
                (income_record <$> m)) as Hrec.
  { induction ms as [|mo ms IH]; intros m; [done|].
    cbn [fold_left]. by rewrite IH, credit_month_records. }
  assert (forall ms (m : list (string * Z)),
            NoDup (m.*1) ->
            NoDup ((fold_left (fun acc mo => sync_month mo acc) ms m).*1))
    as Hkeys.
  { induction ms as [|mo ms IH]; intros m Hm; [done|].
    cbn [fold_left]. by apply IH, sync_month_keys. }
  split.
  - apply (Hrec (all_months vs) []).
  - rewrite <- list_fmap_compose.
    apply (Hkeys (all_months vs) []). constructor.
Qed.

Lemma credit_cash_no_bank name a l :
  Forall (fun r => bankIncome r = None) l ->
  Forall (fun r => bankIncome r = None) (credit_cash name a l).
Proof.
  intros H. unfold credit_cash. destruct (existsb (named name) l).
  - by apply update_first_Forall.
  - apply Forall_app. split; [done|]. by constructor.
Qed.

(** After a sync no record carries a bank total: whatever was booked as bank
    income before is gone, and what the ledger held before plays no part in
    the result.  Subscribers, vouchers and transfers are not written. *)
Theorem sync_drops_bank_income (s : db) (before : list income) :
  let s' := (sync_incomes s).1 in
  Forall (fun r => bankIncome r = None) (incomes s')
  /\ total_bank (incomes s') = 0
  /\ incomes (sync_incomes (set_incomes before s)).1 = incomes s'
  /\ users s' = users s /\ vouchers s' = vouchers s
  /\ collections s' = collections s.
Proof.
  cbn [sync_incomes fst incomes set_incomes users vouchers collections].
  assert (Forall (fun r => bankIncome r = None)
            (fold_left sync_transfer (collections s)
               (incomeRecords (vouchers s)))) as H.
  { assert (Forall (fun r => bankIncome r = None) (incomeRecords (vouchers s)))
      as H0 by (unfold incomeRecords; by apply Forall_fmap, Forall_true).
    revert H0. generalize (incomeRecords (vouchers s)).
    induction (collections s) as [|t ts IH]; intros l Hl; [done|].
    cbn [fold_left]. apply IH. unfold sync_transfer.
    destruct (_ && _); [|done].
    by apply credit_cash_no_bank, update_first_Forall. }
  split; [done|]. split; [|done].
  induction H as [|r l Hr _ IH]; [done|].
  rewrite total_bank_cons, IH, Hr. done.
Qed.

(** ** The monthly reset *)

Lemma roll_days_forward fuel : forall y m d,
  1 <= d -> 0 <= m <= 11 -> y <= ymd_y (roll_days fuel y m d).
Proof.
  induction fuel as [|k IH]; intros y m d Hd Hm; cbn [roll_days]; [done|].
  destruct (Z.ltb_spec d 1); [lia|].
  destruct (Z.ltb_spec (days_in_month y m) d); [|done].
  destruct (next_month y m) as [y' m'] eqn:En.
  unfold next_month in En.
  destruct (Z.eqb_spec m 11); injection En as <- <-.
  - etrans; [|apply IH; lia]. lia.
  - etrans; [|apply IH; lia]. lia.
Qed.

Lemma ymd_of_ms_after_epoch ms :
  0 <= ms -> 1970 <= ymd_y (ymd_of_ms ms).
Proof.
  intros H. unfold ymd_of_ms, make_day.
  change (1970 + 0 / 12) with 1970. change (0 mod 12) with 0.
  apply roll_days_forward; [|lia].
  assert (0 <= ms / 86400000); [|lia].
  apply Z.div_pos; lia.
Qed.

Lemma lastDayOfMonth_days t :
  100 <= ymd_y t -> 0 <= ymd_m t <= 11 ->
  lastDayOfMonth t = days_in_month (ymd_y t) (ymd_m t).
Proof.
  intros Hy Hm. unfold lastDayOfMonth, new_Date, full_year.
  destruct (Z.leb_spec (ymd_y t) 99); [lia|]. rewrite andb_false_r.
  rewrite make_day_next_month by done.
  change (Z.to_nat (Z.abs 0)) with O. cbn [roll_days].
  change (0 <? 1) with true. cbv iota.
  unfold next_month, prev_month.
  destruct (Z.eqb_spec (ymd_m t) 11) as [E|E]; cbn [fst snd].
  - change (0 =? 0) with true. cbv iota. cbn [ymd_d].
    replace (ymd_y t + 1 - 1) with (ymd_y t) by lia. rewrite E. lia.
  - destruct (Z.eqb_spec (ymd_m t + 1) 0); [lia|]. cbn [ymd_d].
    replace (ymd_m t + 1 - 1) with (ymd_m t) by lia. lia.
Qed.

(** The reset fires exactly on the last day of the month of the date the
    handler reads, leap Februaries and December included: on that day every
    record is set to zero in both buckets, on any other day nothing is
    written.  The subscribers, the vouchers and the transfers are never
    touched.  The date the handler reads is the instant moved forward by the
    Pakistan offset and then read in the server's own zone; on a server
    whose zone is UTC it is the date in Pakistan. *)
Theorem reset_only_on_last_day (zone : Z) (c : clock) (s : db) :
  0 <= now_ms c + PKT_OFFSET_MIN * 60000 + zone * 60000 ->
  let t := reset_date zone c in
  let s' := (reset_monthly_income zone c s).1 in
  (ymd_d t = days_in_month (ymd_y t) (ymd_m t) ->
   incomes s' = reset_income <$> incomes s
   /\ total_cash (incomes s') = 0 /\ total_bank (incomes s') = 0)
  /\ (ymd_d t <> days_in_month (ymd_y t) (ymd_m t) -> s' = s)
  /\ users s' = users s /\ vouchers s' = vouchers s
  /\ collections s' = collections s
  /\ (zone = 0 -> t = todayYMD c).
Proof.
  intros Hc t s'. subst s'. unfold reset_monthly_income.
  assert (in_range t) as [Hm _] by apply make_day_normal.
  pose proof (ymd_of_ms_after_epoch _ Hc) as Hy.
  change (ymd_of_ms _) with t in Hy. fold t.
  rewrite lastDayOfMonth_days by (done || lia).
  assert (zone = 0 -> t = todayYMD c) as Hz.
  { intros ->. unfold t, reset_date, todayYMD, toPKT_YMD. f_equal. lia. }
  destruct (Z.eqb_spec (ymd_d t) (days_in_month (ymd_y t) (ymd_m t))) as [E|E];
    cbn [fst incomes set_incomes users vouchers collections].
  - split; [|done]. intros _. split; [done|].
    induction (incomes s) as [|r l IH]; [done|].
    rewrite fmap_cons, total_cash_cons, total_bank_cons.
    destruct IH as [-> ->]. done.
  - done.
Qed.

Lemma reset_only_on_last_day_witness :
  let c := Clock 1764486000000 in
  let s := Db [] [] [Income "Ali" (Some 900) (Some 40)] [] in
  incomes (reset_monthly_income 0 c s).1 = reset_income <$> incomes s
  /\ total_cash (incomes (reset_monthly_income 0 c s).1) = 0
  /\ total_bank (incomes (reset_monthly_income 0 c s).1) = 0.
Proof.
  intros c s.
  apply (reset_only_on_last_day 0 c s); [vm_compute; discriminate|].
  vm_compute. reflexivity.
Defined.

(** ** One entry per label *)

Lemma merge_step_labels now merged incoming :
  (labels (merge_step now merged incoming) = labels merged
   /\ month incoming ∈ labels merged)
  \/ (labels (merge_step now merged incoming) = labels merged ++ [month incoming]
      /\ month incoming ∉ labels merged).
Proof.
  unfold merge_step, labels.
  destruct (findIndex (month incoming) merged) as [i|] eqn:Ei.
  - left. apply findIndex_Some in Ei as (e & He & Hl & _). rewrite He. split.
    + rewrite list_fmap_insert. apply list_insert_id.
      rewrite list_lookup_fmap, He. done.
    + apply list_elem_of_fmap. exists e. split; [done|].
      by eapply list_elem_of_lookup_2.
  - right. apply findIndex_None in Ei. split; [by rewrite fmap_app|].
    intros Hin. apply list_elem_of_fmap in Hin as (e & He & Hin).
    rewrite Forall_forall in Ei. by apply (Ei e Hin).
Qed.

Lemma labels_cons x l : labels (x :: l) = month x :: labels l.
Proof. reflexivity. Qed.

Lemma smart_merge_labels_gen now incoming : forall existing,
  labels existing `prefix_of` labels (smart_merge now existing incoming)
  /\ (forall l, l ∈ labels (smart_merge now existing incoming)
                <-> l ∈ labels existing \/ l ∈ labels incoming)
  /\ (NoDup (labels existing) ->
      NoDup (labels (smart_merge now existing incoming))).
Proof.
  unfold smart_merge.
  induction incoming as [|x incoming IH]; intros existing; cbn [fold_left].
  - split; [done|]. split; [|done]. intros l. split; [by left|].
    intros [H|H]; [done|]. by apply elem_of_nil in H.
  - destruct (IH (merge_step now existing x)) as (Hp & Hm & Hn).
    destruct (merge_step_labels now existing x) as [[Hl Hin]|[Hl Hnin]];
      rewrite Hl in Hp, Hm, Hn.
    + split; [done|]. split; [|done].
      intros l. rewrite Hm. rewrite labels_cons, elem_of_cons. split; [tauto|].
      intros [H|[->|H]]; auto.
    + split; [by eapply prefix_app_l|]. split.
      * intros l. rewrite Hm.
        rewrite labels_cons, elem_of_app, list_elem_of_singleton, elem_of_cons.
        tauto.
      * intros Hnd. apply Hn. apply NoDup_app. split; [done|].
        split; [|apply NoDup_singleton].
        intros l Hl1 Hl2. apply list_elem_of_singleton in Hl2. by subst.
Qed.

(** The merge keeps one entry per label: the stored labels stay where they
    are, in their order; a label is present afterwards exactly when it was
    stored or is submitted; and labels that were distinct stay distinct, also
    when the request repeats a label. *)
Theorem smart_merge_labels (now : Z) (existing incoming : list month_entry) :
  labels existing `prefix_of` labels (smart_merge now existing incoming)
  /\ (forall l, l ∈ labels (smart_merge now existing incoming)
                <-> l ∈ labels existing \/ l ∈ labels incoming)
  /\ (NoDup (labels existing) ->
      NoDup (labels (smart_merge now existing incoming))).
Proof. apply smart_merge_labels_gen. Qed.

Lemma labels_convert_superbalance ms :
  labels (convert_superbalance <$> ms) = labels ms.
Proof.
  unfold labels. rewrite <- list_fmap_compose. apply list_fmap_ext.
  intros i m _. unfold compose, convert_superbalance.
  by destruct (str_is (status m) "superbalance").
Qed.

Lemma labels_sort_by key ms : labels (sort_by key ms) ≡ₚ labels ms.
Proof. unfold labels. by rewrite sort_by_perm. Qed.

(** [POST /api/vouchers] never gives a stored voucher a second entry for a
    label: when the labels of the subscriber's voucher are distinct before a
    request, they are distinct after it, whichever path the request takes
    and whether it is answered with 200, 400 or 500. *)
Theorem post_vouchers_keeps_labels_distinct (c : clock) (newId : string)
    (rq : voucher_request) (s : db) (v : voucher) :
  voucher_of (vr_userId rq) s = Some v ->
  NoDup (labels (default [] (months v))) ->
  NoDup (labels (months_of (vr_userId rq) (post_vouchers c newId rq s).1)).
Proof.
  intros Hv Hnd.
  assert (NoDup (labels (months_of (vr_userId rq) s))) as Hs
    by (unfold months_of; by rewrite Hv).
  assert ((forall first rest, vr_months rq <> Some (first :: rest)) ->
          NoDup (labels (months_of (vr_userId rq)
                           (post_vouchers c newId rq s).1))) as Hsingle.
  { intros Hnm.
    assert (post_vouchers c newId rq s
            = catch_500 "Error creating voucher"
                (post_vouchers_single c newId rq) s) as ->.
    { unfold post_vouchers, post_vouchers_body.
      destruct (vr_months rq) as [[|first rest]|]; [done| |done].
      by destruct (Hnm first rest). }
    unfold catch_500, post_vouchers_single.
    destruct (vr_month rq) as [label|]; [|done].
    destruct (vr_packageFee rq) as [fee|]; [|done].
    destruct (_ || _); [done|]. cbv zeta.
    unfold mbind, M_bind, bind, get, modify, ret. rewrite Hv.
    destruct (existsb (same_label label) (default [] (months v))) eqn:Ex;
      [done|].
    cbn [fst]. unfold months_of, voucher_of. cbn [vouchers set_vouchers].
    rewrite find_update_first_same by (by intros x Hx).
    unfold voucher_of in Hv. rewrite Hv. cbn [fmap option_fmap option_map months].
    unfold labels. cbn [default from_option id]. rewrite fmap_app.
    apply NoDup_app. split; [done|]. split; [|apply NoDup_singleton].
    intros l Hl1 Hl2. apply list_elem_of_singleton in Hl2. cbn in Hl2. subst l.
    apply list_elem_of_fmap in Hl1 as (e & He & Hin).
    assert (existsb (same_label label) (default [] (months v)) = true);
      [|congruence].
    apply existsb_exists. exists e. split; [by apply list_elem_of_In|].
    unfold same_label. by apply String.eqb_eq. }
  destruct (vr_months rq) as [[|first rest]|] eqn:Hms;
    [apply Hsingle; intros f r; rewrite ?Hms; done| |
     apply Hsingle; intros f r; rewrite ?Hms; done].
  clear Hsingle.
  destruct (post_vouchers_merge_stored c newId rq s v first rest Hms Hv)
    as (_ & (v' & Hv' & Hm') & _).
  unfold months_of. rewrite Hv', Hm'. cbn [default from_option id].
  unfold sort_by_date. rewrite labels_sort_by, labels_convert_superbalance.
  by apply smart_merge_labels_gen.
Qed.

Lemma post_vouchers_keeps_labels_distinct_witness :
  NoDup (labels (months_of "65a1b2c3d4e5f60718293a4b"
                   (post_vouchers noon_3_nov_2025 "66b2b2c3d4e5f60718293a4b" sample_repay_request
                      (Db [] [sample_open_voucher 1500 0] [] [])).1)).
Proof.
  apply (post_vouchers_keeps_labels_distinct noon_3_nov_2025 "66b2b2c3d4e5f60718293a4b"
           sample_repay_request (Db [] [sample_open_voucher 1500 0] [] [])
           (sample_open_voucher 1500 0)).
  - reflexivity.
  - apply (bool_decide_unpack _). vm_compute. reflexivity.
Defined.

(** The first voucher of a subscriber: a request with months for a
    subscriber who has no voucher is answered with 201 and appends one
    voucher, found under the subscriber afterwards, whose months are the
    submitted ones in ascending order of charge date; the payments are
    credited, and no subscriber is written. *)
Theorem post_vouchers_first_voucher (c : clock) (newId : string)
    (rq : voucher_request) (s : db) (first : month_entry)
    (rest : list month_entry) :
  vr_months rq = Some (first :: rest) ->
  voucher_of (vr_userId rq) s = None ->
  let s' := (post_vouchers c newId rq s).1 in
  (post_vouchers c newId rq s).2 = Resp 201 "Voucher created with months array"
  /\ (exists v',
        vouchers s' = vouchers s ++ [v']
        /\ voucher_of (vr_userId rq) s' = Some v'
        /\ v_id v' = newId
        /\ months v' = Some (sort_by_date (first :: rest)))
  /\ sort_by_date (first :: rest) ≡ₚ first :: rest
  /\ StronglySorted (by_key date_key) (sort_by_date (first :: rest))
  /\ incomes s' = credit_months (sort_by_date (first :: rest)) (incomes s)
  /\ users s' = users s.
Proof.
  intros Hms Hv s'. subst s'.
  unfold post_vouchers, catch_500, post_vouchers_body. rewrite Hms.
  unfold mbind, M_bind, bind, get. rewrite Hv.
  unfold post_vouchers_create, mbind, M_bind, bind, modify, ret.
  cbn [fst snd vouchers set_vouchers set_incomes incomes users].
  split; [done|]. split.
  - eexists. split; [done|]. split; [|done].
    unfold voucher_of. cbn [vouchers].
    apply find_first_app_new; [exact Hv|]. by apply of_user_true.
  - split; [apply sort_by_perm|]. split; [apply sort_by_sorted|done].
Qed.

Lemma post_vouchers_first_voucher_witness :
  (post_vouchers noon_3_nov_2025 "66b1b2c3d4e5f60718293a4b" sample_repay_request (Db [] [] [] [])).2
  = Resp 201 "Voucher created with months array".
Proof.
  apply (post_vouchers_first_voucher noon_3_nov_2025 "66b1b2c3d4e5f60718293a4b" sample_repay_request
           (Db [] [] [] []) sample_repaid_month []); reflexivity.
Defined.

(** [PUT /api/vouchers/:id] writes nothing when no voucher has the id, in
    every mode and also for a refund request: an id that is no ObjectId
    string is answered with 400, an id no voucher has with 404. *)
Theorem put_voucher_not_found (c : clock) (id : string) (upd : voucher_update)
    (s : db) :
  (forall oid, ObjectId id = Some oid ->
               find_first (voucher_has_id oid) (vouchers s) = None) ->
  put_voucher c id upd s
  = (s, if ObjectId_isValid id then Resp 404 "Voucher not found"
        else Resp 400 "Invalid voucher ID format").
Proof.
  intros Hv. unfold put_voucher. unfold ObjectId in *.
  destruct (ObjectId_isValid id); [|done].
  specialize (Hv _ eq_refl). set (oid := toLowerCase id) in *.
  unfold catch_500, put_voucher_body.
  assert (put_voucher_refund oid upd s = (s, Done tt)) as Hr.
  { unfold put_voucher_refund.
    destruct (vu_months upd); [|done]. destruct (vu_isRefund upd); [|done].
    unfold mbind, M_bind, bind, get. by rewrite Hv. }
  unfold mbind, M_bind, bind, get. rewrite Hr, Hv.
  destruct (vu_months upd); [|done].
  by destruct (str_is (vu_mode upd) "replace").
Qed.

Lemma put_voucher_not_found_witness :
  put_voucher noon_3_nov_2025 "66b9b2c3d4e5f60718293a4b"
    (VoucherUpdate (Some [sample_repaid_month]) None None true (Some "replace"))
    (Db [] [sample_open_voucher 1500 0] [] [])
  = (Db [] [sample_open_voucher 1500 0] [] [], Resp 404 "Voucher not found").
Proof.
  apply (put_voucher_not_found noon_3_nov_2025 "66b9b2c3d4e5f60718293a4b").
  intros oid [= <-]. reflexivity.
Defined.

(** ** Subscribers: creation, deletion, recalculation *)

(** Every created subscriber balances: the paid and the remaining amount add
    up to the total ([fee - discount] times the number of months), the
    service is active, and [unpaidSince] is set exactly for the status
    ['unpaid']. *)
Theorem new_subscriber_balances (c : clock) (newId name : string)
    (rq : user_request) :
  let u := newUser c newId name rq in
  num (u_paidAmount u) + num (u_remainingAmount u) = num (totalAmount u)
  /\ num (totalAmount u)
     = (num (rq_amount rq) - num (rq_discount rq)) * or_one (rq_numberOfMonths rq)
  /\ serviceStatus u = Some "active"
  /\ (unpaidSince u = Some (now_ms c) /\ u_status u = Some "unpaid"
      \/ unpaidSince u = None /\ u_status u <> Some "unpaid").
Proof.
  unfold newUser, determine_payment_status.
  destruct (str_is (rq_status rq) "pending").
  { cbn. repeat split; try lia. by right. }
  destruct (str_is (rq_paymentType rq) "now").
  { destruct (1 <? num (rq_numberOfMonths rq)); cbn; repeat split; try lia;
      by right. }
  destruct (str_is (rq_paymentType rq) "later");
    cbn; repeat split; try lia; by left.
Qed.

Lemma find_first_filter_out {A} (p q : A -> bool) (l : list A) :
  (forall x, p x = true -> q x = true) ->
  find_first p (filter (fun x => negb (q x)) l) = None.
Proof.
  intros Hpq. unfold find_first.
  destruct (find p _) as [x|] eqn:E; [|done].
  apply find_some in E as [Hin Hp].
  apply list_elem_of_In, list_elem_of_filter in Hin as [Hq _].
  rewrite (Hpq x Hp) in Hq. done.
Qed.

Lemma find_first_filter_keep {A} (p q : A -> bool) (l : list A) :
  (forall x, p x = true -> q x = false) ->
  find_first p (filter (fun x => negb (q x)) l) = find_first p l.
Proof.
  intros Hpq. unfold find_first.
  induction l as [|x l IH]; [done|].
  rewrite filter_cons.
  destruct (decide (negb (q x))) as [Hq|Hq]; cbn [find].
  - by rewrite IH.
  - destruct (p x) eqn:Hp; [|apply IH].
    rewrite (Hpq x Hp) in Hq. by destruct Hq.
Qed.

Lemma filter_filter_keep {A} (p q : A -> bool) (l : list A) :
  (forall x, p x = true -> q x = false) ->
  filter (fun x => p x) (filter (fun x => negb (q x)) l)
  = filter (fun x => p x) l.
Proof.
  intros Hpq. induction l as [|x l IH]; [done|].
  rewrite (filter_cons (fun x => negb (q x))), (filter_cons (fun x => p x)).
  destruct (decide (negb (q x))) as [Hq|Hq].
  - rewrite filter_cons, IH. done.
  - rewrite IH. destruct (decide (p x)) as [Hp|Hp]; [|done].
    apply Is_true_true in Hp. rewrite (Hpq x Hp) in Hq. by destruct Hq.
Qed.

Lemma fold_apply_deduction_names ds : forall l,
  i_name <$> fold_left apply_deduction ds l = i_name <$> l.
Proof.
  induction ds as [|[r [cash bank]] ds IH]; intros l; cbn [fold_left]; [done|].
  rewrite IH. unfold apply_deduction.
  destruct (_ || _); [|done]. by apply update_first_fmap.
Qed.

(** Deleting a subscriber under an id that is no ObjectId string is refused
    with 400 and writes nothing.  Otherwise the deletion removes the
    subscriber who has the id and every voucher stored under the id as the
    request gives it, leaves every other subscriber and every other
    subscriber's vouchers as they are, and the vouchers go even when the
    answer is 404.  In either case no income record is added or removed and
    the transfers are left alone. *)
Theorem delete_user_removes (id : string) (s : db) :
  let s' := (delete_user id s).1 in
  match ObjectId id with
  | None => delete_user id s = (s, Resp 400 "Invalid user ID format")
  | Some oid =>
      user_of oid s' = None
      /\ filter (fun v => of_user id v) (vouchers s') = []
      /\ (forall other, other <> oid -> user_of other s' = user_of other s)
      /\ (forall other, other <> id ->
            filter (fun v => of_user other v) (vouchers s')
            = filter (fun v => of_user other v) (vouchers s))
      /\ (resp_code (delete_user id s).2
          = match user_of oid s with Some _ => 200 | None => 404 end)
  end
  /\ i_name <$> incomes s' = i_name <$> incomes s
  /\ collections s' = collections s.
Proof.
  assert (filter (fun v => of_user id v)
            (filter (fun v => negb (of_user id v)) (vouchers s)) = []) as Hgone.
  { induction (vouchers s) as [|x l IH]; [done|].
    rewrite (filter_cons (fun v => negb (of_user id v))).
    destruct (decide (negb (of_user id x))) as [Hq|Hq]; [|done].
    rewrite filter_cons, IH.
    destruct (decide (of_user id x)) as [Hp|Hp]; [|done].
    apply Is_true_true in Hp. rewrite Hp in Hq. by destruct Hq. }
  assert (forall other, other <> id ->
            forall x, of_user other x = true -> of_user id x = false) as Hov.
  { intros other Ho x Hx. apply of_user_true in Hx. apply of_user_false.
    congruence. }
  assert (forall oid other, other <> oid ->
            forall x, has_id other x = true -> has_id oid x = false) as Hou.
  { intros oid other Ho x Hx. apply has_id_true in Hx. apply has_id_false.
    congruence. }
  unfold delete_user, user_of.
  destruct (ObjectId id) as [oid|]; [|done].
  destruct (find_first (has_id oid) (users s)) eqn:Hu;
    cbn [fst snd users vouchers incomes collections resp_code].
  - split; [|split; [apply fold_apply_deduction_names|done]].
    split; [by apply find_first_filter_out|]. split; [done|].
    split; [|split; [|done]].
    + intros other Ho. apply find_first_filter_keep. by apply Hou.
    + intros other Ho. apply filter_filter_keep. by apply Hov.
  - split; [|split; [apply fold_apply_deduction_names|done]].
    split; [done|]. split; [done|]. split; [done|]. split; [|done].
    intros other Ho. apply filter_filter_keep. by apply Hov.
Qed.

Lemma update_first_idem {A} (p : A -> bool) (f : A -> A) (l : list A) :
  (forall x, p (f x) = p x) -> (forall x, f (f x) = f x) ->
  update_first p f (update_first p f l) = update_first p f l.
Proof.
  intros Hp Hf. induction l as [|x l IH]; [done|].
  cbn [update_first]. destruct (p x) eqn:E; cbn [update_first].
  - by rewrite Hp, E, Hf.
  - by rewrite E, IH.
Qed.

Lemma vouchers_for_same_id id u u' s s' :
  u_id u' = u_id u -> vouchers s' = vouchers s ->
  vouchers_for id u' s' = vouchers_for id u s.
Proof. intros Hu Hv. unfold vouchers_for. by rewrite Hu, Hv. Qed.

(** Recalculation reads the vouchers and writes one subscriber: it is
    answered with 500 when the id is no ObjectId string and with 404 when no
    subscriber has the id, and writes nothing then; in every case the
    vouchers, the incomes, the transfers and the ids of the subscribers stay
    as they are, and recalculating again changes nothing. *)
Theorem recalculate_status_stable (id : string) (s : db) :
  let s' := (recalculate_status id s).1 in
  recalculate_status id s' = (s', (recalculate_status id s).2)
  /\ vouchers s' = vouchers s /\ incomes s' = incomes s
  /\ collections s' = collections s
  /\ u_id <$> users s' = u_id <$> users s
  /\ match ObjectId id with
     | None => recalculate_status id s = (s, Resp 500 "Error recalculating status")
     | Some oid =>
         match user_of oid s with
         | None => recalculate_status id s = (s, Resp 404 "User not found")
         | Some _ => resp_code (recalculate_status id s).2 = 200
         end
     end.
Proof.
  unfold recalculate_status, user_of.
  destruct (ObjectId id) as [oid|]; [|done].
  destruct (find_first (has_id oid) (users s)) as [u|] eqn:Hu.
  2:{ cbn [fst snd]. by rewrite Hu. }
  destruct (vouchers_for id u s) as [|v0 vs] eqn:Hvs;
    cbn [fst snd users vouchers incomes collections set_users];
    rewrite find_update_first_same, Hu by done;
    cbn [fmap option_fmap option_map];
    rewrite (vouchers_for_same_id id u _ s _) by done;
    rewrite Hvs.
  - split; [|split; [done|split; [done|split; [done|split;
      [by apply update_first_fmap|done]]]]].
    f_equal. unfold set_users. cbn [users vouchers incomes collections].
    f_equal. by apply update_first_idem.
  - split; [|split; [done|split; [done|split; [done|split;
      [by apply update_first_fmap|done]]]]].
    f_equal. unfold set_users. cbn [users vouchers incomes collections].
    f_equal. by apply update_first_idem.
Qed.


(** ** The merging [PUT] and the expiry endpoint *)

Lemma Forall_sort_by (P : month_entry -> Prop) key ms :
  Forall P ms -> Forall P (sort_by key ms).
Proof. intros H. by rewrite sort_by_perm. Qed.

(** A merging [PUT /api/vouchers/:id] on a stored voucher keeps the voucher
    well-formed: it is answered with 200, the voucher keeps its owner, labels
    that were distinct stay distinct, and when every stored month satisfied
    [remainingAmount = max(0, packageFee - discount - paidAmount)] every
    month does afterwards.  The one exception is a refund request on a
    voucher whose [userId] is no ObjectId string: it is answered with 500
    and writes nothing. *)
Theorem put_voucher_merge_keeps_invariants (c : clock) (id oid : string)
    (upd : voucher_update) (s : db) (v : voucher) (ms : list month_entry) :
  ObjectId id = Some oid ->
  find_first (voucher_has_id oid) (vouchers s) = Some v ->
  vu_months upd = Some ms ->
  str_is (vu_mode upd) "replace" = false ->
  NoDup (labels (default [] (months v))) ->
  Forall remaining_ok (default [] (months v)) ->
  if vu_isRefund upd && negb (ObjectId_isValid (userId v))
  then put_voucher c id upd s = (s, Resp 500 "Error updating voucher")
  else
    (put_voucher c id upd s).2 = Resp 200 "Voucher updated successfully"
    /\ exists v',
         find_first (voucher_has_id oid) (vouchers (put_voucher c id upd s).1)
         = Some v'
         /\ userId v' = userId v
         /\ NoDup (labels (default [] (months v')))
         /\ Forall remaining_ok (default [] (months v')).
Proof.
  intros Hid Hv Hms Hmode Hnd Hok.
  destruct (vu_isRefund upd) eqn:Hrefund;
    [destruct (ObjectId_isValid (userId v)) eqn:Hvalid|]; cbn [andb negb].
  2:{ destruct (put_voucher_refund_throws oid upd s v ms Hv Hms Hrefund Hvalid)
        as [e He].
      unfold put_voucher. rewrite Hid.
      unfold catch_500, put_voucher_body, mbind, M_bind, bind.
      by rewrite He. }
  all: (destruct (put_voucher_merge_stored c id oid upd s v ms Hid Hv Hms Hmode)
          as (Hr & v' & Hv' & Hu & Hm); [by auto|]);
       (split; [done|]); exists v'; (split; [done|]); (split; [done|]);
       rewrite Hm; cbn [default from_option Datatypes.id];
       unfold sort_by_date; split;
       [rewrite labels_sort_by; by apply smart_merge_labels_gen
       |by apply Forall_sort_by, smart_merge_remaining_ok].
Qed.

Lemma put_voucher_merge_keeps_invariants_witness :
  (put_voucher noon_3_nov_2025 "66b1b2c3d4e5f60718293a4b"
     (VoucherUpdate (Some [sample_repaid_month]) None None false None)
     (Db [] [sample_open_voucher 1500 0] [] [])).2
  = Resp 200 "Voucher updated successfully".
Proof.
  apply (put_voucher_merge_keeps_invariants noon_3_nov_2025
           "66b1b2c3d4e5f60718293a4b" "66b1b2c3d4e5f60718293a4b"
           (VoucherUpdate (Some [sample_repaid_month]) None None false None)
           (Db [] [sample_open_voucher 1500 0] [] [])
           (sample_open_voucher 1500 0) [sample_repaid_month]).
  - reflexivity.
  - reflexivity.
  - reflexivity.
  - reflexivity.
  - apply (bool_decide_unpack _). vm_compute. reflexivity.
  - repeat constructor.
Defined.

Lemma tomorrow_job_frame c s :
  vouchers (checkTomorrowExpiringUsers c s) = vouchers s
  /\ incomes (checkTomorrowExpiringUsers c s) = incomes s
  /\ collections (checkTomorrowExpiringUsers c s) = collections s
  /\ u_id <$> users (checkTomorrowExpiringUsers c s) = u_id <$> users s.
Proof.
  unfold checkTomorrowExpiringUsers.
  destruct (currentHour c <? 12); [done|].
  rewrite fold_set_users. cbn [vouchers incomes collections users set_users].
  repeat split.
  generalize (users s).
  induction (expiringTomorrowUsers c s) as [|u l IH]; intros us; [done|].
  cbn [fold_left]. rewrite IH. by apply update_first_fmap.
Qed.

(** The expiry endpoint runs the rollover and then the flagging and always
    answers 200, also when the rollover stopped on an error.  Whatever it
    does, the incomes and the transfers are left alone, no subscriber is
    added or removed, and the vouchers only grow.  Before noon it writes
    nothing at all. *)
Theorem expiry_processing_frame (c : clock) (newId : string -> string)
    (s : db) :
  let r := handleExpiryProcessing c newId s in
  r.2 = Resp 200 "Expiry processing executed successfully"
  /\ incomes r.1.1 = incomes s
  /\ collections r.1.1 = collections s
  /\ u_id <$> users r.1.1 = u_id <$> users s
  /\ grows (vouchers s) (vouchers r.1.1)
  /\ (12 <= currentHour c \/ r.1 = (s, [])).
Proof.
  unfold handleExpiryProcessing.
  destruct (Z.ltb_spec (currentHour c) 12) as [Hlt|Hge].
  - assert (moveTodayExpiredToUnpaid c newId s = (s, [])) as ->.
    { unfold moveTodayExpiredToUnpaid.
      destruct (Z.ltb_spec (currentHour c) 12); [done|lia]. }
    assert (checkTomorrowExpiringUsers c s = s) as ->.
    { unfold checkTomorrowExpiringUsers.
      destruct (Z.ltb_spec (currentHour c) 12); [done|lia]. }
    cbn [fst snd]. repeat split; [apply grows_refl|by right].
  - pose proof (job_frame c newId s) as Hf.
    destruct (moveTodayExpiredToUnpaid c newId s) as [s1 logged].
    cbn [fst snd] in *. destruct Hf as (Hi & Hc & Hu & Hg).
    destruct (tomorrow_job_frame c s1) as (Hv2 & Hi2 & Hc2 & Hu2).
    split; [done|]. split; [congruence|]. split; [congruence|].
    split; [congruence|]. split; [by rewrite Hv2|by left].
Qed.
